(** * The WASM slicer ([src/wasm/src/slicer.cpp]): model and properties

    The C++ class [SimpleSlicer] is embedded function by function.  A C++
    [double] is IEEE 754 binary64, which is exactly Rocq's primitive [float];
    the arithmetic and comparison operators below are the kernel's, and their
    meaning is given by [SpecFloat] through the axioms of [FloatAxioms].
    A [std::vector] is a [list], [push_back] appends at the end, and a
    [std::stringstream] is the list of the items streamed into it. *)

From Stdlib Require Import Floats ZArith String Ascii List Bool Lia PeanoNat.
From Stdlib Require Import Sorting.Sorted DecimalString QArith Qround.
From Stdlib Require Uint63.
Import ListNotations.

Set Warnings "-inexact-float".
Local Open Scope float_scope.

(** ** Results of possibly non-terminating, possibly undefined code

    The two [for] loops over a [double] need not terminate, and [back()] of
    an empty vector is undefined: both are made explicit. *)

Inductive outcome (A : Type) : Type :=
| Returns (a : A)
| OutOfFuel
| Undefined.
Arguments Returns {A} a.
Arguments OutOfFuel {A}.
Arguments Undefined {A}.

Definition bind {A B : Type} (m : outcome A) (k : A -> outcome B) : outcome B :=
  match m with
  | Returns a => k a
  | OutOfFuel => OutOfFuel
  | Undefined => Undefined
  end.

Notation "x <- m ;; k" := (bind m (fun x => k))
  (at level 61, m at next level, right associativity).

(** ** Data *)

Module Vector3.
Record t : Type := mk { x : float; y : float; z : float }.
End Vector3.
Definition Vector3 : Type := Vector3.t.

Record Triangle : Type := mkTriangle { v1 : Vector3; v2 : Vector3; v3 : Vector3 }.

Record Layer : Type := mkLayer {
  height : float;
  contours : list (list Vector3);
  infill : list (list Vector3)
}.

Record SimpleSlicer : Type := mkSlicer {
  triangles : list Triangle;
  layerHeight : float;
  infillDensity : float
}.

(** [SimpleSlicer() : layerHeight(0.2), infillDensity(20.0)] *)
Definition SimpleSlicer_new : SimpleSlicer :=
  {| triangles := []; layerHeight := 0.2; infillDensity := 20.0 |}.

Definition setLayerHeight (height : float) (s : SimpleSlicer) : SimpleSlicer :=
  {| triangles := triangles s; layerHeight := height; infillDensity := infillDensity s |}.

Definition setInfillDensity (density : float) (s : SimpleSlicer) : SimpleSlicer :=
  {| triangles := triangles s; layerHeight := layerHeight s; infillDensity := density |}.

(** ** [createTestCube] and [parseSTL] *)

Definition cube_triangles : list Triangle :=
  let size := 10.0 in
  let p1 := Vector3.mk (- size / 2) (- size / 2) (- size / 2) in
  let p2 := Vector3.mk (size / 2) (- size / 2) (- size / 2) in
  let p3 := Vector3.mk (size / 2) (size / 2) (- size / 2) in
  let p4 := Vector3.mk (- size / 2) (size / 2) (- size / 2) in
  let p5 := Vector3.mk (- size / 2) (- size / 2) (size / 2) in
  let p6 := Vector3.mk (size / 2) (- size / 2) (size / 2) in
  let p7 := Vector3.mk (size / 2) (size / 2) (size / 2) in
  let p8 := Vector3.mk (- size / 2) (size / 2) (size / 2) in
  [ mkTriangle p1 p2 p3; mkTriangle p1 p3 p4;
    mkTriangle p5 p6 p7; mkTriangle p5 p7 p8;
    mkTriangle p1 p2 p6; mkTriangle p1 p6 p5;
    mkTriangle p3 p4 p8; mkTriangle p3 p8 p7;
    mkTriangle p2 p3 p7; mkTriangle p2 p7 p6;
    mkTriangle p1 p4 p8; mkTriangle p1 p8 p5 ].

Definition createTestCube (s : SimpleSlicer) : SimpleSlicer :=
  {| triangles := cube_triangles;
     layerHeight := layerHeight s; infillDensity := infillDensity s |}.

(** [triangles.clear(); createTestCube(); return true;] -- [stlData] is not read. *)
Definition parseSTL (stlData : string) (s : SimpleSlicer) : bool * SimpleSlicer :=
  let s := {| triangles := [];
              layerHeight := layerHeight s; infillDensity := infillDensity s |} in
  let s := createTestCube s in
  (true, s).

(** ** [getBoundingBox] *)

(** [std::min(a, b)] is [(b < a) ? b : a] and [std::max(a, b)] is
    [(a < b) ? b : a]. *)
Definition std_min (a b : float) : float := if b <? a then b else a.
Definition std_max (a b : float) : float := if a <? b then b else a.

Definition bbox_step (acc : float * float * float * float * float * float) (tri : Triangle)
  : float * float * float * float * float * float :=
  let '(minX, maxX, minY, maxY, minZ, maxZ) := acc in
  let minX := std_min minX (std_min tri.(v1).(Vector3.x) (std_min tri.(v2).(Vector3.x) tri.(v3).(Vector3.x))) in
  let maxX := std_max maxX (std_max tri.(v1).(Vector3.x) (std_max tri.(v2).(Vector3.x) tri.(v3).(Vector3.x))) in
  let minY := std_min minY (std_min tri.(v1).(Vector3.y) (std_min tri.(v2).(Vector3.y) tri.(v3).(Vector3.y))) in
  let maxY := std_max maxY (std_max tri.(v1).(Vector3.y) (std_max tri.(v2).(Vector3.y) tri.(v3).(Vector3.y))) in
  let minZ := std_min minZ (std_min tri.(v1).(Vector3.z) (std_min tri.(v2).(Vector3.z) tri.(v3).(Vector3.z))) in
  let maxZ := std_max maxZ (std_max tri.(v1).(Vector3.z) (std_max tri.(v2).(Vector3.z) tri.(v3).(Vector3.z))) in
  (minX, maxX, minY, maxY, minZ, maxZ).

Definition getBoundingBox (s : SimpleSlicer) : list float :=
  match triangles s with
  | [] => [0; 0; 0; 0; 0; 0]
  | t0 :: _ =>
    let init := (t0.(v1).(Vector3.x), t0.(v1).(Vector3.x),
                 t0.(v1).(Vector3.y), t0.(v1).(Vector3.y),
                 t0.(v1).(Vector3.z), t0.(v1).(Vector3.z)) in
    let '(minX, maxX, minY, maxY, minZ, maxZ) := fold_left bbox_step (triangles s) init in
    [minX; minY; minZ; maxX; maxY; maxZ]
  end.

(** [bbox[i]] for the six-element vector [getBoundingBox] returns. *)
Definition at_ (bbox : list float) (i : nat) : float := nth i bbox 0.

(** ** [calculateIntersection] *)

Definition calculateIntersection (tri : Triangle) (z : float) : Vector3 :=
  let t1 := (z - tri.(v1).(Vector3.z)) / (tri.(v2).(Vector3.z) - tri.(v1).(Vector3.z)) in
  let t2 := (z - tri.(v2).(Vector3.z)) / (tri.(v3).(Vector3.z) - tri.(v2).(Vector3.z)) in
  let p1 := Vector3.mk (tri.(v1).(Vector3.x) + t1 * (tri.(v2).(Vector3.x) - tri.(v1).(Vector3.x)))
                       (tri.(v1).(Vector3.y) + t1 * (tri.(v2).(Vector3.y) - tri.(v1).(Vector3.y)))
                       z in
  let p2 := Vector3.mk (tri.(v2).(Vector3.x) + t2 * (tri.(v3).(Vector3.x) - tri.(v2).(Vector3.x)))
                       (tri.(v2).(Vector3.y) + t2 * (tri.(v3).(Vector3.y) - tri.(v2).(Vector3.y)))
                       z in
  Vector3.mk ((p1.(Vector3.x) + p2.(Vector3.x)) / 2) ((p1.(Vector3.y) + p2.(Vector3.y)) / 2) z.

(** ** [generateInfill] *)

(** The loop [for (double x = minX; x <= maxX; x += spacing / density)]. *)
Fixpoint generateInfill_loop (fuel : nat) (minY maxY maxX step z x : float)
    (infill : list (list Vector3)) : outcome (list (list Vector3)) :=
  match fuel with
  | O => OutOfFuel
  | S fuel =>
    if x <=? maxX then
      let line := [] in
      let line := line ++ [Vector3.mk x minY z] in
      let line := line ++ [Vector3.mk x maxY z] in
      generateInfill_loop fuel minY maxY maxX step z (x + step) (infill ++ [line])
    else Returns infill
  end.

Definition generateInfill (fuel : nat) (s : SimpleSlicer) (contour : list Vector3) (z : float)
  : outcome (list (list Vector3)) :=
  let bbox := getBoundingBox s in
  let minX := at_ bbox 0 in let maxX := at_ bbox 3 in
  let minY := at_ bbox 1 in let maxY := at_ bbox 4 in
  let spacing := 2.0 in
  let density := infillDensity s / 100.0 in
  generateInfill_loop fuel minY maxY maxX (spacing / density) z minX [].

(** ** [slice] *)

(** The condition of the [if] in the triangle scan. *)
Definition candidate (tri : Triangle) (z : float) : bool :=
  ((tri.(v1).(Vector3.z) <=? z) && (z <=? tri.(v2).(Vector3.z))) ||
  ((tri.(v2).(Vector3.z) <=? z) && (z <=? tri.(v3).(Vector3.z))) ||
  ((tri.(v3).(Vector3.z) <=? z) && (z <=? tri.(v1).(Vector3.z))).

(** The inner loop [for (const auto& tri : triangles)]. *)
Definition scan (tris : list Triangle) (z : float) : list Vector3 :=
  fold_left (fun intersections tri =>
               if candidate tri z
               then intersections ++ [calculateIntersection tri z]
               else intersections)
            tris [].

(** The loop [for (double z = minZ; z <= maxZ; z += layerHeight)]. *)
Fixpoint slice_loop (fuel : nat) (s : SimpleSlicer) (maxZ z : float) (layers : list Layer)
  : outcome (list Layer) :=
  match fuel with
  | O => OutOfFuel
  | S fuel =>
    if z <=? maxZ then
      let intersections := scan (triangles s) z in
      layer <- match intersections with
               | [] => Returns (mkLayer z [] [])
               | _ :: _ =>
                 infill <- generateInfill fuel s intersections z ;;
                 Returns (mkLayer z [intersections] infill)
               end ;;
      slice_loop fuel s maxZ (z + layerHeight s) (layers ++ [layer])
    else Returns layers
  end.

Definition slice (fuel : nat) (s : SimpleSlicer) : outcome (list Layer) :=
  let bbox := getBoundingBox s in
  let minZ := at_ bbox 2 in
  let maxZ := at_ bbox 5 in
  slice_loop fuel s maxZ minZ [].

(** ** Text output

    A [std::stringstream] is modelled by the sequence of items inserted with
    [<<]: string literals, [double]s and [size_t]s.  [str] renders it, given
    the text of each [double]; what the library prints for a [double] that
    is not NaN is [show_double_default], further down. *)

Inductive item : Type :=
| Str (s : string)
| Dbl (d : float)
| Size (n : nat).

Definition ostream : Type := list item.

Definition put (o : ostream) (i : item) : ostream := o ++ [i].

Coercion Str : string >-> item.
Coercion Dbl : float >-> item.
Coercion Size : nat >-> item.

Local Open Scope string_scope.
Notation "o << i" := (put o i) (at level 50, left associativity).

(** The line feed and the double quote, written with a backslash in the C++
    literals. *)
Definition LF : string := String (ascii_of_nat 10) EmptyString.
Definition DQ : string := String (ascii_of_nat 34) EmptyString.

Definition show_size (n : nat) : string := NilEmpty.string_of_uint (Nat.to_uint n).

Definition show_item (show_double : float -> string) (i : item) : string :=
  match i with
  | Str s => s
  | Dbl d => show_double d
  | Size n => show_size n
  end.

Definition str (show_double : float -> string) (o : ostream) : string :=
  String.concat EmptyString (map (show_item show_double) o).

(** [v.back()]: undefined on an empty vector. *)
Definition back {A : Type} (v : list A) : outcome A :=
  match v with
  | [] => Undefined
  | a :: v' => Returns (last v' a)
  end.

(** ** [generateGCode] *)

(** The body of [for (const auto& contour : layer.contours)]. *)
Definition emit_contour (height : float) (st : ostream * float) (contour : list Vector3)
  : ostream * float :=
  let '(gcode, e) := st in
  match contour with
  | [] => (gcode, e)
  | c0 :: rest =>
    let gcode := gcode << "G0 Z" << height << (" F1200" ++ LF) in
    let gcode := gcode << "G0 X" << c0.(Vector3.x) << " Y" << c0.(Vector3.y) << (" F3000" ++ LF) in
    fold_left (fun '(gcode, e) cj =>
                 let e := e + 0.1 in
                 (gcode << "G1 X" << cj.(Vector3.x) << " Y" << cj.(Vector3.y)
                        << " E" << e << (" F1800" ++ LF), e))
              rest (gcode, e)
  end.

(** The body of [for (const auto& infillLine : layer.infill)]. *)
Definition emit_infill (height : float) (st : ostream * float) (infillLine : list Vector3)
  : ostream * float :=
  let '(gcode, e) := st in
  match infillLine with
  | l0 :: l1 :: _ =>
    let gcode := gcode << "G0 Z" << height << (" F1200" ++ LF) in
    let gcode := gcode << "G0 X" << l0.(Vector3.x) << " Y" << l0.(Vector3.y) << (" F3000" ++ LF) in
    let e := e + 0.05 in
    (gcode << "G1 X" << l1.(Vector3.x) << " Y" << l1.(Vector3.y)
           << " E" << e << (" F1800" ++ LF), e)
  | _ => (gcode, e)
  end.

(** The body of [for (size_t i = 0; i < layers.size(); i++)]. *)
Definition emit_layer (st : ostream * float * nat) (layer : Layer) : ostream * float * nat :=
  let '(gcode, e, i) := st in
  let gcode := gcode << "; Layer " << i << " at Z=" << layer.(height) << LF in
  let '(gcode, e) := fold_left (emit_contour layer.(height)) layer.(contours) (gcode, e) in
  let '(gcode, e) := fold_left (emit_infill layer.(height)) layer.(infill) (gcode, e) in
  (gcode, e, S i).

Definition gcode_header (s : SimpleSlicer) : ostream :=
  let gcode : ostream := [] in
  let gcode := gcode << ("; Generated by WASM Slicer" ++ LF) in
  let gcode := gcode << "; Layer height: " << layerHeight s << ("mm" ++ LF) in
  let gcode := gcode << "; Infill density: " << infillDensity s << ("%" ++ LF ++ LF) in
  let gcode := gcode << ("G21 ; Set units to mm" ++ LF) in
  let gcode := gcode << ("G90 ; Absolute positioning" ++ LF) in
  let gcode := gcode << ("M82 ; Extruder absolute mode" ++ LF ++ LF) in
  gcode.

(** What [generateGCode] has streamed when it reaches [return gcode.str()]. *)
Definition generateGCode_stream (fuel : nat) (s : SimpleSlicer) : outcome ostream :=
  layers <- slice fuel s ;;
  let gcode := gcode_header s in
  let e := 0.0 in
  let '(gcode, e, _) := fold_left emit_layer layers (gcode, e, 0%nat) in
  lastLayer <- back layers ;;
  let gcode := gcode << (LF ++ "G0 Z") << (lastLayer.(height) + 10) << (" F1200" ++ LF) in
  let gcode := gcode << ("M84 ; Disable steppers" ++ LF) in
  Returns gcode.

Definition generateGCode (show_double : float -> string) (fuel : nat) (s : SimpleSlicer)
  : outcome string :=
  gcode <- generateGCode_stream fuel s ;;
  Returns (str show_double gcode).

(** ** [getLayerInfo] *)

(** The body of [for (size_t i = 0; i < bbox.size(); i++)]. *)
Definition emit_bbox_entry (st : ostream * nat) (b : float) : ostream * nat :=
  let '(json, i) := st in
  let json := if (0 <? i)%nat then json << ", " else json in
  let json := json << b in
  (json, S i).

(** The body of the loop over the layers. *)
Definition emit_layer_info (st : ostream * nat) (layer : Layer) : ostream * nat :=
  let '(json, i) := st in
  let json := if (0 <? i)%nat then json << ("," ++ LF) else json in
  let json := json << ("    {" ++ LF) in
  let json := json << ("      " ++ DQ ++ "height" ++ DQ ++ ": ") << layer.(height) << ("," ++ LF) in
  let json := json << ("      " ++ DQ ++ "contourCount" ++ DQ ++ ": ")
                   << List.length layer.(contours) << ("," ++ LF) in
  let json := json << ("      " ++ DQ ++ "infillCount" ++ DQ ++ ": ")
                   << List.length layer.(infill) << LF in
  let json := json << "    }" in
  (json, S i).

Definition getLayerInfo_stream (fuel : nat) (s : SimpleSlicer) : outcome ostream :=
  layers <- slice fuel s ;;
  let json : ostream := [] in
  let json := json << ("{" ++ LF) in
  let json := json << ("  " ++ DQ ++ "layerHeight" ++ DQ ++ ": ") << layerHeight s << ("," ++ LF) in
  let json := json << ("  " ++ DQ ++ "infillDensity" ++ DQ ++ ": ") << infillDensity s << ("," ++ LF) in
  let json := json << ("  " ++ DQ ++ "totalLayers" ++ DQ ++ ": ") << List.length layers << ("," ++ LF) in
  let json := json << ("  " ++ DQ ++ "boundingBox" ++ DQ ++ ": [") in
  let bbox := getBoundingBox s in
  let '(json, _) := fold_left emit_bbox_entry bbox (json, 0%nat) in
  let json := json << ("]," ++ LF) in
  let json := json << ("  " ++ DQ ++ "layers" ++ DQ ++ ": [" ++ LF) in
  let '(json, _) := fold_left emit_layer_info layers (json, 0%nat) in
  let json := json << (LF ++ "  ]" ++ LF) in
  let json := json << "}" in
  Returns json.

Definition getLayerInfo (show_double : float -> string) (fuel : nat) (s : SimpleSlicer)
  : outcome string :=
  json <- getLayerInfo_stream fuel s ;;
  Returns (str show_double json).

Local Close Scope string_scope.

(** ** How a [double] is printed

    Neither [generateGCode] nor [getLayerInfo] configures its
    [std::stringstream], so [operator<<] formats a [double] as the C
    conversion [%g] with precision 6: the value is rounded to six
    significant decimal digits (to nearest on the exact value, ties to
    even) and written in fixed notation when its decimal exponent [X]
    satisfies [-4 <= X < 6], in scientific notation otherwise, the trailing
    zeros of the fraction being removed.  The text of a NaN depends on its
    sign bit, which Rocq's [float], with its single NaN, does not have: no
    text is given for it. *)

(** [10^X <= num / den], for positive [num] and [den]. *)
Definition pow10_le (X num den : Z) : bool :=
  if (0 <=? X)%Z then (den * 10 ^ X <=? num)%Z else (den <=? num * 10 ^ (- X))%Z.

(** The largest [X] with [10^X <= num / den], searched downwards. *)
Fixpoint decimal_exponent (fuel : nat) (X num den : Z) : Z :=
  match fuel with
  | O => X
  | S fuel => if pow10_le X num den then X else decimal_exponent fuel (X - 1)%Z num den
  end.

(** [num / den] rounded to the nearest integer, ties to even. *)
Definition round_half_even (num den : Z) : Z :=
  let q := (num / den)%Z in
  match (2 * (num mod den) ?= den)%Z with
  | Lt => q
  | Gt => (q + 1)%Z
  | Eq => if Z.even q then q else (q + 1)%Z
  end.

(** The six significant digits [N], with [10^5 <= N < 10^6], and the
    decimal exponent [X] of the positive value [m * 2^e]: it is printed as
    [N * 10^(X - 5)].  The value is below [2^B], so that its decimal
    exponent is below [B * 0.30103 + 1] and at most four less: the search
    starts there. *)
Definition six_digits (m : positive) (e : Z) : Z * Z :=
  let num := if (0 <=? e)%Z then (Zpos m * 2 ^ e)%Z else Zpos m in
  let den := if (0 <=? e)%Z then 1%Z else (2 ^ (- e))%Z in
  let B := (Z.log2 num + 1 - Z.log2 den)%Z in
  let X := decimal_exponent 8 (B * 30103 / 100000 + 2)%Z num den in
  let N := if (X <=? 5)%Z then round_half_even (num * 10 ^ (5 - X)) den
           else round_half_even num (den * 10 ^ (X - 5)) in
  if (N =? 10 ^ 6)%Z then ((10 ^ 5)%Z, (X + 1)%Z) else (N, X).

Definition show_Z (n : Z) : string := NilEmpty.string_of_uint (N.to_uint (Z.to_N n)).

Fixpoint zeros (n : nat) : string :=
  match n with
  | O => EmptyString
  | S n => String "0" (zeros n)
  end.

(** Without the zeros at the end. *)
Fixpoint strip_zeros (s : string) : string :=
  match s with
  | EmptyString => EmptyString
  | String c rest =>
    match strip_zeros rest with
    | EmptyString => if Ascii.eqb c "0" then EmptyString else String c EmptyString
    | rest' => String c rest'
    end
  end.

Definition with_fraction (int frac : string) : string :=
  match strip_zeros frac with
  | EmptyString => int
  | frac' => String.append int (String "." frac')
  end.

(** [%f] with [5 - X] decimals, for [-4 <= X < 6]. *)
Definition show_fixed (digits : string) (X : Z) : string :=
  if (0 <=? X)%Z
  then with_fraction (substring 0 (Z.to_nat X + 1) digits)
                     (substring (Z.to_nat X + 1) (5 - Z.to_nat X) digits)
  else with_fraction "0" (String.append (zeros (Z.to_nat (- X) - 1)) digits).

(** [%e] with 5 decimals: the exponent has a sign and two digits at least. *)
Definition show_scientific (digits : string) (X : Z) : string :=
  String.append (with_fraction (substring 0 1 digits) (substring 1 5 digits))
    (String.append "e"
       (String.append (if (X <? 0)%Z then "-" else "+")
          (String.append (if (Z.abs X <? 10)%Z then "0" else "") (show_Z (Z.abs X))))).

Definition show_positive (m : positive) (e : Z) : string :=
  let '(N, X) := six_digits m e in
  if ((-4 <=? X) && (X <? 6))%Z%bool
  then show_fixed (show_Z N) X
  else show_scientific (show_Z N) X.

Definition show_double_default (d : float) : option string :=
  match Prim2SF d with
  | S754_nan => None
  | S754_infinity s => Some (if s then "-inf" else "inf")%string
  | S754_zero s => Some (if s then "-0" else "0")%string
  | S754_finite s m e => Some (String.append (if s then "-" else "") (show_positive m e))
  end.

(** * Vocabulary of the properties

    What the statements below are about: well-formed inputs, the accumulated
    values of the two [for] loops, the layers and the streams as the
    specification words them, and the observations made of a stream. *)

(** ** Meshes of numbers

    A coordinate is a number when it is not NaN; infinities are allowed. *)

Definition num_vec (p : Vector3) : Prop :=
  is_nan p.(Vector3.x) = false /\ is_nan p.(Vector3.y) = false /\ is_nan p.(Vector3.z) = false.

Definition num_tri (tri : Triangle) : Prop :=
  num_vec tri.(v1) /\ num_vec tri.(v2) /\ num_vec tri.(v3).

Definition num_mesh (tris : list Triangle) : Prop := Forall num_tri tris.

Definition num_heights (tri : Triangle) : Prop :=
  is_nan tri.(v1).(Vector3.z) = false /\
  is_nan tri.(v2).(Vector3.z) = false /\
  is_nan tri.(v3).(Vector3.z) = false.

(** The states a [SimpleSlicer] object can be in: [triangles] is private,
    and only the constructor and [parseSTL] write it. *)
Inductive reachable : SimpleSlicer -> Prop :=
| reachable_new : reachable SimpleSlicer_new
| reachable_setLayerHeight (height : float) (s : SimpleSlicer) :
    reachable s -> reachable (setLayerHeight height s)
| reachable_setInfillDensity (density : float) (s : SimpleSlicer) :
    reachable s -> reachable (setInfillDensity density s)
| reachable_parseSTL (stlData : string) (s : SimpleSlicer) :
    reachable s -> reachable (snd (parseSTL stlData s)).

(** The slicer right after [parseSTL], with the default configuration. *)
Definition cube_slicer : SimpleSlicer := snd (parseSTL EmptyString SimpleSlicer_new).

(** The cube sliced with [layerHeight = 2]: the end-to-end scenario. *)
Definition cube_slicer_2 : SimpleSlicer := setLayerHeight 2 cube_slicer.

(** ** The bounding box *)

(** [p] lies inside the box [minX, minY, minZ, maxX, maxY, maxZ]. *)
Definition covers (bbox : list float) (p : Vector3) : Prop :=
  (at_ bbox 0 <=? p.(Vector3.x)) = true /\ (p.(Vector3.x) <=? at_ bbox 3) = true /\
  (at_ bbox 1 <=? p.(Vector3.y)) = true /\ (p.(Vector3.y) <=? at_ bbox 4) = true /\
  (at_ bbox 2 <=? p.(Vector3.z)) = true /\ (p.(Vector3.z) <=? at_ bbox 5) = true.

(** One step of the running minimum and maximum along the axis [g]. *)
Definition tri_min (g : Vector3 -> float) (m : float) (tri : Triangle) : float :=
  std_min m (std_min (g tri.(v1)) (std_min (g tri.(v2)) (g tri.(v3)))).

Definition tri_max (g : Vector3 -> float) (m : float) (tri : Triangle) : float :=
  std_max m (std_max (g tri.(v1)) (std_max (g tri.(v2)) (g tri.(v3)))).

Definition num_on (g : Vector3 -> float) (tri : Triangle) : Prop :=
  is_nan (g tri.(v1)) = false /\ is_nan (g tri.(v2)) = false /\ is_nan (g tri.(v3)) = false.

Definition below (g : Vector3 -> float) (r : float) (tri : Triangle) : Prop :=
  (r <=? g tri.(v1)) = true /\ (r <=? g tri.(v2)) = true /\ (r <=? g tri.(v3)) = true.

Definition above (g : Vector3 -> float) (r : float) (tri : Triangle) : Prop :=
  (g tri.(v1) <=? r) = true /\ (g tri.(v2) <=? r) = true /\ (g tri.(v3) <=? r) = true.

(** ** The triangle scan *)

(** The bracketing test as the specification words it: the endpoint Z
    values of an edge bracket [z] inclusively, in either orientation. *)
Definition brackets (a b z : float) : bool :=
  ((a <=? z) && (z <=? b)) || ((b <=? z) && (z <=? a)).

Definition edge_brackets (tri : Triangle) (z : float) : bool :=
  brackets tri.(v1).(Vector3.z) tri.(v2).(Vector3.z) z ||
  brackets tri.(v2).(Vector3.z) tri.(v3).(Vector3.z) z ||
  brackets tri.(v3).(Vector3.z) tri.(v1).(Vector3.z) z.

(** ** Loops over an accumulated [double]

    Both [for] loops of the slicer start at a value, add a step after each
    iteration and run while the value is [<=] a bound.  [plane start step i]
    is the value at iteration [i]: [i] additions, rounded one by one. *)

Definition plane (start step : float) (i : nat) : float :=
  Nat.iter i (fun v => v + step) start.

(** The loop leaves at iteration [n], not before. *)
Definition stops (start step bound : float) (n : nat) : Prop :=
  (forall i, (i < n)%nat -> (plane start step i <=? bound) = true) /\
  (plane start step n <=? bound) = false.

(** The common shape of the two loops: [body] is given the fuel that is
    left and the loop variable, and its result is pushed back. *)
Fixpoint for_loop {A : Type} (bound step : float) (body : nat -> float -> outcome A)
    (fuel : nat) (x : float) (acc : list A) : outcome (list A) :=
  match fuel with
  | O => OutOfFuel
  | S fuel =>
    if x <=? bound then
      a <- body fuel x ;;
      for_loop bound step body fuel (x + step) (acc ++ [a])
    else Returns acc
  end.

(** ** Infill and layers

    The infill as the specification words it: two-point segments parallel
    to Y from [(x, minY, z)] to [(x, maxY, z)], at X values starting at
    [minX] and increasing by [2.0 / (infillDensity / 100)]; a function of
    the box, the density, [z] and the number of lines only. *)

Definition infill_line (minY maxY z x : float) : list Vector3 :=
  [Vector3.mk x minY z; Vector3.mk x maxY z].

Definition infill_step (density : float) : float := 2.0 / (density / 100.0).

Definition infill_lines (bbox : list float) (density z : float) (n : nat)
  : list (list Vector3) :=
  map (fun i => infill_line (at_ bbox 1) (at_ bbox 4) z
                            (plane (at_ bbox 0) (infill_step density) i))
      (seq 0 n).

(** The X loop of [generateInfill] leaves after [m] lines. *)
Definition infill_stops (s : SimpleSlicer) (m : nat) : Prop :=
  stops (at_ (getBoundingBox s) 0) (infill_step (infillDensity s)) (at_ (getBoundingBox s) 3) m.

(** One iteration of the Z loop: the layer built at height [z]. *)
Definition slice_body (s : SimpleSlicer) (fuel : nat) (z : float) : outcome Layer :=
  match scan (triangles s) z with
  | [] => Returns (mkLayer z [] [])
  | p :: ps =>
    infill <- generateInfill fuel s (p :: ps) z ;;
    Returns (mkLayer z [p :: ps] infill)
  end.

(** The layer at height [z] when the infill loop leaves after [m] lines. *)
Definition layer_at (s : SimpleSlicer) (m : nat) (z : float) : Layer :=
  match scan (triangles s) z with
  | [] => mkLayer z [] []
  | p :: ps => mkLayer z [p :: ps] (infill_lines (getBoundingBox s) (infillDensity s) z m)
  end.

(** The height of the plane with index [i]: [minZ], then [layerHeight]
    added [i] times. *)
Definition layer_height (s : SimpleSlicer) (i : nat) : float :=
  plane (at_ (getBoundingBox s) 2) (layerHeight s) i.

(** The Z loop of [slice] leaves after [n] layers. *)
Definition heights_stop (s : SimpleSlicer) (n : nat) : Prop :=
  stops (at_ (getBoundingBox s) 2) (layerHeight s) (at_ (getBoundingBox s) 5) n.

(** Whenever one of the first [n] planes meets a triangle, so that
    [generateInfill] is called, its loop leaves after [m] lines. *)
Definition infill_stops_if_called (s : SimpleSlicer) (n m : nat) : Prop :=
  forall i, (i < n)%nat -> scan (triangles s) (layer_height s i) <> [] -> infill_stops s m.

(** ** The closed formula for the layers

    The formula [floor((maxZ - minZ) / h) + 1] for the number of layers and
    [minZ + i*h] for the height of layer [i], read in two ways: evaluated in
    [double] arithmetic, and evaluated exactly on the rational values of the
    [double]s. *)

(** The rational value of a finite [double]. *)
Definition F2Q (v : float) : Q :=
  match Prim2SF v with
  | S754_finite sg m e => (inject_Z (if sg then Z.neg m else Z.pos m) * Qpower 2 e)%Q
  | _ => 0%Q
  end.

(** [floor] of a finite [double]. *)
Definition Zfloor (v : float) : Z := Qfloor (F2Q v).

(** [(double) i] for a [size_t]. *)
Definition of_nat (i : nat) : float := of_uint63 (Uint63.of_Z (Z.of_nat i)).

Definition formula_count_double (s : SimpleSlicer) : Z :=
  (Zfloor ((at_ (getBoundingBox s) 5 - at_ (getBoundingBox s) 2) / layerHeight s) + 1)%Z.

Definition formula_height_double (s : SimpleSlicer) (i : nat) : float :=
  at_ (getBoundingBox s) 2 + of_nat i * layerHeight s.

Definition formula_count_exact (s : SimpleSlicer) : Z :=
  (Qfloor ((F2Q (at_ (getBoundingBox s) 5) - F2Q (at_ (getBoundingBox s) 2))
           / F2Q (layerHeight s)) + 1)%Z.

Definition formula_height_exact (s : SimpleSlicer) (i : nat) : Q :=
  (F2Q (at_ (getBoundingBox s) 2) + inject_Z (Z.of_nat i) * F2Q (layerHeight s))%Q.

(** The layers follow the formula: [count] layers, layer [i] at a height
    that [height_ok i] accepts. *)
Definition layers_by_formula (count : Z) (height_ok : nat -> float -> Prop)
    (layers : list Layer) : Prop :=
  Z.of_nat (List.length layers) = count /\
  forall i l, nth_error layers i = Some l -> height_ok i (height l).

(** ** What [generateGCode] streams

    The loops of [generateGCode] thread the stream and the extrusion
    accumulator [e].  [*_out] gives, for each loop, the items it appends
    and the value of [e] it leaves. *)

Definition travel_items (height : float) (p0 : Vector3) : ostream :=
  [Str "G0 Z"; Dbl height; Str (" F1200" ++ LF);
   Str "G0 X"; Dbl p0.(Vector3.x); Str " Y"; Dbl p0.(Vector3.y); Str (" F3000" ++ LF)].

Definition move_items (p : Vector3) (e : float) : ostream :=
  [Str "G1 X"; Dbl p.(Vector3.x); Str " Y"; Dbl p.(Vector3.y);
   Str " E"; Dbl e; Str (" F1800" ++ LF)].

Definition layer_items (i : nat) (height : float) : ostream :=
  [Str "; Layer "; Size i; Str " at Z="; Dbl height; Str LF].

Definition trailer_items (lastLayer : Layer) : ostream :=
  [Str (LF ++ "G0 Z"); Dbl (lastLayer.(height) + 10); Str (" F1200" ++ LF);
   Str ("M84 ; Disable steppers" ++ LF)].

(** The items appended, and the state left, by a loop whose body appends
    [fst (step st x)] and leaves [snd (step st x)]. *)
Fixpoint run {X St : Type} (step : St -> X -> ostream * St) (st : St) (xs : list X)
  : ostream * St :=
  match xs with
  | [] => ([], st)
  | x :: rest =>
    let r1 := step st x in
    let r2 := run step (snd r1) rest in
    (fst r1 ++ fst r2, snd r2)
  end.

Definition move_out (e : float) (p : Vector3) : ostream * float :=
  (move_items p (e + 0.1), e + 0.1).

Definition contour_out (height : float) (e : float) (contour : list Vector3)
  : ostream * float :=
  match contour with
  | [] => ([], e)
  | c0 :: rest =>
    let r := run move_out e rest in
    (travel_items height c0 ++ fst r, snd r)
  end.

Definition infill_out (height : float) (e : float) (infillLine : list Vector3)
  : ostream * float :=
  match infillLine with
  | l0 :: l1 :: _ => (travel_items height l0 ++ move_items l1 (e + 0.05), e + 0.05)
  | _ => ([], e)
  end.

Definition layer_out (st : float * nat) (layer : Layer) : ostream * (float * nat) :=
  let '(e, i) := st in
  let r1 := run (contour_out layer.(height)) e layer.(contours) in
  let r2 := run (infill_out layer.(height)) (snd r1) layer.(infill) in
  (layer_items i layer.(height) ++ fst r1 ++ fst r2, (snd r2, S i)).

(** ** Reading the streams back *)

(** How many times the literal [key] was streamed. *)
Fixpoint count_str (key : string) (o : ostream) : nat :=
  match o with
  | [] => 0
  | Str k :: rest => (if String.eqb k key then 1 else 0) + count_str key rest
  | _ :: rest => count_str key rest
  end.

(** The [size_t] streamed right after the literal [key]. *)
Fixpoint size_after (key : string) (o : ostream) : option nat :=
  match o with
  | [] => None
  | Str k :: rest =>
    match rest with
    | Size n :: _ => if String.eqb k key then Some n else size_after key rest
    | _ => size_after key rest
    end
  | _ :: rest => size_after key rest
  end.

(** The [double]s streamed right after the literal [" E"]: the E words of
    the G-code, in order. *)
Fixpoint E_values (o : ostream) : list float :=
  match o with
  | [] => []
  | Str k :: rest =>
    match rest with
    | Dbl e :: _ => if String.eqb k " E" then e :: E_values rest else E_values rest
    | _ => E_values rest
    end
  | _ :: rest => E_values rest
  end.

(** The number of [; Layer i at Z=...] comment lines of a G-code stream. *)
Definition layer_comments (gcode : ostream) : nat := count_str "; Layer " gcode.

(** The value of the [totalLayers] key of a summary stream. *)
Definition totalLayers (json : ostream) : option nat :=
  size_after ("  " ++ DQ ++ "totalLayers" ++ DQ ++ ": ") json.

(** The stream does not begin with a [double]: appending it after another
    stream creates no new E word. *)
Definition no_lead_dbl (o : ostream) : Prop :=
  match o with
  | Dbl _ :: _ => False
  | _ => True
  end.

(** ** The extrusion accumulator *)

(** The values an accumulator takes when the increments are added to it one
    after the other, and the value it is left with. *)
Fixpoint running (e : float) (incs : list float) : list float :=
  match incs with
  | [] => []
  | d :: rest => (e + d) :: running (e + d) rest
  end.

Definition final (e : float) (incs : list float) : float := fold_left PrimFloat.add incs e.

(** The increments of a toolpath as the specification words them: 0.1 for
    each contour segment after the first point of a contour, 0.05 for each
    infill line that is emitted (one with two points at least), layer after
    layer, contours before infill. *)
Definition contour_increments (contour : list Vector3) : list float :=
  repeat 0.1 (List.length contour - 1).

Definition line_increments (infillLine : list Vector3) : list float :=
  match infillLine with
  | _ :: _ :: _ => [0.05]
  | _ => []
  end.

Definition layer_increments (layer : Layer) : list float :=
  flat_map contour_increments layer.(contours) ++ flat_map line_increments layer.(infill).

Definition increments (layers : list Layer) : list float := flat_map layer_increments layers.

Definition is_increment (d : float) : Prop := d = 0.1 \/ d = 0.05.

(** Strictly below, as the C++ [<] on [double]. *)
Definition float_lt (a b : float) : Prop := (a <? b) = true.

(** Below or equal, as the C++ [<=] on [double]. *)
Definition float_le (a b : float) : Prop := (a <=? b) = true.

(** ** Values of [double]s as integers

    Every finite [double] is a multiple of [2^-1074], the smallest positive
    one; counted in that unit its value is an integer. *)

(** The number of binary digits of a mantissa. *)
Abbreviation D p := (Zpos (digits2_pos p)).

(** The value of the positive finite float with mantissa [m] and exponent [e]. *)
Definition V (m : positive) (e : Z) : Z := (Zpos m * 2 ^ (e + 1074))%Z.

(** The value of a non-negative finite [double]. *)
Definition Vf (x : float) : Z :=
  match Prim2SF x with
  | S754_finite false m e => V m e
  | _ => 0%Z
  end.

(** [+0.0] or a positive finite [double]. *)
Definition accumulated (x : float) : Prop :=
  Prim2SF x = S754_zero false \/ exists m e, Prim2SF x = S754_finite false m e.

(** [+0.0], a positive finite [double] or [+infinity]. *)
Definition nonnegative (x : float) : Prop :=
  Prim2SF x = S754_zero false \/
  (exists m e, Prim2SF x = S754_finite false m e) \/
  Prim2SF x = S754_infinity false.

(** A positive finite [double]. *)
Definition positive_finite (d : float) : Prop :=
  exists m e, Prim2SF d = S754_finite false m e.

(** A positive finite [double] with a moderate exponent. *)
Definition small_positive (d : float) : Prop :=
  exists m e, Prim2SF d = S754_finite false m e /\ (e <= 800)%Z.

(** ** Tactics for the comparison of [spec_float]s *)

Ltac cmp_cases :=
  repeat match goal with
  | H : context [Pos.compare_cont Eq ?a ?b] |- _ =>
      change (Pos.compare_cont Eq a b) with (Pos.compare a b) in H
  | |- context [Pos.compare_cont Eq ?a ?b] =>
      change (Pos.compare_cont Eq a b) with (Pos.compare a b)
  end;
  repeat match goal with
  | H : context [Z.compare ?a ?b] |- _ => destruct (Z.compare_spec a b); simpl in H
  | |- context [Z.compare ?a ?b] => destruct (Z.compare_spec a b); simpl
  | H : context [Pos.compare ?a ?b] |- _ => destruct (Pos.compare_spec a b); simpl in H
  | |- context [Pos.compare ?a ?b] => destruct (Pos.compare_spec a b); simpl
  end;
  subst; try discriminate; try reflexivity; try lia.

Ltac sign_cases :=
  repeat match goal with s : bool |- _ => destruct s end; simpl.

(** ** The E words in the text *)

(** The E words as the text shows them: each E value as the stream prints
    it. *)
Definition E_words (gcode : ostream) : list (option string) :=
  map show_double_default (E_values gcode).

(** Whether a loop from [x] leaves at iteration [n] and not before, by
    running it. *)
Fixpoint leaves_at (n : nat) (x step bound : float) : bool :=
  match n with
  | O => negb (x <=? bound)
  | S n' => if x <=? bound then leaves_at n' (x + step) step bound else false
  end.

(** The cube cut once, with 200001 infill lines: [setLayerHeight(11)] and
    [setInfillDensity(4e6)]. *)
Definition dense_slicer : SimpleSlicer :=
  setInfillDensity 4e6 (setLayerHeight 11 cube_slicer).

Definition dense_lines : nat := N.to_nat 200001.

(** ** Coordinates that are not finite *)

(** An infinity or NaN: what [is_finite] rejects. *)
Definition SFnonfinite (a : spec_float) : Prop :=
  match a with
  | S754_nan | S754_infinity _ => True
  | _ => False
  end.

(** A zero of either sign, or NaN: the divisors that make every quotient
    non-finite. *)
Definition SFzero_or_nan (a : spec_float) : Prop :=
  match a with
  | S754_nan | S754_zero _ => True
  | _ => False
  end.

(** The first edge [v1-v2] or the second edge [v2-v3] is horizontal. *)
Definition horizontal_edge (tri : Triangle) : Prop :=
  tri.(v1).(Vector3.z) = tri.(v2).(Vector3.z) \/ tri.(v2).(Vector3.z) = tri.(v3).(Vector3.z).

(** [z] is the height of a horizontal first or second edge. *)
Definition on_horizontal_edge (tri : Triangle) (z : float) : Prop :=
  (tri.(v1).(Vector3.z) = tri.(v2).(Vector3.z) /\ z = tri.(v1).(Vector3.z)) \/
  (tri.(v2).(Vector3.z) = tri.(v3).(Vector3.z) /\ z = tri.(v2).(Vector3.z)).

Definition non_finite_xy (p : Vector3) : Prop :=
  is_finite p.(Vector3.x) = false /\ is_finite p.(Vector3.y) = false.

(** ** The vertices of a mesh *)

(** The vertices of a mesh, triangle after triangle. *)
Definition vertices (tris : list Triangle) : list Vector3 :=
  flat_map (fun tri => [tri.(v1); tri.(v2); tri.(v3)]) tris.

(** ** The shapes of a layer *)

(** The two shapes of a layer: nothing at all, or one non-empty contour
    (with at most one point per triangle of the mesh) and some infill. *)
Definition empty_layer (l : Layer) : Prop := contours l = [] /\ infill l = [].

Definition one_contour_layer (s : SimpleSlicer) (l : Layer) : Prop :=
  exists p ps, contours l = [p :: ps] /\
               (List.length (p :: ps) <= List.length (triangles s))%nat.

(** ** Equal numbers *)

(** A zero of either sign. *)
Definition SFzero (a : spec_float) : Prop :=
  match a with
  | S754_zero _ => True
  | _ => False
  end.

(** The same number: the same [double], or two zeros. *)
Definition same_number (a b : float) : Prop :=
  a = b \/ (SFzero (Prim2SF a) /\ SFzero (Prim2SF b)).

(** ** The numbers of a stream *)

(** The [double]s streamed, in order, and the [size_t]s streamed, in
    order. *)
Definition doubles (o : ostream) : list float :=
  flat_map (fun i => match i with Dbl d => [d] | _ => [] end) o.

Definition sizes (o : ostream) : list nat :=
  flat_map (fun i => match i with Size n => [n] | _ => [] end) o.

(** The two counts [getLayerInfo] reports for a layer. *)
Definition layer_counts (l : Layer) : list nat :=
  [List.length l.(contours); List.length l.(infill)].

(** ** The moves of a G-code stream *)

(** The extrusion moves ([G1 X.. Y.. E..]) and the travel moves to the
    start of a toolpath ([G0 X.. Y..]) of a G-code stream. *)
Definition extrusion_moves (gcode : ostream) : nat := count_str "G1 X" gcode.

Definition travel_moves (gcode : ostream) : nat := count_str "G0 X" gcode.

(** The toolpaths of a layer: its contours and its infill lines. *)
Definition toolpaths (l : Layer) : nat := (List.length l.(contours) + List.length l.(infill))%nat.

(** The segments of a layer: one per contour point after the first, one
    per infill line. *)
Definition segments (l : Layer) : nat :=
  (list_sum (map (fun contour => List.length contour - 1) l.(contours)) + List.length l.(infill))%nat.

(** * Properties *)

(** ** The order of binary64

    [<=?] and [<?] are the IEEE comparisons: false as soon as an operand is
    NaN, and a total preorder on the other values (infinities included, the
    two zeros equal).  Everything is derived from [SFcompare]. *)

Module FloatOrder.

Lemma SFleb_trans (a b c : spec_float) :
  SFleb a b = true -> SFleb b c = true -> SFleb a c = true.
Proof.
  unfold SFleb.
  destruct a as [sa|sa| |sa ma ea], b as [sb|sb| |sb mb eb], c as [sc|sc| |sc mc ec];
    simpl; try discriminate; try reflexivity; sign_cases;
    try discriminate; try reflexivity; intros H1 H2; cmp_cases.
Qed.

Lemma SFltb_SFleb (a b : spec_float) :
  a <> S754_nan -> b <> S754_nan -> SFltb a b = negb (SFleb b a).
Proof.
  unfold SFleb, SFltb.
  destruct a as [sa|sa| |sa ma ea], b as [sb|sb| |sb mb eb];
    simpl; try congruence; intros _ _; sign_cases; auto; cmp_cases.
Qed.

Lemma SFleb_refl (a : spec_float) : a <> S754_nan -> SFleb a a = true.
Proof.
  unfold SFleb.
  destruct a as [sa|sa| |sa ma ea]; simpl; try congruence; intros _;
    sign_cases; auto; cmp_cases.
Qed.

Lemma SFleb_not_nan (a b : spec_float) :
  SFleb a b = true -> a <> S754_nan /\ b <> S754_nan.
Proof.
  unfold SFleb. destruct a, b; simpl; try discriminate; intros; split; congruence.
Qed.

Lemma is_nan_spec (a : float) : is_nan a = false <-> Prim2SF a <> S754_nan.
Proof.
  unfold is_nan. rewrite FloatAxioms.eqb_spec. unfold SFeqb.
  destruct (Prim2SF a) as [s|s| |s m e]; simpl; sign_cases;
    try rewrite Z.compare_refl;
    try (change (Pos.compare_cont Eq m m) with (Pos.compare m m); rewrite Pos.compare_refl);
    simpl; split; congruence.
Qed.

Lemma leb_refl (a : float) : is_nan a = false -> (a <=? a) = true.
Proof. rewrite is_nan_spec, leb_spec. apply SFleb_refl. Qed.

Lemma leb_trans (a b c : float) :
  (a <=? b) = true -> (b <=? c) = true -> (a <=? c) = true.
Proof. rewrite !leb_spec. apply SFleb_trans. Qed.

Lemma leb_not_nan (a b : float) :
  (a <=? b) = true -> is_nan a = false /\ is_nan b = false.
Proof. rewrite leb_spec, !is_nan_spec. apply SFleb_not_nan. Qed.

Lemma ltb_negb_leb (a b : float) :
  is_nan a = false -> is_nan b = false -> (a <? b) = negb (b <=? a).
Proof. rewrite !is_nan_spec, ltb_spec, leb_spec. apply SFltb_SFleb. Qed.

Lemma leb_total (a b : float) :
  is_nan a = false -> is_nan b = false -> (a <=? b) = true \/ (b <=? a) = true.
Proof.
  intros Ha Hb. destruct (b <=? a) eqn:E; [now right | left].
  pose proof (ltb_negb_leb a b Ha Hb) as H. rewrite E in H. simpl in H.
  rewrite ltb_spec in H. rewrite leb_spec. unfold SFltb in H. unfold SFleb.
  destruct (SFcompare (Prim2SF a) (Prim2SF b)) as [[ | | ]|]; congruence.
Qed.

Lemma ltb_leb (a b : float) : (a <? b) = true -> (a <=? b) = true.
Proof.
  rewrite ltb_spec, leb_spec. unfold SFltb, SFleb.
  destruct (SFcompare (Prim2SF a) (Prim2SF b)) as [[ | | ]|]; congruence.
Qed.

(** [std::min] and [std::max] on numbers. *)

Lemma std_min_cases (a b : float) : std_min a b = a \/ std_min a b = b.
Proof. unfold std_min. destruct (b <? a); auto. Qed.

Lemma std_max_cases (a b : float) : std_max a b = a \/ std_max a b = b.
Proof. unfold std_max. destruct (a <? b); auto. Qed.

Lemma std_min_not_nan (a b : float) :
  is_nan a = false -> is_nan b = false -> is_nan (std_min a b) = false.
Proof. intros. destruct (std_min_cases a b) as [-> | ->]; assumption. Qed.

Lemma std_max_not_nan (a b : float) :
  is_nan a = false -> is_nan b = false -> is_nan (std_max a b) = false.
Proof. intros. destruct (std_max_cases a b) as [-> | ->]; assumption. Qed.

Lemma std_min_le (a b : float) :
  is_nan a = false -> is_nan b = false ->
  (std_min a b <=? a) = true /\ (std_min a b <=? b) = true.
Proof.
  intros Ha Hb. unfold std_min. destruct (b <? a) eqn:E.
  - split; [now apply ltb_leb | now apply leb_refl].
  - rewrite (ltb_negb_leb b a Hb Ha) in E. apply negb_false_iff in E.
    split; [now apply leb_refl | exact E].
Qed.

Lemma std_max_ge (a b : float) :
  is_nan a = false -> is_nan b = false ->
  (a <=? std_max a b) = true /\ (b <=? std_max a b) = true.
Proof.
  intros Ha Hb. unfold std_max. destruct (a <? b) eqn:E.
  - split; [now apply ltb_leb | now apply leb_refl].
  - rewrite (ltb_negb_leb a b Ha Hb) in E. apply negb_false_iff in E.
    split; [now apply leb_refl | exact E].
Qed.

End FloatOrder.

(** ** The meshes the program holds *)

Lemma num_mesh_cube : num_mesh cube_triangles.
Proof. unfold num_mesh, cube_triangles. repeat constructor. Qed.

Lemma num_heights_cube : Forall num_heights cube_triangles.
Proof.
  unfold cube_triangles. cbv zeta.
  repeat first [apply Forall_nil | apply Forall_cons]; repeat split.
Qed.

(** [triangles] is either empty or the cube: never a NaN in it. *)
Lemma reachable_triangles (s : SimpleSlicer) :
  reachable s -> triangles s = [] \/ triangles s = cube_triangles.
Proof. induction 1; simpl; auto. Qed.

Lemma reachable_num_mesh (s : SimpleSlicer) : reachable s -> num_mesh (triangles s).
Proof.
  intros H. destruct (reachable_triangles s H) as [-> | ->];
    [constructor | exact num_mesh_cube].
Qed.

(** ** The bounding box, axis by axis *)

Module BoundingBox.
Import FloatOrder.

(** The six accumulators of the loop evolve independently. *)
Lemma fold_bbox_step (tris : list Triangle) (a b c d e f : float) :
  fold_left bbox_step tris (a, b, c, d, e, f) =
  (fold_left (tri_min Vector3.x) tris a, fold_left (tri_max Vector3.x) tris b,
   fold_left (tri_min Vector3.y) tris c, fold_left (tri_max Vector3.y) tris d,
   fold_left (tri_min Vector3.z) tris e, fold_left (tri_max Vector3.z) tris f).
Proof.
  revert a b c d e f. induction tris as [|tri tris IH]; intros; [reflexivity|].
  simpl. apply IH.
Qed.

Lemma getBoundingBox_cons (s : SimpleSlicer) (t0 : Triangle) (rest : list Triangle) :
  triangles s = t0 :: rest ->
  getBoundingBox s =
  [ fold_left (tri_min Vector3.x) (t0 :: rest) t0.(v1).(Vector3.x);
    fold_left (tri_min Vector3.y) (t0 :: rest) t0.(v1).(Vector3.y);
    fold_left (tri_min Vector3.z) (t0 :: rest) t0.(v1).(Vector3.z);
    fold_left (tri_max Vector3.x) (t0 :: rest) t0.(v1).(Vector3.x);
    fold_left (tri_max Vector3.y) (t0 :: rest) t0.(v1).(Vector3.y);
    fold_left (tri_max Vector3.z) (t0 :: rest) t0.(v1).(Vector3.z) ].
Proof.
  intros E. unfold getBoundingBox. rewrite E. cbv zeta.
  rewrite fold_bbox_step. reflexivity.
Qed.

Section Axis.
Variable g : Vector3 -> float.

Lemma tri_min_le (m : float) (tri : Triangle) :
  is_nan m = false -> num_on g tri ->
  is_nan (tri_min g m tri) = false /\ (tri_min g m tri <=? m) = true /\ below g (tri_min g m tri) tri.
Proof.
  intros Hm (H1 & H2 & H3). unfold tri_min, below.
  set (c := std_min (g (v2 tri)) (g (v3 tri))).
  set (b := std_min (g (v1 tri)) c).
  assert (Hc : is_nan c = false) by now apply std_min_not_nan.
  assert (Hb : is_nan b = false) by now apply std_min_not_nan.
  destruct (std_min_le m b Hm Hb) as [Lm Lb].
  destruct (std_min_le (g (v1 tri)) c H1 Hc) as [L1 Lc].
  destruct (std_min_le (g (v2 tri)) (g (v3 tri)) H2 H3) as [L2 L3].
  fold c in L2, L3. fold b in L1, Lc.
  repeat split; try assumption.
  - now apply std_min_not_nan.
  - eapply leb_trans; eassumption.
  - eapply leb_trans; [eassumption|]. eapply leb_trans; eassumption.
  - eapply leb_trans; [eassumption|]. eapply leb_trans; eassumption.
Qed.

Lemma tri_max_ge (m : float) (tri : Triangle) :
  is_nan m = false -> num_on g tri ->
  is_nan (tri_max g m tri) = false /\ (m <=? tri_max g m tri) = true /\ above g (tri_max g m tri) tri.
Proof.
  intros Hm (H1 & H2 & H3). unfold tri_max, above.
  set (c := std_max (g (v2 tri)) (g (v3 tri))).
  set (b := std_max (g (v1 tri)) c).
  assert (Hc : is_nan c = false) by now apply std_max_not_nan.
  assert (Hb : is_nan b = false) by now apply std_max_not_nan.
  destruct (std_max_ge m b Hm Hb) as [Lm Lb].
  destruct (std_max_ge (g (v1 tri)) c H1 Hc) as [L1 Lc].
  destruct (std_max_ge (g (v2 tri)) (g (v3 tri)) H2 H3) as [L2 L3].
  fold c in L2, L3. fold b in L1, Lc.
  repeat split; try assumption.
  - now apply std_max_not_nan.
  - eapply leb_trans; eassumption.
  - eapply leb_trans; [|eassumption]. eapply leb_trans; eassumption.
  - eapply leb_trans; [|eassumption]. eapply leb_trans; eassumption.
Qed.

(** The running minimum ends below its start and below every vertex seen. *)
Lemma fold_min_below (tris : list Triangle) (m : float) :
  is_nan m = false -> Forall (num_on g) tris ->
  let r := fold_left (tri_min g) tris m in
  is_nan r = false /\ (r <=? m) = true /\ Forall (below g r) tris.
Proof.
  revert m. induction tris as [|tri tris IH]; intros m Hm Hall; simpl.
  - repeat split; [assumption | now apply leb_refl | constructor].
  - inversion Hall as [|? ? Htri Hrest]; subst.
    destruct (tri_min_le m tri Hm Htri) as (Hn & Hle & Hb).
    destruct (IH _ Hn Hrest) as (Hr & Hrm & Hbelow).
    repeat split; [assumption | eapply leb_trans; eassumption |].
    constructor; [|assumption].
    destruct Hb as (B1 & B2 & B3).
    repeat split; eapply leb_trans; eassumption.
Qed.

Lemma fold_max_above (tris : list Triangle) (m : float) :
  is_nan m = false -> Forall (num_on g) tris ->
  let r := fold_left (tri_max g) tris m in
  is_nan r = false /\ (m <=? r) = true /\ Forall (above g r) tris.
Proof.
  revert m. induction tris as [|tri tris IH]; intros m Hm Hall; simpl.
  - repeat split; [assumption | now apply leb_refl | constructor].
  - inversion Hall as [|? ? Htri Hrest]; subst.
    destruct (tri_max_ge m tri Hm Htri) as (Hn & Hle & Hb).
    destruct (IH _ Hn Hrest) as (Hr & Hrm & Habove).
    repeat split; [assumption | eapply leb_trans; eassumption |].
    constructor; [|assumption].
    destruct Hb as (B1 & B2 & B3).
    repeat split; eapply leb_trans; eassumption.
Qed.
(** Along one axis: the final minimum is below the final maximum, and
    every vertex lies between them. *)
Lemma axis_bounds (t0 : Triangle) (rest : list Triangle) :
  Forall (num_on g) (t0 :: rest) ->
  let lo := fold_left (tri_min g) (t0 :: rest) (g t0.(v1)) in
  let hi := fold_left (tri_max g) (t0 :: rest) (g t0.(v1)) in
  (lo <=? hi) = true /\
  forall tri, In tri (t0 :: rest) -> below g lo tri /\ above g hi tri.
Proof.
  intros Hnum lo hi.
  assert (H0 : is_nan (g t0.(v1)) = false) by (inversion Hnum as [|? ? [? _] _]; assumption).
  destruct (fold_min_below (t0 :: rest) _ H0 Hnum) as (_ & Hlo & Hbelow).
  destruct (fold_max_above (t0 :: rest) _ H0 Hnum) as (_ & Hhi & Habove).
  split; [eapply leb_trans; eassumption|].
  rewrite Forall_forall in Hbelow, Habove.
  intros tri Hin. split; [now apply Hbelow | now apply Habove].
Qed.

End Axis.

Lemma num_mesh_on_x (tris : list Triangle) : num_mesh tris -> Forall (num_on Vector3.x) tris.
Proof. apply Forall_impl. intros tri ((?&?&?)&(?&?&?)&(?&?&?)). now repeat split. Qed.

Lemma num_mesh_on_y (tris : list Triangle) : num_mesh tris -> Forall (num_on Vector3.y) tris.
Proof. apply Forall_impl. intros tri ((?&?&?)&(?&?&?)&(?&?&?)). now repeat split. Qed.

Lemma num_mesh_on_z (tris : list Triangle) : num_mesh tris -> Forall (num_on Vector3.z) tris.
Proof. apply Forall_impl. intros tri ((?&?&?)&(?&?&?)&(?&?&?)). now repeat split. Qed.

End BoundingBox.

(** C5.  For every mesh of numbers, [getBoundingBox] returns six scalars
    [minX, minY, minZ, maxX, maxY, maxZ] with min <= max on each axis, and
    every vertex of every triangle lies inside the box; for a mesh with no
    triangles it returns exactly six zeros. *)
Theorem getBoundingBox_covers (s : SimpleSlicer) :
  num_mesh (triangles s) ->
  let bbox := getBoundingBox s in
  List.length bbox = 6%nat /\
  (at_ bbox 0 <=? at_ bbox 3) = true /\
  (at_ bbox 1 <=? at_ bbox 4) = true /\
  (at_ bbox 2 <=? at_ bbox 5) = true /\
  (forall tri, In tri (triangles s) ->
     covers bbox tri.(v1) /\ covers bbox tri.(v2) /\ covers bbox tri.(v3)) /\
  (triangles s = [] -> bbox = [0; 0; 0; 0; 0; 0]).
Proof.
  intros Hnum. cbv zeta.
  destruct (triangles s) as [|t0 rest] eqn:E.
  - unfold getBoundingBox. rewrite E.
    repeat split; try reflexivity; contradiction.
  - rewrite (BoundingBox.getBoundingBox_cons s t0 rest E).
    destruct (BoundingBox.axis_bounds Vector3.x t0 rest
                (BoundingBox.num_mesh_on_x _ Hnum)) as (Ox & Bx).
    destruct (BoundingBox.axis_bounds Vector3.y t0 rest
                (BoundingBox.num_mesh_on_y _ Hnum)) as (Oy & By).
    destruct (BoundingBox.axis_bounds Vector3.z t0 rest
                (BoundingBox.num_mesh_on_z _ Hnum)) as (Oz & Bz).
    unfold at_, nth.
    split; [reflexivity|]. split; [exact Ox|]. split; [exact Oy|]. split; [exact Oz|].
    split; [|discriminate].
    intros tri Hin. unfold covers, at_, nth.
    destruct (Bx tri Hin) as ((?&?&?)&(?&?&?)), (By tri Hin) as ((?&?&?)&(?&?&?)),
             (Bz tri Hin) as ((?&?&?)&(?&?&?)).
    repeat split; assumption.
Qed.

(** The bounding box of the built-in cube, by the theorem above. *)
Lemma getBoundingBox_covers_cube :
  num_mesh (triangles cube_slicer) /\
  (at_ (getBoundingBox cube_slicer) 2 <=? at_ (getBoundingBox cube_slicer) 5) = true.
Proof.
  split.
  - exact num_mesh_cube.
  - exact (proj1 (proj2 (proj2 (proj2 (getBoundingBox_covers cube_slicer num_mesh_cube))))).
Defined.

(** C9.  Whatever the input string, [parseSTL] returns [true] and installs
    the fixed cube: twelve triangles whose vertices have every coordinate
    equal to -5 or 5 (side 10, centred at the origin); the configuration is
    kept, and [getBoundingBox] then returns exactly [-5, -5, -5, 5, 5, 5]. *)
Theorem parseSTL_installs_cube (stlData : string) (s : SimpleSlicer) :
  fst (parseSTL stlData s) = true /\
  triangles (snd (parseSTL stlData s)) = cube_triangles /\
  layerHeight (snd (parseSTL stlData s)) = layerHeight s /\
  infillDensity (snd (parseSTL stlData s)) = infillDensity s /\
  List.length cube_triangles = 12%nat /\
  Forall (fun tri =>
            Forall (fun p =>
                      Forall (fun c => c = -5 \/ c = 5)
                             [p.(Vector3.x); p.(Vector3.y); p.(Vector3.z)])
                   [tri.(v1); tri.(v2); tri.(v3)])
         cube_triangles /\
  getBoundingBox (snd (parseSTL stlData s)) = [-5; -5; -5; 5; 5; 5].
Proof.
  repeat split.
  unfold cube_triangles. cbv zeta.
  repeat first [apply Forall_nil | apply Forall_cons];
    first [left; reflexivity | right; reflexivity].
Qed.

(** ** The triangle scan *)

(** Against NaN every comparison fails; two numbers compare one way or the
    other. *)
Lemma leb_nan_r (a z : float) : is_nan z = true -> (a <=? z) = false /\ (z <=? a) = false.
Proof.
  intros Hz. split.
  - destruct (a <=? z) eqn:E; [|reflexivity].
    apply FloatOrder.leb_not_nan in E. destruct E; congruence.
  - destruct (z <=? a) eqn:E; [|reflexivity].
    apply FloatOrder.leb_not_nan in E. destruct E; congruence.
Qed.

Lemma leb_either (a z : float) :
  is_nan a = false -> is_nan z = false -> (a <=? z) || (z <=? a) = true.
Proof.
  intros Ha Hz. destruct (FloatOrder.leb_total a z Ha Hz) as [-> | ->];
    [reflexivity | apply orb_true_r].
Qed.

(** The scan tests one orientation per edge, going round the triangle;
    on numbers this accepts exactly the triangles with a bracketing edge. *)
Lemma candidate_edge_brackets (tri : Triangle) (z : float) :
  num_heights tri -> candidate tri z = edge_brackets tri z.
Proof.
  intros (H1 & H2 & H3). unfold candidate, edge_brackets, brackets.
  destruct (is_nan z) eqn:Hz.
  - destruct (leb_nan_r (Vector3.z (v1 tri)) z Hz) as [-> ->].
    destruct (leb_nan_r (Vector3.z (v2 tri)) z Hz) as [-> ->].
    destruct (leb_nan_r (Vector3.z (v3 tri)) z Hz) as [-> ->].
    reflexivity.
  - pose proof (leb_either _ z H1 Hz) as D1.
    pose proof (leb_either _ z H2 Hz) as D2.
    pose proof (leb_either _ z H3 Hz) as D3.
    revert D1 D2 D3. clear H1 H2 H3 Hz.
    destruct (Vector3.z (v1 tri) <=? z), (z <=? Vector3.z (v1 tri)),
             (Vector3.z (v2 tri) <=? z), (z <=? Vector3.z (v2 tri)),
             (Vector3.z (v3 tri) <=? z), (z <=? Vector3.z (v3 tri));
      simpl; intros D1 D2 D3; try reflexivity; discriminate.
Qed.

Lemma scan_acc (tris : list Triangle) (z : float) (acc : list Vector3) :
  fold_left (fun intersections tri =>
               if candidate tri z
               then intersections ++ [calculateIntersection tri z]
               else intersections) tris acc =
  acc ++ map (fun tri => calculateIntersection tri z)
             (filter (fun tri => candidate tri z) tris).
Proof.
  revert acc. induction tris as [|tri tris IH]; intros acc; simpl.
  - now rewrite app_nil_r.
  - rewrite IH. destruct (candidate tri z); simpl; [|reflexivity].
    now rewrite <- app_assoc.
Qed.

Lemma scan_filter (tris : list Triangle) (z : float) :
  scan tris z = map (fun tri => calculateIntersection tri z)
                    (filter (fun tri => candidate tri z) tris).
Proof. unfold scan. now rewrite scan_acc. Qed.

(** C2.  For triangles whose vertex heights are numbers, and every plane
    height [z]: the scan treats a triangle as a candidate exactly when one
    of its edges v1-v2, v2-v3, v3-v1 brackets [z] inclusively in either
    orientation, and the contour points are the intersection points of
    exactly those triangles, one each, in scan order. *)
Theorem scan_candidates (tris : list Triangle) (z : float) :
  Forall num_heights tris ->
  (forall tri, In tri tris -> candidate tri z = edge_brackets tri z) /\
  scan tris z = map (fun tri => calculateIntersection tri z)
                    (filter (fun tri => edge_brackets tri z) tris).
Proof.
  intros Hnum. rewrite Forall_forall in Hnum. split.
  - intros tri Hin. apply candidate_edge_brackets. now apply Hnum.
  - rewrite scan_filter. f_equal. apply filter_ext_in.
    intros tri Hin. apply candidate_edge_brackets. now apply Hnum.
Qed.

(** The theorem at the cube and the plane [z = -3]. *)
Lemma scan_candidates_cube :
  Forall num_heights cube_triangles /\
  scan cube_triangles (-3) =
  map (fun tri => calculateIntersection tri (-3))
      (filter (fun tri => edge_brackets tri (-3)) cube_triangles).
Proof.
  split.
  - exact num_heights_cube.
  - exact (proj2 (scan_candidates cube_triangles (-3) num_heights_cube)).
Defined.

(** ** When a loop over a [double] leaves *)

Lemma plane_shift (start step : float) (i : nat) :
  plane start step (S i) = plane (start + step) step i.
Proof. exact (Nat.iter_succ_r i float (fun v => v + step) start). Qed.

(** A step too small to change the value never moves it. *)
Lemma plane_fixed (start step : float) (n : nat) :
  start + step = start -> plane start step n = start.
Proof.
  intros H. induction n as [|n IH]; [reflexivity|].
  now rewrite plane_shift, H.
Qed.

Lemma stops_O (start step bound : float) :
  (start <=? bound) = false -> stops start step bound 0.
Proof. intros H. split; [intros i Hi; lia | exact H]. Qed.

Lemma stops_S (start step bound : float) (n : nat) :
  (start <=? bound) = true -> stops (start + step) step bound n ->
  stops start step bound (S n).
Proof.
  intros H0 [Hlt Hn]. split.
  - intros [|i] Hi; [exact H0|]. rewrite plane_shift. apply Hlt. lia.
  - rewrite plane_shift. exact Hn.
Qed.

Lemma stops_inv (start step bound : float) (n : nat) :
  stops start step bound n ->
  match n with
  | O => (start <=? bound) = false
  | S n' => (start <=? bound) = true /\ stops (start + step) step bound n'
  end.
Proof.
  intros [Hlt Hn]. destruct n as [|n'].
  - exact Hn.
  - split; [apply (Hlt 0%nat); lia|]. split.
    + intros i Hi. rewrite <- plane_shift. apply Hlt. lia.
    + rewrite <- plane_shift. exact Hn.
Qed.

Lemma stops_unique (start step bound : float) (n n' : nat) :
  stops start step bound n -> stops start step bound n' -> n = n'.
Proof.
  intros [H1 F1] [H2 F2].
  destruct (Nat.lt_trichotomy n n') as [L | [E | L]]; [|exact E|].
  - specialize (H2 n L). congruence.
  - specialize (H1 n' L). congruence.
Qed.

Module ForLoop.
Section Generic.
Context {A : Type}.
Variables (bound step : float).
(** The loop body, given the fuel that is left and the loop variable. *)
Variable body : nat -> float -> outcome A.

Lemma for_loop_returns (fuel : nat) : forall (x : float) (acc r : list A),
  for_loop bound step body fuel x acc = Returns r ->
  exists (n : nat) (items : list A),
    (n < fuel)%nat /\ stops x step bound n /\ r = acc ++ items /\
    List.length items = n /\
    forall i a, nth_error items i = Some a ->
                exists f, (f < fuel)%nat /\ body f (plane x step i) = Returns a.
Proof.
  induction fuel as [|fuel IH]; intros x acc r H; simpl in H; [discriminate|].
  destruct (x <=? bound) eqn:Hx.
  - destruct (body fuel x) as [a| |] eqn:Hb; simpl in H; try discriminate.
    destruct (IH _ _ _ H) as (n & items & Hn & Hstop & -> & Hlen & Hnth).
    exists (S n), (a :: items). repeat split.
    + lia.
    + intros [|i] Hi; [exact Hx|]. rewrite plane_shift. apply Hstop. lia.
    + rewrite plane_shift. apply Hstop.
    + now rewrite <- app_assoc.
    + simpl. now rewrite Hlen.
    + intros [|i] a' Hi; simpl in Hi.
      * injection Hi as <-. exists fuel. split; [lia | exact Hb].
      * destruct (Hnth i a' Hi) as (f & Hf & Hbf).
        exists f. split; [lia|]. now rewrite plane_shift.
  - injection H as <-. exists 0%nat, []. repeat split.
    + lia.
    + intros i Hi; lia.
    + exact Hx.
    + now rewrite app_nil_r.
    + intros [|i] a Hi; discriminate.
Qed.

Lemma for_loop_stops (g : float -> A) (m : nat) : forall (n fuel : nat) (x : float) (acc : list A),
  stops x step bound n ->
  (forall i f, (i < n)%nat -> (m <= f)%nat ->
               body f (plane x step i) = Returns (g (plane x step i))) ->
  (n + m < fuel)%nat ->
  for_loop bound step body fuel x acc = Returns (acc ++ map (fun i => g (plane x step i)) (seq 0 n)).
Proof.
  induction n as [|n IH]; intros fuel x acc Hstop Hbody Hfuel;
    (destruct fuel as [|fuel]; [lia|]); apply stops_inv in Hstop; simpl.
  - rewrite Hstop. now rewrite app_nil_r.
  - destruct Hstop as [Hx Hstop]. rewrite Hx.
    assert (H0 : body fuel x = Returns (g x)) by (apply (Hbody 0%nat fuel); lia).
    rewrite H0. simpl.
    rewrite (IH fuel (x + step) (acc ++ [g x])); [| assumption | | lia].
    + rewrite <- app_assoc. simpl. do 2 f_equal.
      rewrite <- seq_shift, map_map. f_equal.
      apply map_ext. intros i. now rewrite plane_shift.
    + intros i f Hi Hf. rewrite <- plane_shift. apply Hbody; lia.
Qed.

Lemma for_loop_not_undefined (fuel : nat) : forall (x : float) (acc : list A),
  (forall f y, body f y <> Undefined) -> for_loop bound step body fuel x acc <> Undefined.
Proof.
  induction fuel as [|fuel IH]; intros x acc Hb; simpl; [discriminate|].
  destruct (x <=? bound); [|discriminate].
  destruct (body fuel x) as [a| |] eqn:E; simpl; [now apply IH | discriminate |].
  now apply Hb in E.
Qed.

End Generic.
End ForLoop.

(** ** The infill loop *)

Lemma generateInfill_loop_for (minY maxY maxX step z : float) (fuel : nat) :
  forall (x : float) (acc : list (list Vector3)),
  generateInfill_loop fuel minY maxY maxX step z x acc =
  for_loop maxX step (fun _ x => Returns (infill_line minY maxY z x)) fuel x acc.
Proof.
  induction fuel as [|fuel IH]; intros x acc; simpl; [reflexivity|].
  destruct (x <=? maxX); [|reflexivity]. simpl. apply IH.
Qed.

Lemma generateInfill_stops (s : SimpleSlicer) (m fuel : nat) (contour : list Vector3) (z : float) :
  infill_stops s m -> (m < fuel)%nat ->
  generateInfill fuel s contour z =
  Returns (infill_lines (getBoundingBox s) (infillDensity s) z m).
Proof.
  intros Hstop Hfuel. unfold generateInfill. cbv zeta.
  rewrite generateInfill_loop_for.
  rewrite (ForLoop.for_loop_stops _ _ _
             (infill_line (at_ (getBoundingBox s) 1) (at_ (getBoundingBox s) 4) z) 0 m);
    [reflexivity | exact Hstop | reflexivity | lia].
Qed.

Lemma generateInfill_returns (s : SimpleSlicer) (fuel : nat) (contour : list Vector3) (z : float)
    (lines : list (list Vector3)) :
  generateInfill fuel s contour z = Returns lines ->
  exists m, (m < fuel)%nat /\ infill_stops s m /\
            lines = infill_lines (getBoundingBox s) (infillDensity s) z m.
Proof.
  unfold generateInfill. cbv zeta. rewrite generateInfill_loop_for. intros H.
  apply ForLoop.for_loop_returns in H.
  destruct H as (m & items & Hm & Hstop & -> & Hlen & Hnth).
  exists m. split; [exact Hm|]. split; [exact Hstop|]. simpl.
  apply nth_error_ext. intros i. unfold infill_lines.
  rewrite nth_error_map, nth_error_seq.
  destruct (nth_error items i) as [a|] eqn:E.
  - assert (Hi : (i < m)%nat) by (rewrite <- Hlen; apply nth_error_Some; congruence).
    apply Nat.ltb_lt in Hi. rewrite Hi. simpl.
    destruct (Hnth i a E) as (f & _ & Hf). injection Hf as <-. reflexivity.
  - apply nth_error_None in E. rewrite Hlen in E.
    apply Nat.ltb_ge in E. now rewrite E.
Qed.

Lemma generateInfill_not_undefined (s : SimpleSlicer) (fuel : nat) (contour : list Vector3)
    (z : float) :
  generateInfill fuel s contour z <> Undefined.
Proof.
  unfold generateInfill. cbv zeta. rewrite generateInfill_loop_for.
  apply ForLoop.for_loop_not_undefined. discriminate.
Qed.

(** ** The slicing loop *)

Lemma slice_loop_for (s : SimpleSlicer) (maxZ : float) (fuel : nat) :
  forall (z : float) (layers : list Layer),
  slice_loop fuel s maxZ z layers =
  for_loop maxZ (layerHeight s) (slice_body s) fuel z layers.
Proof.
  induction fuel as [|fuel IH]; intros z layers; simpl; [reflexivity|].
  destruct (z <=? maxZ); [|reflexivity].
  unfold slice_body. destruct (scan (triangles s) z) as [|p ps].
  - simpl. apply IH.
  - destruct (generateInfill fuel s (p :: ps) z); simpl; try reflexivity. apply IH.
Qed.

Lemma slice_body_returns (s : SimpleSlicer) (fuel : nat) (z : float) (l : Layer) :
  slice_body s fuel z = Returns l ->
  exists m, l = layer_at s m z /\ (scan (triangles s) z <> [] -> infill_stops s m).
Proof.
  unfold slice_body, layer_at. destruct (scan (triangles s) z) as [|p ps].
  - intros H. injection H as <-. exists 0%nat. split; [reflexivity | congruence].
  - destruct (generateInfill fuel s (p :: ps) z) as [lines| |] eqn:E; simpl; try discriminate.
    intros H. injection H as <-.
    destruct (generateInfill_returns _ _ _ _ _ E) as (m & _ & Hm & ->).
    exists m. split; [reflexivity | intros _; exact Hm].
Qed.

Lemma slice_body_stops (s : SimpleSlicer) (m fuel : nat) (z : float) :
  (scan (triangles s) z <> [] -> infill_stops s m) -> (m < fuel)%nat ->
  slice_body s fuel z = Returns (layer_at s m z).
Proof.
  unfold slice_body, layer_at. intros H Hf. destruct (scan (triangles s) z) as [|p ps].
  - reflexivity.
  - rewrite (generateInfill_stops s m fuel); [reflexivity | | exact Hf].
    apply H. discriminate.
Qed.

Lemma slice_body_not_undefined (s : SimpleSlicer) (fuel : nat) (z : float) :
  slice_body s fuel z <> Undefined.
Proof.
  unfold slice_body. destruct (scan (triangles s) z) as [|p ps]; [discriminate|].
  destruct (generateInfill fuel s (p :: ps) z) eqn:E; simpl; try discriminate.
  now apply generateInfill_not_undefined in E.
Qed.

(** If the loops leave, [slice] returns, and returns these layers. *)
Lemma slice_stops (s : SimpleSlicer) (n m fuel : nat) :
  heights_stop s n -> infill_stops_if_called s n m -> (n + m + 1 < fuel)%nat ->
  slice fuel s = Returns (map (fun i => layer_at s m (layer_height s i)) (seq 0 n)).
Proof.
  intros Hn Hm Hfuel. unfold slice. cbv zeta. rewrite slice_loop_for.
  rewrite (ForLoop.for_loop_stops _ _ _ (layer_at s m) (S m) n);
    [reflexivity | exact Hn | | lia].
  intros i f Hi Hf. apply slice_body_stops; [|lia]. now apply Hm.
Qed.

(** Whatever [slice] returns has this shape. *)
Lemma slice_returns (s : SimpleSlicer) (fuel : nat) (layers : list Layer) :
  slice fuel s = Returns layers ->
  heights_stop s (List.length layers) /\
  forall i l, nth_error layers i = Some l ->
              exists m, l = layer_at s m (layer_height s i) /\
                        (scan (triangles s) (layer_height s i) <> [] -> infill_stops s m).
Proof.
  unfold slice. cbv zeta. rewrite slice_loop_for. intros H.
  apply ForLoop.for_loop_returns in H.
  destruct H as (n & items & _ & Hstop & -> & Hlen & Hnth). simpl.
  split; [now rewrite Hlen|].
  intros i l Hi. destruct (Hnth i l Hi) as (f & _ & Hf).
  now apply slice_body_returns in Hf.
Qed.

Lemma slice_not_undefined (s : SimpleSlicer) (fuel : nat) : slice fuel s <> Undefined.
Proof.
  unfold slice. cbv zeta. rewrite slice_loop_for.
  apply ForLoop.for_loop_not_undefined. intros f y. apply slice_body_not_undefined.
Qed.

(** The result does not depend on the fuel, once there is enough. *)
Lemma slice_fuel_irrelevant (s : SimpleSlicer) (f1 f2 : nat) (l1 l2 : list Layer) :
  slice f1 s = Returns l1 -> slice f2 s = Returns l2 -> l1 = l2.
Proof.
  intros H1 H2.
  destruct (slice_returns _ _ _ H1) as [S1 N1].
  destruct (slice_returns _ _ _ H2) as [S2 N2].
  pose proof (stops_unique _ _ _ _ _ S1 S2) as Hlen.
  apply nth_error_ext. intros i.
  destruct (nth_error l1 i) as [a|] eqn:E1; destruct (nth_error l2 i) as [b|] eqn:E2.
  - destruct (N1 i a E1) as (m1 & -> & I1). destruct (N2 i b E2) as (m2 & -> & I2).
    f_equal. unfold layer_at in *.
    destruct (scan (triangles s) (layer_height s i)) as [|p ps]; [reflexivity|].
    assert (m1 = m2) as ->; [|reflexivity].
    eapply stops_unique; [apply I1 | apply I2]; discriminate.
  - apply nth_error_None in E2. assert (nth_error l1 i <> None) as N by congruence.
    apply nth_error_Some in N. lia.
  - apply nth_error_None in E1. assert (nth_error l2 i <> None) as N by congruence.
    apply nth_error_Some in N. lia.
  - reflexivity.
Qed.

(** ** What the layers contain *)

Lemma layer_at_height (s : SimpleSlicer) (m : nat) (z : float) : height (layer_at s m z) = z.
Proof. unfold layer_at. now destruct (scan (triangles s) z). Qed.

Lemma layer_at_contours (s : SimpleSlicer) (m : nat) (z : float) :
  contours (layer_at s m z) =
  match scan (triangles s) z with [] => [] | p :: ps => [p :: ps] end.
Proof. unfold layer_at. now destruct (scan (triangles s) z). Qed.

Lemma layer_at_infill (s : SimpleSlicer) (m : nat) (z : float) :
  infill (layer_at s m z) =
  match scan (triangles s) z with
  | [] => []
  | _ :: _ => infill_lines (getBoundingBox s) (infillDensity s) z m
  end.
Proof. unfold layer_at. now destruct (scan (triangles s) z). Qed.

Lemma scan_points_at (tris : list Triangle) (z : float) :
  Forall (fun p => p.(Vector3.z) = z) (scan tris z).
Proof.
  rewrite scan_filter. apply Forall_forall. intros p Hp.
  apply in_map_iff in Hp. destruct Hp as (tri & <- & _). reflexivity.
Qed.

Lemma infill_lines_points_at (bbox : list float) (density z : float) (n : nat) :
  Forall (Forall (fun p => p.(Vector3.z) = z)) (infill_lines bbox density z n).
Proof.
  unfold infill_lines. apply Forall_forall. intros line Hl.
  apply in_map_iff in Hl. destruct Hl as (i & <- & _).
  unfold infill_line. repeat constructor.
Qed.

Lemma layer_at_points (s : SimpleSlicer) (m : nat) (z : float) :
  let l := layer_at s m z in
  Forall (Forall (fun p => p.(Vector3.z) = height l)) (contours l) /\
  Forall (Forall (fun p => p.(Vector3.z) = height l)) (infill l).
Proof.
  cbv zeta. rewrite layer_at_height, layer_at_contours, layer_at_infill.
  pose proof (scan_points_at (triangles s) z) as Hs.
  destruct (scan (triangles s) z) as [|p ps].
  - split; constructor.
  - split; [constructor; [exact Hs | constructor] | apply infill_lines_points_at].
Qed.

Lemma heights_stop_cube_2 : heights_stop cube_slicer_2 6.
Proof.
  split.
  - intros i Hi. do 6 (destruct i as [|i]; [reflexivity|]). lia.
  - reflexivity.
Qed.

Lemma infill_stops_cube : forall h, infill_stops (setLayerHeight h cube_slicer) 2.
Proof.
  intros h. split.
  - intros i Hi. do 2 (destruct i as [|i]; [reflexivity|]). lia.
  - reflexivity.
Qed.

Lemma slice_cube_2_returns :
  exists layers, slice 20 cube_slicer_2 = Returns layers.
Proof.
  eexists. apply (slice_stops cube_slicer_2 6 2 20).
  - exact heights_stop_cube_2.
  - intros i _ _. apply infill_stops_cube.
  - lia.
Qed.

(** C6.  In every layer [slice] produces, every point of every contour and
    both endpoints of every infill line have their Z coordinate equal to
    the height of the layer. *)
Theorem layer_points_at_height (fuel : nat) (s : SimpleSlicer) (layers : list Layer) :
  slice fuel s = Returns layers ->
  Forall (fun l =>
            Forall (Forall (fun p => p.(Vector3.z) = height l)) (contours l) /\
            Forall (fun line =>
                      List.length line = 2%nat /\
                      Forall (fun p => p.(Vector3.z) = height l) line)
                   (infill l))
         layers.
Proof.
  intros H. apply Forall_forall. intros l Hl.
  apply In_nth_error in Hl. destruct Hl as (i & Hi).
  destruct (proj2 (slice_returns _ _ _ H) i l Hi) as (m & -> & _).
  destruct (layer_at_points s m (layer_height s i)) as [Hc Hi'].
  split; [exact Hc|].
  rewrite Forall_forall in Hi'. apply Forall_forall. intros line Hline.
  split; [|now apply Hi'].
  rewrite layer_at_infill in Hline.
  destruct (scan (triangles s) (layer_height s i)); [contradiction|].
  unfold infill_lines in Hline. apply in_map_iff in Hline.
  destruct Hline as (j & <- & _). reflexivity.
Qed.

(** The theorem on the six layers of the cube sliced with [layerHeight = 2]. *)
Lemma layer_points_at_height_cube :
  exists layers,
    slice 20 cube_slicer_2 = Returns layers /\
    Forall (fun l =>
              Forall (Forall (fun p => p.(Vector3.z) = height l)) (contours l) /\
              Forall (fun line =>
                        List.length line = 2%nat /\
                        Forall (fun p => p.(Vector3.z) = height l) line)
                     (infill l))
           layers.
Proof.
  destruct slice_cube_2_returns as [layers H].
  exists layers. split; [exact H|].
  exact (layer_points_at_height 20 cube_slicer_2 layers H).
Defined.

(** C3.  In every layer with a non-empty contour the infill is the
    sequence of two-point segments from [(x, minY, z)] to [(x, maxY, z)],
    with the Y extent of the mesh-wide bounding box, at X values starting at
    [minX] and increasing by [2.0 / (infillDensity / 100)] while
    [x <= maxX]; [generateInfill] returns it whenever that loop leaves, and
    its result is a function of the bounding box, [infillDensity] and [z]
    only: the contour points do not matter. *)
Theorem infill_is_bounding_box_raster (s : SimpleSlicer) :
  (forall fuel layers,
     slice fuel s = Returns layers ->
     Forall (fun l =>
               contours l <> [] ->
               exists m, infill_stops s m /\
                         infill l = infill_lines (getBoundingBox s) (infillDensity s) (height l) m)
            layers) /\
  (forall m fuel contour z,
     infill_stops s m -> (m < fuel)%nat ->
     generateInfill fuel s contour z =
     Returns (infill_lines (getBoundingBox s) (infillDensity s) z m)) /\
  (forall fuel s' contour contour' z,
     getBoundingBox s' = getBoundingBox s -> infillDensity s' = infillDensity s ->
     generateInfill fuel s' contour' z = generateInfill fuel s contour z).
Proof.
  split; [|split].
  - intros fuel layers H. apply Forall_forall. intros l Hl Hc.
    apply In_nth_error in Hl. destruct Hl as (i & Hi).
    destruct (proj2 (slice_returns _ _ _ H) i l Hi) as (m & -> & Hm).
    rewrite layer_at_contours in Hc.
    rewrite layer_at_infill, layer_at_height.
    destruct (scan (triangles s) (layer_height s i)) as [|p ps]; [congruence|].
    exists m. split; [apply Hm; discriminate | reflexivity].
  - intros m fuel contour z Hm Hf. now apply generateInfill_stops.
  - intros fuel s' contour contour' z Hb Hd. unfold generateInfill.
    now rewrite Hb, Hd.
Qed.

(** The theorem at the cube with the default density: two lines, at
    [x = -5] and [x = 5]. *)
Lemma infill_is_bounding_box_raster_cube :
  infill_stops cube_slicer 2 /\
  generateInfill 3 cube_slicer [] 1 =
  Returns [ [Vector3.mk (-5) (-5) 1; Vector3.mk (-5) 5 1];
            [Vector3.mk 5 (-5) 1; Vector3.mk 5 5 1] ].
Proof.
  split.
  - exact (infill_stops_cube 0.2).
  - exact (proj1 (proj2 (infill_is_bounding_box_raster cube_slicer))
             2%nat 3%nat [] 1 (infill_stops_cube 0.2) (Nat.lt_succ_diag_r 2)).
Defined.

(** ** How many layers, and at which heights *)

(** C1, as the code has it.  Let the plane heights be [minZ], then
    [layerHeight] added again and again in [double] arithmetic.  If the
    heights with index below [n] are [<= maxZ] and the one with index [n] is
    not (and the infill loop, where it is entered, leaves), [slice] returns
    exactly [n] layers, the layer with index [i] has the accumulated height
    with index [i], and a layer is emitted for every plane height, with no
    contour and no infill where no triangle is met. *)
Theorem slice_one_layer_per_plane (s : SimpleSlicer) (n m : nat) :
  heights_stop s n -> infill_stops_if_called s n m ->
  exists layers,
    (forall fuel, (n + m + 1 < fuel)%nat -> slice fuel s = Returns layers) /\
    (forall fuel layers', slice fuel s = Returns layers' -> layers' = layers) /\
    List.length layers = n /\
    (forall i, (i < n)%nat ->
       exists l, nth_error layers i = Some l /\
                 height l = layer_height s i /\
                 (scan (triangles s) (layer_height s i) = [] ->
                  contours l = [] /\ infill l = [])).
Proof.
  intros Hn Hm.
  set (layers := map (fun i => layer_at s m (layer_height s i)) (seq 0 n)).
  assert (Hret : forall fuel, (n + m + 1 < fuel)%nat -> slice fuel s = Returns layers)
    by (intros fuel Hf; now apply slice_stops).
  exists layers. split; [exact Hret|]. split; [|split].
  - intros fuel layers' H.
    apply (slice_fuel_irrelevant s fuel (n + m + 2) _ _ H). apply Hret. lia.
  - unfold layers. now rewrite length_map, length_seq.
  - intros i Hi. exists (layer_at s m (layer_height s i)). split; [|split].
    + unfold layers. rewrite nth_error_map, nth_error_seq.
      apply Nat.ltb_lt in Hi. now rewrite Hi.
    + apply layer_at_height.
    + intros Hs. rewrite layer_at_contours, layer_at_infill, Hs. now split.
Qed.

(** The theorem on the cube sliced with [layerHeight = 2]: six layers. *)
Lemma slice_one_layer_per_plane_cube :
  heights_stop cube_slicer_2 6 /\
  infill_stops_if_called cube_slicer_2 6 2 /\
  exists layers,
    slice 20 cube_slicer_2 = Returns layers /\
    List.length layers = 6%nat /\
    map height layers = [-5; -3; -1; 1; 3; 5].
Proof.
  assert (Hm : infill_stops_if_called cube_slicer_2 6 2)
    by (intros i _ _; apply infill_stops_cube).
  split; [exact heights_stop_cube_2|]. split; [exact Hm|].
  destruct (slice_one_layer_per_plane cube_slicer_2 6 2 heights_stop_cube_2 Hm)
    as (layers & Hret & _ & Hlen & Hnth).
  exists layers. split; [apply Hret; lia|]. split; [exact Hlen|].
  destruct layers as [|l0 [|l1 [|l2 [|l3 [|l4 [|l5 [|l6 rest]]]]]]]; try discriminate.
  destruct (Hnth 0%nat) as (? & E0 & H0 & _); [lia|]. injection E0 as <-.
  destruct (Hnth 1%nat) as (? & E1 & H1 & _); [lia|]. injection E1 as <-.
  destruct (Hnth 2%nat) as (? & E2 & H2 & _); [lia|]. injection E2 as <-.
  destruct (Hnth 3%nat) as (? & E3 & H3 & _); [lia|]. injection E3 as <-.
  destruct (Hnth 4%nat) as (? & E4 & H4 & _); [lia|]. injection E4 as <-.
  destruct (Hnth 5%nat) as (? & E5 & H5 & _); [lia|]. injection E5 as <-.
  simpl. rewrite H0, H1, H2, H3, H4, H5. reflexivity.
Defined.

(** ** The layers against the closed formula *)

Lemma stops_by_evaluation (start step bound : float) (n : nat) :
  forallb (fun i => plane start step i <=? bound) (seq 0 n) = true ->
  (plane start step n <=? bound) = false ->
  stops start step bound n.
Proof.
  intros Hall Hn. split; [|exact Hn].
  intros i Hi. rewrite forallb_forall in Hall. apply Hall.
  apply in_seq. lia.
Qed.

Lemma heights_stop_cube_default : heights_stop cube_slicer 50.
Proof. apply stops_by_evaluation; vm_compute; reflexivity. Qed.

(** C1 fails as stated.  With the default configuration ([layerHeight]
    0.2) the cube is cut into 50 layers, the last one at
    4.8000000000000043: in [double] arithmetic the formula gives
    [floor(10 / 0.2) + 1 = 51]; on exact values the layer with index 1,
    at the [double] nearest to [-5 + 0.2], is not at [minZ + 1*h]. *)
Lemma slice_cube_default_off_formula :
  exists layers,
    slice 100 cube_slicer = Returns layers /\
    List.length layers = 50%nat /\
    ~ layers_by_formula (formula_count_double cube_slicer)
        (fun i z => z = formula_height_double cube_slicer i) layers /\
    ~ layers_by_formula (formula_count_exact cube_slicer)
        (fun i z => (F2Q z == formula_height_exact cube_slicer i)%Q) layers.
Proof.
  eexists. split; [|split; [|split]].
  - apply (slice_stops cube_slicer 50 2 100).
    + exact heights_stop_cube_default.
    + intros i _ _. exact (infill_stops_cube 0.2).
    + lia.
  - now rewrite length_map, length_seq.
  - intros [Hc _]. rewrite length_map, length_seq in Hc.
    vm_compute in Hc. discriminate.
  - intros [_ Hh].
    specialize (Hh 1%nat (layer_at cube_slicer 2 (layer_height cube_slicer 1)) eq_refl).
    rewrite layer_at_height in Hh.
    apply Qeq_bool_iff in Hh. vm_compute in Hh. discriminate.
Qed.

(** ** [slice] never returns an empty sequence *)

Lemma bbox_minZ_le_maxZ (s : SimpleSlicer) :
  num_mesh (triangles s) ->
  (at_ (getBoundingBox s) 2 <=? at_ (getBoundingBox s) 5) = true.
Proof.
  intros Hnum. destruct (triangles s) as [|t0 rest] eqn:E.
  - unfold getBoundingBox. rewrite E. reflexivity.
  - rewrite (BoundingBox.getBoundingBox_cons s t0 rest E).
    apply (BoundingBox.axis_bounds Vector3.z t0 rest (BoundingBox.num_mesh_on_z _ Hnum)).
Qed.

Lemma heights_stop_positive (s : SimpleSlicer) (n : nat) :
  num_mesh (triangles s) -> heights_stop s n -> exists n', n = S n'.
Proof.
  intros Hnum Hn. destruct n as [|n']; [|now exists n'].
  destruct Hn as [_ H0]. unfold plane in H0. simpl in H0.
  rewrite (bbox_minZ_le_maxZ s Hnum) in H0. discriminate.
Qed.

Lemma slice_returns_cons (s : SimpleSlicer) (fuel : nat) (layers : list Layer) :
  num_mesh (triangles s) -> slice fuel s = Returns layers ->
  exists l rest, layers = l :: rest /\ height l = at_ (getBoundingBox s) 2.
Proof.
  intros Hnum H. destruct (slice_returns _ _ _ H) as [Hstop Hnth].
  destruct (heights_stop_positive s _ Hnum Hstop) as [n' Hlen].
  destruct layers as [|l rest]; [discriminate|].
  exists l, rest. split; [reflexivity|].
  destruct (Hnth 0%nat l eq_refl) as (m & -> & _).
  now rewrite layer_at_height.
Qed.

Lemma generateGCode_stream_defined (s : SimpleSlicer) (fuel : nat) :
  num_mesh (triangles s) -> generateGCode_stream fuel s <> Undefined.
Proof.
  intros Hnum. unfold generateGCode_stream.
  destruct (slice fuel s) as [layers| |] eqn:E; simpl.
  - destruct (slice_returns_cons s fuel layers Hnum E) as (l & rest & -> & _).
    destruct (fold_left emit_layer (l :: rest) (gcode_header s, 0, 0%nat)) as [[gcode e] i].
    simpl. discriminate.
  - discriminate.
  - now apply slice_not_undefined in E.
Qed.

(** Adding a positive number to [0.0] gives that number. *)
Lemma add_zero_positive (h : float) : (0 <? h) = true -> 0 + h = h /\ (h <=? 0) = false.
Proof.
  intros H. split.
  - apply Prim2SF_inj. rewrite add_spec. rewrite ltb_spec in H.
    change (Prim2SF 0) with (S754_zero false) in *.
    destruct (Prim2SF h) as [sg|sg| |sg m e]; try reflexivity; discriminate.
  - pose proof (FloatOrder.ltb_leb _ _ H) as L.
    apply FloatOrder.leb_not_nan in L. destruct L as [N0 Nh].
    rewrite (FloatOrder.ltb_negb_leb 0 h N0 Nh) in H.
    now apply negb_true_iff in H.
Qed.

Lemma slice_empty_mesh (s : SimpleSlicer) (fuel : nat) :
  triangles s = [] -> (0 <? layerHeight s) = true -> (2 < fuel)%nat ->
  slice fuel s = Returns [mkLayer 0 [] []].
Proof.
  intros Hnil Hh Hf. destruct (add_zero_positive _ Hh) as [Hadd Hle].
  assert (Hb : getBoundingBox s = [0; 0; 0; 0; 0; 0])
    by (unfold getBoundingBox; now rewrite Hnil).
  rewrite (slice_stops s 1 0 fuel).
  - simpl. unfold layer_at, layer_height. rewrite Hnil, Hb. reflexivity.
  - unfold heights_stop. rewrite Hb. apply stops_S; [reflexivity|].
    apply stops_O. change (at_ [0; 0; 0; 0; 0; 0] 2) with 0.
    now rewrite Hadd.
  - intros i _ Hs. rewrite Hnil in Hs. now contradiction Hs.
  - lia.
Qed.

(** C10 fails as stated.  [layerHeight = 1e-17] is positive, but adding it
    to [-5] gives [-5] again in [double] arithmetic: on the cube the Z loop
    never leaves and [slice] returns nothing at all. *)
Lemma slice_tiny_layerHeight_never_returns :
  (0 <? 1e-17) = true /\
  -5 + 1e-17 = -5 /\
  ~ (exists fuel layers, slice fuel (setLayerHeight 1e-17 cube_slicer) = Returns layers).
Proof.
  split; [reflexivity|]. split; [reflexivity|].
  intros (fuel & layers & H).
  apply slice_returns in H. destruct H as [[_ Hn] _].
  rewrite plane_fixed in Hn by reflexivity. discriminate.
Qed.

(** C10, as the code has it.  For every mesh of numbers, the empty one
    included, and every [layerHeight]: whatever [slice] returns is a
    non-empty sequence whose first layer is at [minZ], because
    [getBoundingBox] yields [minZ <= maxZ]; so [layers.back()] in
    [generateGCode] is never out of bounds.  [slice] does return as soon as
    the accumulated heights leave the box (and the infill loop, where
    entered, leaves); on the empty mesh with [layerHeight > 0] it returns
    the single empty layer at height 0. *)
Theorem slice_never_returns_empty (s : SimpleSlicer) :
  num_mesh (triangles s) ->
  (forall fuel layers,
     slice fuel s = Returns layers ->
     exists l rest, layers = l :: rest /\ height l = at_ (getBoundingBox s) 2) /\
  (forall fuel, generateGCode_stream fuel s <> Undefined) /\
  (forall n m fuel,
     heights_stop s n -> infill_stops_if_called s n m -> (n + m + 1 < fuel)%nat ->
     exists l rest gcode,
       slice fuel s = Returns (l :: rest) /\
       generateGCode_stream fuel s = Returns gcode) /\
  (triangles s = [] -> (0 <? layerHeight s) = true ->
   forall fuel, (2 < fuel)%nat -> slice fuel s = Returns [mkLayer 0 [] []]).
Proof.
  intros Hnum. split; [|split; [|split]].
  - intros fuel layers H. now apply slice_returns_cons with (fuel := fuel).
  - intros fuel. now apply generateGCode_stream_defined.
  - intros n m fuel Hn Hm Hf.
    pose proof (slice_stops s n m fuel Hn Hm Hf) as H.
    destruct (slice_returns_cons s fuel _ Hnum H) as (l & rest & E & _).
    rewrite E in H. exists l, rest.
    unfold generateGCode_stream. rewrite H. simpl.
    destruct (fold_left emit_layer rest _) as [[gcode e] i].
    eexists. split; reflexivity.
  - intros Hnil Hh fuel Hf. now apply slice_empty_mesh.
Qed.

(** The theorem on the cube sliced with [layerHeight = 2], and on the empty
    mesh of a fresh slicer. *)
Lemma slice_never_returns_empty_cube :
  num_mesh (triangles cube_slicer_2) /\
  (exists l rest, slice 20 cube_slicer_2 = Returns (l :: rest)) /\
  generateGCode_stream 20 cube_slicer_2 <> Undefined.
Proof.
  split; [exact num_mesh_cube|].
  pose proof (slice_never_returns_empty cube_slicer_2 num_mesh_cube) as (_ & Hdef & Hret & _).
  split; [|exact (Hdef 20%nat)].
  destruct (Hret 6%nat 2%nat 20%nat heights_stop_cube_2) as (l & rest & _ & H & _).
  - intros i _ _. apply infill_stops_cube.
  - lia.
  - now exists l, rest.
Defined.

(** ** The stream of [generateGCode], loop by loop *)

Module Serializer.

Section Run.
Context {X St : Type}.
Variable step : St -> X -> ostream * St.

Lemma fold_left_run (f : ostream * St -> X -> ostream * St) :
  (forall g st x, f (g, st) x = (g ++ fst (step st x), snd (step st x))) ->
  forall xs g st, fold_left f xs (g, st) = (g ++ fst (run step st xs), snd (run step st xs)).
Proof.
  intros Hf. induction xs as [|x rest IH]; intros g st; simpl.
  - now rewrite app_nil_r.
  - rewrite Hf, IH. now rewrite <- app_assoc.
Qed.
End Run.

Lemma emit_contour_out (height : float) (g : ostream) (e : float) (contour : list Vector3) :
  emit_contour height (g, e) contour =
  (g ++ fst (contour_out height e contour), snd (contour_out height e contour)).
Proof.
  destruct contour as [|c0 rest]; simpl.
  - now rewrite app_nil_r.
  - rewrite (fold_left_run move_out).
    + unfold put. simpl. rewrite <- !app_assoc. reflexivity.
    + intros g' st p. unfold put. simpl. rewrite <- !app_assoc. reflexivity.
Qed.

Lemma emit_infill_out (height : float) (g : ostream) (e : float) (line : list Vector3) :
  emit_infill height (g, e) line =
  (g ++ fst (infill_out height e line), snd (infill_out height e line)).
Proof.
  destruct line as [|l0 [|l1 rest]]; simpl; try now rewrite app_nil_r.
  unfold put. rewrite <- !app_assoc. reflexivity.
Qed.

Lemma emit_layer_out (g : ostream) (e : float) (i : nat) (layer : Layer) :
  emit_layer (g, e, i) layer =
  (g ++ fst (layer_out (e, i) layer), fst (snd (layer_out (e, i) layer)),
   snd (snd (layer_out (e, i) layer))).
Proof.
  unfold emit_layer, layer_out.
  rewrite (fold_left_run (contour_out (height layer)))
    by (intros; apply emit_contour_out).
  rewrite (fold_left_run (infill_out (height layer)))
    by (intros; apply emit_infill_out).
  simpl. unfold put. rewrite <- !app_assoc. reflexivity.
Qed.

Lemma fold_emit_layer (layers : list Layer) : forall (g : ostream) (e : float) (i : nat),
  fold_left emit_layer layers (g, e, i) =
  (g ++ fst (run layer_out (e, i) layers),
   fst (snd (run layer_out (e, i) layers)),
   snd (snd (run layer_out (e, i) layers))).
Proof.
  induction layers as [|layer rest IH]; intros g e i; cbn [fold_left run].
  - cbn. now rewrite app_nil_r.
  - rewrite emit_layer_out, IH. rewrite <- app_assoc.
    destruct (layer_out (e, i) layer) as [o [e' i']]. reflexivity.
Qed.

(** The whole stream of a run that returns. *)
Lemma generateGCode_stream_out (fuel : nat) (s : SimpleSlicer) (gcode : ostream) :
  generateGCode_stream fuel s = Returns gcode ->
  exists layers lastLayer,
    slice fuel s = Returns layers /\
    back layers = Returns lastLayer /\
    gcode = gcode_header s ++ fst (run layer_out (0, 0%nat) layers) ++ trailer_items lastLayer.
Proof.
  unfold generateGCode_stream.
  destruct (slice fuel s) as [layers| |]; cbn [bind]; try discriminate.
  rewrite fold_emit_layer. cbv beta iota zeta.
  destruct (back layers) as [lastLayer| |] eqn:Eb; cbn [bind]; try discriminate.
  intros H. injection H as <-. exists layers, lastLayer.
  split; [reflexivity|]. split; [exact Eb|].
  unfold put, trailer_items. rewrite <- !app_assoc. reflexivity.
Qed.

End Serializer.

(** ** Reading the streams back *)

Lemma count_str_app (key : string) (a b : ostream) :
  count_str key (a ++ b) = (count_str key a + count_str key b)%nat.
Proof.
  induction a as [|[k|d|n] a IH]; simpl; try assumption; [reflexivity|].
  rewrite IH. lia.
Qed.

Lemma count_str_run {X St : Type} (step : St -> X -> ostream * St) (key : string)
    (c : nat) (xs : list X) :
  (forall st x, count_str key (fst (step st x)) = c) ->
  forall st, count_str key (fst (run step st xs)) = (List.length xs * c)%nat.
Proof.
  intros Hstep. induction xs as [|x rest IH]; intros st; simpl; [reflexivity|].
  now rewrite count_str_app, Hstep, IH.
Qed.

Lemma layer_comments_layer_out (st : float * nat) (layer : Layer) :
  layer_comments (fst (layer_out st layer)) = 1%nat.
Proof.
  destruct st as [e i]. unfold layer_comments, layer_out. cbn [fst].
  rewrite !count_str_app.
  rewrite (count_str_run _ _ 0), (count_str_run _ _ 0).
  - rewrite !Nat.mul_0_r. reflexivity.
  - intros e' line. destruct line as [|l0 [|l1 rest]]; reflexivity.
  - intros e' contour. destruct contour as [|c0 rest]; [reflexivity|].
    cbn [contour_out fst]. rewrite count_str_app.
    rewrite (count_str_run _ _ 0) by reflexivity.
    now rewrite Nat.mul_0_r.
Qed.

Lemma layer_comments_stream (fuel : nat) (s : SimpleSlicer) (gcode : ostream) :
  generateGCode_stream fuel s = Returns gcode ->
  exists layers, slice fuel s = Returns layers /\
                 layer_comments gcode = List.length layers.
Proof.
  intros H. apply Serializer.generateGCode_stream_out in H.
  destruct H as (layers & lastLayer & Hs & _ & ->).
  exists layers. split; [exact Hs|].
  unfold layer_comments. rewrite !count_str_app.
  rewrite (count_str_run _ _ 1) by apply layer_comments_layer_out.
  change (count_str "; Layer " (gcode_header s)) with 0%nat.
  change (count_str "; Layer " (trailer_items lastLayer)) with 0%nat.
  lia.
Qed.

Lemma fold_emit_bbox_entry (bbox : list float) : forall (json : ostream) (i : nat),
  exists more i', fold_left emit_bbox_entry bbox (json, i) = (json ++ more, i').
Proof.
  induction bbox as [|b rest IH]; intros json i; simpl.
  - exists [], i. now rewrite app_nil_r.
  - destruct (IH ((if (0 <? i)%nat then json << Str ", " else json) << b) (S i))
      as (more & i' & ->).
    unfold put. destruct (0 <? i)%nat; rewrite <- ?app_assoc; eauto.
Qed.

Lemma fold_emit_layer_info (layers : list Layer) : forall (json : ostream) (i : nat),
  exists more i', fold_left emit_layer_info layers (json, i) = (json ++ more, i').
Proof.
  induction layers as [|l rest IH]; intros json i; cbn [fold_left].
  - exists [], i. now rewrite app_nil_r.
  - unfold emit_layer_info at 2. cbv beta iota zeta.
    match goal with |- context [fold_left _ rest (?j, ?k)] =>
      destruct (IH j k) as (more & i' & ->) end.
    unfold put. destruct (0 <? i)%nat; rewrite <- ?app_assoc; eauto.
Qed.

Lemma totalLayers_stream (fuel : nat) (s : SimpleSlicer) (json : ostream) :
  getLayerInfo_stream fuel s = Returns json ->
  exists layers, slice fuel s = Returns layers /\
                 totalLayers json = Some (List.length layers).
Proof.
  unfold getLayerInfo_stream.
  destruct (slice fuel s) as [layers| |]; cbn [bind]; try discriminate.
  cbv zeta.
  match goal with |- context [fold_left emit_bbox_entry _ (?j, ?k)] =>
    destruct (fold_emit_bbox_entry (getBoundingBox s) j k) as (m1 & i1 & ->) end.
  cbv beta iota.
  match goal with |- context [fold_left emit_layer_info _ (?j, ?k)] =>
    destruct (fold_emit_layer_info layers j k) as (m2 & i2 & ->) end.
  cbv beta iota. intros H. injection H as <-.
  exists layers. split; [reflexivity|].
  unfold put. rewrite <- !app_assoc. reflexivity.
Qed.

(** C8.  The [totalLayers] value [getLayerInfo] reports equals the number
    of layers of the sequence that the [slice] run inside [generateGCode]
    produces (one [; Layer] comment line each): both call the same [slice]
    and agree on the count. *)
Theorem getLayerInfo_totalLayers (f1 f2 : nat) (s : SimpleSlicer) (gcode json : ostream) :
  generateGCode_stream f1 s = Returns gcode ->
  getLayerInfo_stream f2 s = Returns json ->
  exists layers,
    slice f1 s = Returns layers /\ slice f2 s = Returns layers /\
    totalLayers json = Some (List.length layers) /\
    layer_comments gcode = List.length layers.
Proof.
  intros Hg Hj.
  destruct (layer_comments_stream _ _ _ Hg) as (l1 & S1 & C1).
  destruct (totalLayers_stream _ _ _ Hj) as (l2 & S2 & C2).
  assert (l2 = l1) as -> by (eapply slice_fuel_irrelevant; eassumption).
  exists l1. now repeat split.
Qed.

Lemma generateGCode_stream_returns (s : SimpleSlicer) (fuel : nat) (l : Layer)
    (rest : list Layer) :
  slice fuel s = Returns (l :: rest) ->
  exists gcode, generateGCode_stream fuel s = Returns gcode.
Proof.
  intros H. unfold generateGCode_stream. rewrite H. cbn [bind].
  destruct (fold_left emit_layer (l :: rest) _) as [[gcode e] i].
  cbn [back bind]. eexists. reflexivity.
Qed.

Lemma getLayerInfo_stream_returns (s : SimpleSlicer) (fuel : nat) (layers : list Layer) :
  slice fuel s = Returns layers ->
  exists json, getLayerInfo_stream fuel s = Returns json.
Proof.
  intros H. unfold getLayerInfo_stream. rewrite H. cbn [bind]. cbv zeta.
  destruct (fold_left emit_bbox_entry _ _) as [j1 i1].
  destruct (fold_left emit_layer_info _ _) as [j2 i2].
  eexists. reflexivity.
Qed.

Lemma slice_cube_2_six (fuel : nat) :
  (9 < fuel)%nat ->
  exists l rest, slice fuel cube_slicer_2 = Returns (l :: rest) /\
                 List.length (l :: rest) = 6%nat.
Proof.
  intros Hf.
  assert (Hm : infill_stops_if_called cube_slicer_2 6 2)
    by (intros i _ _; apply infill_stops_cube).
  pose proof (slice_stops cube_slicer_2 6 2 fuel heights_stop_cube_2 Hm ltac:(lia)) as H.
  assert (Hlen : List.length (map (fun i => layer_at cube_slicer_2 2 (layer_height cube_slicer_2 i))
                                  (seq 0 6)) = 6%nat)
    by now rewrite length_map, length_seq.
  destruct (map _ (seq 0 6)) as [|l rest]; [discriminate|].
  now exists l, rest.
Qed.

(** The theorem on the cube sliced with [layerHeight = 2], with different
    amounts of fuel for the two calls. *)
Lemma getLayerInfo_totalLayers_cube :
  exists gcode json,
    generateGCode_stream 20 cube_slicer_2 = Returns gcode /\
    getLayerInfo_stream 30 cube_slicer_2 = Returns json /\
    totalLayers json = Some 6%nat /\
    layer_comments gcode = 6%nat.
Proof.
  destruct (slice_cube_2_six 20 ltac:(lia)) as (l1 & r1 & S1 & L1).
  destruct (slice_cube_2_six 30 ltac:(lia)) as (l2 & r2 & S2 & L2).
  destruct (generateGCode_stream_returns _ _ _ _ S1) as (gcode & Hg).
  destruct (getLayerInfo_stream_returns _ _ _ S2) as (json & Hj).
  exists gcode, json. split; [exact Hg|]. split; [exact Hj|].
  destruct (getLayerInfo_totalLayers 20 30 cube_slicer_2 gcode json Hg Hj)
    as (layers & E1 & _ & Ht & Hc).
  rewrite S1 in E1. injection E1 as <-.
  rewrite Ht, Hc, L1. split; reflexivity.
Defined.

(** ** The stream does not depend on the fuel *)

Lemma generateGCode_stream_fuel_irrelevant (s : SimpleSlicer) (f1 f2 : nat)
    (g1 g2 : ostream) :
  generateGCode_stream f1 s = Returns g1 ->
  generateGCode_stream f2 s = Returns g2 -> g1 = g2.
Proof.
  intros H1 H2.
  apply Serializer.generateGCode_stream_out in H1, H2.
  destruct H1 as (l1 & b1 & S1 & B1 & ->), H2 as (l2 & b2 & S2 & B2 & ->).
  assert (l2 = l1) as -> by (eapply slice_fuel_irrelevant; eassumption).
  congruence.
Qed.

(** ** Adding a small increment in binary64

    What is needed of [SFadd] to follow the extrusion accumulator: adding a
    positive increment to an accumulator that is not astronomically larger
    gives a strictly larger finite value, at most two increments above.
    Values are counted in units of [2^-1074], the smallest positive
    [double], so that they are integers. *)

Module FloatAdd.
Local Open Scope Z_scope.

Lemma digits2_size (p : positive) : digits2_pos p = Pos.size p.
Proof. induction p; simpl; congruence. Qed.

Lemma digits_bounds (p : positive) :
  2 ^ (Zpos (digits2_pos p) - 1) <= Zpos p < 2 ^ Zpos (digits2_pos p).
Proof.
  rewrite digits2_size. split.
  - pose proof (Pos.size_le p) as H.
    assert (H' : Zpos (2 ^ Pos.size p) <= Zpos p~0) by exact H.
    rewrite Pos2Z.inj_pow in H'.
    replace (Zpos (Pos.size p)) with (Zpos (Pos.size p) - 1 + 1) in H' by lia.
    rewrite Z.pow_add_r in H' by lia. change (2 ^ 1) with 2 in H'. lia.
  - pose proof (Pos.size_gt p) as H.
    assert (H' : Zpos p < Zpos (2 ^ Pos.size p)) by exact H.
    now rewrite Pos2Z.inj_pow in H'.
Qed.

Lemma iter_xO (m d : positive) : Zpos (Pos.iter xO m d) = Zpos m * 2 ^ Zpos d.
Proof.
  induction d using Pos.peano_ind.
  - change (Pos.iter xO m 1) with (m~0)%positive. change (2 ^ 1) with 2. lia.
  - rewrite Pos.iter_succ, Pos2Z.inj_succ, Z.pow_succ_r by lia.
    rewrite Pos2Z.inj_xO, IHd. lia.
Qed.

Lemma shl_align_value (m : positive) (e ez : Z) :
  ez <= e -> Zpos (fst (shl_align m e ez)) = Zpos m * 2 ^ (e - ez).
Proof.
  intros H. unfold shl_align. destruct (ez - e) as [|d|d] eqn:E.
  - simpl. replace (e - ez) with 0 by lia. rewrite Z.pow_0_r. lia.
  - lia.
  - cbn [fst]. replace (e - ez) with (Zpos d) by lia. apply iter_xO.
Qed.

Lemma shr_1_m (mrs : shr_record) : 0 <= shr_m mrs -> shr_m (shr_1 mrs) = shr_m mrs / 2.
Proof.
  destruct mrs as [m r s]. simpl. intros H.
  destruct m as [|p|p]; [reflexivity | | lia].
  destruct p as [p|p|]; simpl.
  - rewrite Pos2Z.inj_xI. apply (Z.div_unique _ _ _ 1); lia.
  - rewrite Pos2Z.inj_xO. apply (Z.div_unique _ _ _ 0); lia.
  - reflexivity.
Qed.

Lemma iter_shr_m (k : positive) : forall mrs,
  0 <= shr_m mrs -> shr_m (SpecFloat.iter_pos shr_1 k mrs) = shr_m mrs / 2 ^ Zpos k.
Proof.
  assert (Hpow : forall j : positive, 0 < 2 ^ Zpos j) by (intros; apply Z.pow_pos_nonneg; lia).
  induction k as [k IH|k IH|]; intros mrs H; simpl SpecFloat.iter_pos.
  - assert (E : 2 ^ Zpos k~1 = 2 * 2 ^ Zpos k * 2 ^ Zpos k).
    { rewrite <- Z.pow_succ_r, <- Z.pow_add_r by lia. f_equal. lia. }
    assert (H1 : 0 <= shr_m (shr_1 mrs)) by (rewrite shr_1_m by assumption; apply Z.div_pos; lia).
    assert (H2 : 0 <= shr_m (SpecFloat.iter_pos shr_1 k (shr_1 mrs)))
      by (rewrite IH by assumption; apply Z.div_pos; [lia | apply Hpow]).
    rewrite IH, IH, shr_1_m by assumption.
    rewrite !Z.div_div by (try apply Hpow; lia).
    now rewrite E, Z.mul_assoc.
  - assert (E : 2 ^ Zpos k~0 = 2 ^ Zpos k * 2 ^ Zpos k).
    { rewrite <- Z.pow_add_r by lia. f_equal. lia. }
    assert (H2 : 0 <= shr_m (SpecFloat.iter_pos shr_1 k mrs))
      by (rewrite IH by assumption; apply Z.div_pos; [lia | apply Hpow]).
    rewrite IH, IH by assumption.
    rewrite !Z.div_div by (try apply Hpow; lia).
    now rewrite E.
  - rewrite shr_1_m by assumption. reflexivity.
Qed.

Lemma fexp_eq (e : Z) : fexp prec emax e = Z.max (e - 53) (-1074).
Proof. reflexivity. Qed.

Lemma bounded_inv (m : positive) (e : Z) :
  bounded prec emax m e = true ->
  -1074 <= e <= 971 /\ D m <= 53 /\ (D m = 53 \/ e = -1074).
Proof.
  unfold bounded, canonical_mantissa. rewrite fexp_eq.
  intros H. apply andb_true_iff in H. destruct H as [H1 H2].
  apply Z.eqb_eq in H1. apply Z.leb_le in H2.
  change (emax - prec) with 971 in H2. lia.
Qed.

Lemma rne_bounds (q : Z) (l : location) :
  q <= round_nearest_even q l <= q + 1.
Proof. destruct l as [|[ | | ]]; simpl; try destruct (Z.even q); lia. Qed.

Lemma pow2_pos (k : Z) : 0 <= k -> 0 < 2 ^ k.
Proof. intros. apply Z.pow_pos_nonneg; lia. Qed.

Lemma digits_le (a b : positive) : (a <= b)%positive -> D a <= D b.
Proof.
  intros H. pose proof (digits_bounds a) as [La _]. pose proof (digits_bounds b) as [_ Ub].
  assert (Hlt : 2 ^ (D a - 1) < 2 ^ D b) by lia.
  apply Z.pow_lt_mono_r_iff in Hlt; lia.
Qed.

(** First right shift: the mantissa becomes the quotient by [2^k]. *)
Lemma shr_m_quotient (S : positive) (e k : Z) :
  0 <= k ->
  let r := shr (Build_shr_record (Zpos S) false false) e k in
  shr_m (fst r) = Zpos S / 2 ^ k /\ snd r = e + k.
Proof.
  intros Hk. destruct k as [|p|p]; simpl; try lia.
  - split; [now rewrite Z.div_1_r | lia].
  - split; [|reflexivity]. now rewrite iter_shr_m by (simpl; lia).
Qed.

(** Rounding a sum [S * 2^ez] that already has 53 digits or sits at the
    lowest exponent: the mantissa is the quotient by [2^k], or one more. *)
Lemma binary_round_aux_shape (S : positive) (ez : Z) :
  -1074 <= ez -> (53 <= D S \/ ez = -1074) ->
  let k := Z.max (D S - 53) 0 in
  exists (m : positive) (e : Z) (m1 : Z),
    binary_round_aux prec emax false (Zpos S) ez loc_Exact =
      (if e <=? emax - prec then S754_finite false m e else S754_infinity false) /\
    Zpos S / 2 ^ k <= m1 <= Zpos S / 2 ^ k + 1 /\
    e <= ez + k + 1 /\
    Zpos m * 2 ^ (e + 1074) = m1 * 2 ^ k * 2 ^ (ez + 1074).
Proof.
  intros Hez Hdig k.
  assert (Hk : 0 <= k) by lia.
  pose proof (pow2_pos k Hk) as Hpk.
  pose proof (digits_bounds S) as [HSl HSu].
  unfold binary_round_aux, shr_fexp.
  change (Zdigits2 (Zpos S)) with (D S). rewrite fexp_eq.
  replace (Z.max (D S + ez - 53) (-1074) - ez) with k by lia.
  destruct (shr_m_quotient S ez k Hk) as [Hq He'].
  change (shr_record_of_loc (Zpos S) loc_Exact)
    with {| shr_m := Zpos S; shr_r := false; shr_s := false |}.
  destruct (shr {| shr_m := Zpos S; shr_r := false; shr_s := false |} ez k) as [mrs' e'].
  cbn [fst snd] in Hq, He'. subst e'.
  remember (shr_m mrs') as q eqn:Eq.
  pose proof (rne_bounds q (loc_of_shr_record mrs')) as Hm1.
  remember (round_nearest_even q (loc_of_shr_record mrs')) as m1 eqn:Em.
  (* the quotient has at most 53 digits and is positive *)
  assert (Hq53 : q < 2 ^ 53).
  { rewrite Hq. apply Z.div_lt_upper_bound; [exact Hpk|].
    rewrite <- Z.pow_add_r by lia.
    eapply Z.lt_le_trans; [exact HSu|]. apply Z.pow_le_mono_r; lia. }
  assert (Hq1 : 1 <= q).
  { rewrite Hq. apply Z.div_le_lower_bound; [exact Hpk|]. rewrite Z.mul_1_r.
    eapply Z.le_trans; [|exact HSl]. apply Z.pow_le_mono_r; lia. }
  rewrite <- Hq.
  clear Em. destruct m1 as [|p1|p1]; try lia.
  change (Zdigits2 (Zpos p1)) with (D p1). rewrite fexp_eq.
  pose proof (digits_bounds p1) as [Hp1l Hp1u].
  destruct (Z_le_gt_dec (D p1) 53) as [Hd|Hd].
  - (* no second shift *)
    assert (Hk2 : Z.max (D p1 + (ez + k) - 53) (-1074) - (ez + k) <= 0) by lia.
    unfold shr.
    destruct (Z.max (D p1 + (ez + k) - 53) (-1074) - (ez + k)) as [|p2|p2]; try lia;
      cbn [shr_record_of_loc shr_m];
      exists p1, (ez + k), (Zpos p1); (split; [reflexivity|]); (split; [exact Hm1|]);
      (split; [lia|]);
      rewrite <- Z.mul_assoc, <- Z.pow_add_r by lia; do 2 f_equal; lia.
  - (* the mantissa was rounded up to 2^53 *)
    assert (Hge : 2 ^ 53 <= 2 ^ (D p1 - 1)) by (apply Z.pow_le_mono_r; lia).
    assert (Hp1 : Zpos p1 = 2 ^ 53) by lia.
    assert (HD : D p1 = 54).
    { assert (D p1 - 1 < 54).
      { apply (Z.pow_lt_mono_r_iff 2); [lia | lia |].
        eapply Z.le_lt_trans; [exact Hp1l|]. rewrite Hp1.
        apply Z.pow_lt_mono_r; lia. }
      lia. }
    replace (Z.max (D p1 + (ez + k) - 53) (-1074) - (ez + k)) with 1 by lia.
    unfold shr. cbn [shr_record_of_loc SpecFloat.iter_pos]. rewrite shr_1_m by (simpl; lia).
    cbn [shr_m]. rewrite Hp1. change (2 ^ 53 / 2) with (Zpos (2 ^ 52)).
    exists (2 ^ 52)%positive, (ez + k + 1), (Zpos p1).
    split; [reflexivity|]. split; [exact Hm1|]. split; [lia|].
    rewrite Hp1. rewrite <- Z.mul_assoc, <- Z.pow_add_r by lia.
    change (Zpos (2 ^ 52)) with (2 ^ 52). rewrite <- !Z.pow_add_r by lia.
    f_equal. lia.
Qed.

Lemma V_upper (m : positive) (e : Z) :
  -1074 <= e -> D m <= 53 -> V m e < 2 ^ (e + 1127).
Proof.
  intros He Hd. unfold V. pose proof (digits_bounds m) as [_ Hu].
  assert (H53 : 2 ^ D m <= 2 ^ 53) by (apply Z.pow_le_mono_r; lia).
  replace (e + 1127) with (53 + (e + 1074)) by lia.
  rewrite (Z.pow_add_r 2 53 (e + 1074)) by lia.
  apply Z.mul_lt_mono_pos_r; [apply pow2_pos; lia | lia].
Qed.

Lemma V_lower (m : positive) (e : Z) : -1074 <= e -> 2 ^ (e + 1074) <= V m e.
Proof.
  intros He. unfold V. pose proof (pow2_pos (e + 1074) ltac:(lia)). nia.
Qed.

(** The sum of two positive finite floats: the exact sum [S * 2^ez] of the
    aligned mantissas, rounded. *)
Lemma SFadd_pos_sum (mx my : positive) (ex ey : Z) :
  bounded prec emax mx ex = true -> bounded prec emax my ey = true ->
  let ez := Z.min ex ey in
  exists S : positive,
    SFadd prec emax (S754_finite false mx ex) (S754_finite false my ey) =
      binary_round_aux prec emax false (Zpos S) ez loc_Exact /\
    Zpos S = Zpos mx * 2 ^ (ex - ez) + Zpos my * 2 ^ (ey - ez) /\
    Zpos S * 2 ^ (ez + 1074) = V mx ex + V my ey /\
    (53 <= D S \/ ez = -1074).
Proof.
  intros Bx By ez. apply bounded_inv in Bx, By.
  destruct Bx as (Hex & Hdx & Hnx), By as (Hey' & Hdy & Hny).
  unfold SFadd. fold ez.
  assert (Hzx : ez <= ex) by lia. assert (Hzy : ez <= ey) by lia.
  pose proof (shl_align_value mx ex ez Hzx) as HX.
  pose proof (shl_align_value my ey ez Hzy) as HY.
  destruct (shl_align mx ex ez) as [X eX]. destruct (shl_align my ey ez) as [Y eY].
  cbn [fst] in HX, HY. cbn [fst cond_Zopp binary_normalize Z.add].
  set (S := (X + Y)%positive).
  assert (HS : Zpos S = Zpos X + Zpos Y) by reflexivity.
  assert (HVx : Zpos X * 2 ^ (ez + 1074) = V mx ex).
  { unfold V. rewrite HX, <- Z.mul_assoc, <- Z.pow_add_r by lia.
    replace (ex - ez + (ez + 1074)) with (ex + 1074) by lia. reflexivity. }
  assert (HVy : Zpos Y * 2 ^ (ez + 1074) = V my ey).
  { unfold V. rewrite HY, <- Z.mul_assoc, <- Z.pow_add_r by lia.
    replace (ey - ez + (ez + 1074)) with (ey + 1074) by lia. reflexivity. }
  (* the sum has 53 digits, or sits at the lowest exponent *)
  assert (Hdig : 53 <= D S \/ ez = -1074).
  { destruct (Z_le_gt_dec ex ey) as [Hle|Hgt].
    - destruct Hnx as [Hn|Hn]; [left | right; lia].
      rewrite <- Hn. apply digits_le.
      assert (Zpos mx <= Zpos S); [|lia].
      rewrite HS, HX. replace (ex - ez) with 0 by lia. rewrite Z.pow_0_r. lia.
    - destruct Hny as [Hn|Hn]; [left | right; lia].
      rewrite <- Hn. apply digits_le.
      assert (Zpos my <= Zpos S); [|lia].
      rewrite HS, HY. replace (ey - ez) with 0 by lia. rewrite Z.pow_0_r. lia. }
  (* no left shift *)
  unfold binary_round. change (Zpos (digits2_pos S)) with (D S). rewrite fexp_eq.
  assert (Hsh : shl_align S ez (Z.max (D S + ez - 53) (-1074)) = (S, ez)).
  { unfold shl_align.
    destruct (Z.max (D S + ez - 53) (-1074) - ez) as [|p|p] eqn:E; try reflexivity. lia. }
  rewrite Hsh. exists S. split; [reflexivity|]. split; [now rewrite HS, HX, HY|].
  split; [rewrite HS; lia | exact Hdig].
Qed.

(** Adding an increment that is not astronomically smaller than the
    accumulator: the sum is finite, strictly larger, and at most two
    increments above. *)
Lemma SFadd_pos_bounds (mx my : positive) (ex ey : Z) :
  bounded prec emax mx ex = true -> bounded prec emax my ey = true ->
  ey <= 800 -> V mx ex <= 2 ^ 51 * V my ey ->
  exists (m : positive) (e : Z),
    SFadd prec emax (S754_finite false mx ex) (S754_finite false my ey) = S754_finite false m e /\
    V mx ex < V m e <= V mx ex + 2 * V my ey.
Proof.
  intros Bx By Hey Hv.
  destruct (SFadd_pos_sum mx my ex ey Bx By) as (S & Hadd & _ & HSU & Hdig).
  apply bounded_inv in Bx, By.
  destruct Bx as (Hex & Hdx & Hnx), By as (Hey' & Hdy & Hny).
  set (ez := Z.min ex ey) in *.
  set (U := 2 ^ (ez + 1074)) in *.
  assert (HU : 0 < U) by (apply pow2_pos; lia).
  pose proof (digits_bounds S) as [HSl HSu].
  pose proof (V_upper my ey ltac:(lia) Hdy) as HVyu.
  pose proof (V_lower my ey ltac:(lia)) as HVyl.
  destruct (binary_round_aux_shape S ez ltac:(lia) Hdig) as (m & e & m1 & Hr & Hm1 & He & HV).
  set (k := Z.max (D S - 53) 0) in *.
  assert (Hk : 0 <= k) by lia.
  pose proof (pow2_pos k Hk) as Hpk.
  fold U in HV. fold (V m e) in HV.
  (* one unit of the result is at most the increment *)
  assert (Hunit : 2 ^ k * U <= V my ey).
  { destruct (Z_le_gt_dec (D S) 53) as [Hd|Hd].
    - replace k with 0 by lia. rewrite Z.pow_0_r, Z.mul_1_l.
      eapply Z.le_trans; [|exact HVyl]. apply Z.pow_le_mono_r; lia.
    - assert (Ek : 2 ^ k * 2 ^ 52 = 2 ^ (D S - 1)).
      { rewrite <- Z.pow_add_r by lia. f_equal. lia. }
      assert (H1 : 2 ^ k * 2 ^ 52 * U <= Zpos S * U)
        by (rewrite Ek; apply Z.mul_le_mono_nonneg_r; lia).
      change (2 ^ 52) with 4503599627370496 in H1.
      change (2 ^ 51) with 2251799813685248 in Hv.
      nia. }
  (* so the result is far from overflow *)
  assert (Hfin : e <= 971).
  { assert (Hlt : 2 ^ (k + (ez + 1074)) < 2 ^ (ey + 1127)).
    { rewrite (Z.pow_add_r 2 k (ez + 1074)) by lia. fold U. lia. }
    apply Z.pow_lt_mono_r_iff in Hlt; lia. }
  replace (e <=? emax - prec) with true in Hr
    by (symmetry; apply Z.leb_le; change (emax - prec) with 971; lia).
  exists m, e. split; [now rewrite Hadd|].
  pose proof (Z.mul_div_le (Zpos S) (2 ^ k) Hpk) as Hlo.
  pose proof (Z.mul_succ_div_gt (Zpos S) (2 ^ k) Hpk) as Hhi.
  assert (Hval : Zpos S - 2 ^ k < m1 * 2 ^ k <= Zpos S + 2 ^ k) by nia.
  rewrite HV. split.
  - assert ((Zpos S - 2 ^ k) * U < m1 * 2 ^ k * U)
      by (apply Z.mul_lt_mono_pos_r; lia).
    nia.
  - assert (m1 * 2 ^ k * U <= (Zpos S + 2 ^ k) * U)
      by (apply Z.mul_le_mono_nonneg_r; lia).
    nia.
Qed.

(** Adding any positive finite float never decreases a positive finite
    float: the sum is at least as large, or overflows to [+infinity]. *)
Lemma SFadd_pos_nondecreasing (mx my : positive) (ex ey : Z) :
  bounded prec emax mx ex = true -> bounded prec emax my ey = true ->
  SFadd prec emax (S754_finite false mx ex) (S754_finite false my ey) = S754_infinity false \/
  exists (m : positive) (e : Z),
    SFadd prec emax (S754_finite false mx ex) (S754_finite false my ey) = S754_finite false m e /\
    V mx ex <= V m e.
Proof.
  intros Bx By.
  destruct (SFadd_pos_sum mx my ex ey Bx By) as (S & Hadd & HS & HSU & Hdig).
  apply bounded_inv in Bx, By.
  destruct Bx as (Hex & Hdx & Hnx), By as (Hey' & Hdy & Hny).
  set (ez := Z.min ex ey) in *.
  set (U := 2 ^ (ez + 1074)) in *.
  assert (HU : 0 < U) by (apply pow2_pos; lia).
  pose proof (digits_bounds S) as [HSl HSu].
  pose proof (digits_bounds mx) as [Hxl Hxu].
  destruct (binary_round_aux_shape S ez ltac:(lia) Hdig) as (m & e & m1 & Hr & Hm1 & He & HV).
  set (k := Z.max (D S - 53) 0) in *.
  assert (Hk : 0 <= k) by lia.
  pose proof (pow2_pos k Hk) as Hpk.
  rewrite Hadd, Hr. destruct (e <=? emax - prec); [right | now left].
  exists m, e. split; [reflexivity|].
  fold U in HV. fold (V m e) in HV. rewrite HV.
  set (X := Zpos mx * 2 ^ (ex - ez)) in *.
  assert (Hpx : 0 < 2 ^ (ex - ez)) by (apply pow2_pos; lia).
  assert (HVx : V mx ex = X * U).
  { unfold V, X, U. rewrite <- Z.mul_assoc, <- Z.pow_add_r by lia.
    replace (ex - ez + (ez + 1074)) with (ex + 1074) by lia. reflexivity. }
  assert (HXS : X <= Zpos S) by (rewrite HS; fold X; nia).
  (* the quotient, scaled back, is still at least the first summand *)
  assert (Hfloor : X <= Zpos S / 2 ^ k * 2 ^ k).
  { destruct (Z_le_gt_dec k (ex - ez)) as [Hle|Hgt].
    - (* the first summand is a multiple of [2^k] *)
      assert (EX : X = Zpos mx * 2 ^ (ex - ez - k) * 2 ^ k).
      { unfold X. rewrite <- Z.mul_assoc, <- Z.pow_add_r by lia.
        replace (ex - ez - k + k) with (ex - ez) by lia. reflexivity. }
      rewrite EX. apply Z.mul_le_mono_nonneg_r; [lia|].
      apply Z.div_le_lower_bound; [exact Hpk|].
      rewrite Z.mul_comm, <- EX. exact HXS.
    - (* the sum reached a higher binade, above the first summand *)
      assert (EP : 2 ^ (D S - 1) = 2 ^ 52 * 2 ^ k).
      { rewrite <- Z.pow_add_r by lia. f_equal. lia. }
      assert (Hq : 2 ^ 52 <= Zpos S / 2 ^ k).
      { apply Z.div_le_lower_bound; [exact Hpk|]. rewrite Z.mul_comm, <- EP. exact HSl. }
      assert (HX : X < 2 ^ (D S - 1)).
      { unfold X.
        assert (H1 : Zpos mx * 2 ^ (ex - ez) < 2 ^ 53 * 2 ^ (ex - ez)).
        { apply Z.mul_lt_mono_pos_r; [exact Hpx|].
          eapply Z.lt_le_trans; [exact Hxu|]. apply Z.pow_le_mono_r; lia. }
        rewrite <- Z.pow_add_r in H1 by lia.
        eapply Z.lt_le_trans; [exact H1|]. apply Z.pow_le_mono_r; lia. }
      rewrite EP in HX.
      assert (2 ^ 52 * 2 ^ k <= Zpos S / 2 ^ k * 2 ^ k)
        by (apply Z.mul_le_mono_nonneg_r; lia).
      lia. }
  rewrite HVx. apply Z.mul_le_mono_nonneg_r; [lia|].
  eapply Z.le_trans; [exact Hfloor|].
  apply Z.mul_le_mono_nonneg_r; lia.
Qed.

Lemma SFltb_of_V (mx my : positive) (ex ey : Z) :
  bounded prec emax mx ex = true -> bounded prec emax my ey = true ->
  V mx ex < V my ey ->
  SFltb (S754_finite false mx ex) (S754_finite false my ey) = true.
Proof.
  intros Bx By Hv. apply bounded_inv in Bx, By.
  destruct Bx as (Hex & Hdx & Hnx), By as (Hey & Hdy & Hny).
  unfold SFltb, SFcompare.
  change (Pos.compare_cont Eq mx my) with (Pos.compare mx my).
  destruct (Z.compare_spec ex ey) as [E|L|G].
  - subst ey. destruct (Pos.compare_spec mx my) as [E|L|G]; [|reflexivity|].
    + subst my. lia.
    + exfalso. unfold V in Hv.
      assert (Zpos my * 2 ^ (ex + 1074) <= Zpos mx * 2 ^ (ex + 1074)); [|lia].
      apply Z.mul_le_mono_nonneg_r; [apply Z.lt_le_incl, pow2_pos|]; lia.
  - reflexivity.
  - exfalso. destruct Hnx as [Hn|Hn]; [|lia].
    pose proof (digits_bounds mx) as [Hl _]. rewrite Hn in Hl.
    pose proof (V_upper my ey ltac:(lia) Hdy) as Hu.
    assert (H1 : 2 ^ (ey + 1127) <= 2 ^ (52 + (ex + 1074))) by (apply Z.pow_le_mono_r; lia).
    rewrite (Z.pow_add_r 2 52 (ex + 1074)) in H1 by lia.
    assert (H2 : 2 ^ 52 * 2 ^ (ex + 1074) <= V mx ex).
    { unfold V. apply Z.mul_le_mono_nonneg_r; [apply Z.lt_le_incl, pow2_pos; lia|].
      exact Hl. }
    lia.
Qed.

Lemma SFleb_of_V (mx my : positive) (ex ey : Z) :
  bounded prec emax mx ex = true -> bounded prec emax my ey = true ->
  V mx ex <= V my ey ->
  SFleb (S754_finite false mx ex) (S754_finite false my ey) = true.
Proof.
  intros Bx By Hv. apply bounded_inv in Bx, By.
  destruct Bx as (Hex & Hdx & Hnx), By as (Hey & Hdy & Hny).
  unfold SFleb, SFcompare.
  change (Pos.compare_cont Eq mx my) with (Pos.compare mx my).
  destruct (Z.compare_spec ex ey) as [E|L|G].
  - subst ey. destruct (Pos.compare_spec mx my) as [E|L|G]; [reflexivity|reflexivity|].
    exfalso. unfold V in Hv.
    assert (Zpos my * 2 ^ (ex + 1074) < Zpos mx * 2 ^ (ex + 1074)); [|lia].
    apply Z.mul_lt_mono_pos_r; [apply pow2_pos|]; lia.
  - reflexivity.
  - exfalso. destruct Hnx as [Hn|Hn]; [|lia].
    pose proof (digits_bounds mx) as [Hl _]. rewrite Hn in Hl.
    pose proof (V_upper my ey ltac:(lia) Hdy) as Hu.
    assert (H1 : 2 ^ (ey + 1127) <= 2 ^ (52 + (ex + 1074))) by (apply Z.pow_le_mono_r; lia).
    rewrite (Z.pow_add_r 2 52 (ex + 1074)) in H1 by lia.
    assert (H2 : 2 ^ 52 * 2 ^ (ex + 1074) <= V mx ex).
    { unfold V. apply Z.mul_le_mono_nonneg_r; [apply Z.lt_le_incl, pow2_pos; lia|].
      exact Hl. }
    lia.
Qed.

Local Open Scope float_scope.

Lemma bounded_Prim2SF (x : float) (s : bool) (m : positive) (e : Z) :
  Prim2SF x = S754_finite s m e -> bounded prec emax m e = true.
Proof. intros H. pose proof (Prim2SF_valid x) as Hv. now rewrite H in Hv. Qed.

Lemma add_small_positive (x d : float) :
  accumulated x -> small_positive d -> (Vf x <= 2 ^ 51 * Vf d)%Z ->
  accumulated (x + d) /\
  (Vf x < Vf (x + d) <= Vf x + 2 * Vf d)%Z /\
  (x <? x + d) = true.
Proof.
  intros Hx (md & ed & Hd & Hed) Hv.
  pose proof (bounded_Prim2SF _ _ _ _ Hd) as Bd.
  unfold Vf in *. rewrite ltb_spec, add_spec. unfold accumulated. rewrite add_spec.
  rewrite Hd in *. unfold SF64add.
  destruct Hx as [Hx | (mx & ex & Hx)]; rewrite Hx in *.
  - cbn [SFadd]. split; [right; eauto|]. split; [|reflexivity].
    pose proof (V_lower md ed ltac:(apply bounded_inv in Bd; lia)) as Hl.
    pose proof (pow2_pos (ed + 1074) ltac:(apply bounded_inv in Bd; lia)). lia.
  - pose proof (bounded_Prim2SF _ _ _ _ Hx) as Bx.
    destruct (SFadd_pos_bounds mx md ex ed Bx Bd Hed Hv) as (m & e & Hadd & Hlt).
    assert (Bm : bounded prec emax m e = true).
    { apply (bounded_Prim2SF (x + d) false). rewrite add_spec, Hx, Hd. exact Hadd. }
    rewrite Hadd. split; [right; eauto|]. split; [exact Hlt|].
    apply SFltb_of_V; [assumption | assumption | lia].
Qed.

(** Whatever the accumulator has grown to, one more increment never makes
    it smaller; at worst it stays, or overflows to [+infinity] and stays
    there. *)
Lemma add_nonnegative (x d : float) :
  nonnegative x -> positive_finite d ->
  nonnegative (x + d) /\ (x <=? x + d) = true.
Proof.
  intros Hx (md & ed & Hd).
  pose proof (bounded_Prim2SF _ _ _ _ Hd) as Bd.
  rewrite leb_spec. unfold nonnegative. rewrite add_spec, Hd. unfold SF64add.
  destruct Hx as [Hx | [(mx & ex & Hx) | Hx]]; rewrite Hx.
  - cbn [SFadd]. split; [right; left; eauto | reflexivity].
  - pose proof (bounded_Prim2SF _ _ _ _ Hx) as Bx.
    destruct (SFadd_pos_nondecreasing mx md ex ed Bx Bd) as [Hinf | (m & e & Hadd & Hle)].
    + rewrite Hinf. split; [right; right; reflexivity | reflexivity].
    + assert (Bm : bounded prec emax m e = true).
      { apply (bounded_Prim2SF (x + d) false). rewrite add_spec, Hx, Hd. exact Hadd. }
      rewrite Hadd. split; [right; left; eauto|].
      apply SFleb_of_V; assumption.
  - cbn [SFadd]. split; [right; right; reflexivity | reflexivity].
Qed.

End FloatAdd.

(** ** The E words are running sums *)

Module Extrusion.

Lemma running_app (e : float) (a b : list float) :
  running e (a ++ b) = running e a ++ running (final e a) b.
Proof.
  revert e. induction a as [|d a IH]; intros e; simpl; [reflexivity|].
  now rewrite IH.
Qed.

Lemma final_app (e : float) (a b : list float) : final e (a ++ b) = final (final e a) b.
Proof. unfold final. apply fold_left_app. Qed.

Lemma running_length (e : float) (incs : list float) :
  List.length (running e incs) = List.length incs.
Proof. revert e. induction incs as [|d incs IH]; intros e; simpl; [reflexivity|]. now rewrite IH. Qed.

Lemma no_lead_dbl_app (a b : ostream) : no_lead_dbl a -> no_lead_dbl b -> no_lead_dbl (a ++ b).
Proof. destruct a as [|[k|d|n] a]; simpl; auto. Qed.

Lemma E_values_app (a b : ostream) :
  no_lead_dbl b -> E_values (a ++ b) = E_values a ++ E_values b.
Proof.
  intros Hb. induction a as [|i a IH]; [reflexivity|].
  destruct i as [k|d|n]; cbn [app E_values]; try exact IH.
  destruct a as [|[k'|d'|n'] a]; cbn [app] in *.
  - destruct b as [|[k'|d'|n'] b]; try reflexivity. contradiction.
  - exact IH.
  - destruct (String.eqb k " E"); [cbn [app]; f_equal|]; exact IH.
  - exact IH.
Qed.

Section Run.
Context {X St : Type}.
Variable step : St -> X -> ostream * St.
Variable acc : St -> float.
Variable incs : X -> list float.
Hypothesis step_lead : forall st x, no_lead_dbl (fst (step st x)).
Hypothesis step_E : forall st x, E_values (fst (step st x)) = running (acc st) (incs x).
Hypothesis step_acc : forall st x, acc (snd (step st x)) = final (acc st) (incs x).

Lemma run_lead (xs : list X) : forall st, no_lead_dbl (fst (run step st xs)).
Proof.
  induction xs as [|x rest IH]; intros st; simpl; [exact I|].
  apply no_lead_dbl_app; [apply step_lead | apply IH].
Qed.

Lemma run_E (xs : list X) : forall st,
  E_values (fst (run step st xs)) = running (acc st) (flat_map incs xs) /\
  acc (snd (run step st xs)) = final (acc st) (flat_map incs xs).
Proof.
  induction xs as [|x rest IH]; intros st; simpl; [split; reflexivity|].
  destruct (IH (snd (step st x))) as [IE IA].
  rewrite E_values_app by apply run_lead.
  rewrite running_app, final_app, step_E, IE, IA, step_acc. split; reflexivity.
Qed.
End Run.

Lemma flat_map_const {X : Type} (d : float) (xs : list X) :
  flat_map (fun _ => [d]) xs = repeat d (List.length xs).
Proof. induction xs as [|x xs IH]; simpl; [reflexivity|]. now rewrite IH. Qed.

Lemma contour_out_E (height e : float) (contour : list Vector3) :
  E_values (fst (contour_out height e contour)) =
  running e (contour_increments contour) /\
  snd (contour_out height e contour) = final e (contour_increments contour).
Proof.
  destruct contour as [|c0 rest]; [split; reflexivity|].
  unfold contour_increments. cbn [List.length]. rewrite Nat.sub_succ, Nat.sub_0_r.
  rewrite <- (flat_map_const 0.1 rest).
  cbn [contour_out fst snd].
  destruct (run_E move_out (fun e => e) (fun _ => [0.1])) with (xs := rest) (st := e)
    as [HE HA]; try reflexivity.
  split; [|exact HA].
  rewrite E_values_app by (apply run_lead; reflexivity).
  rewrite HE. reflexivity.
Qed.

Lemma contour_out_lead (height e : float) (contour : list Vector3) :
  no_lead_dbl (fst (contour_out height e contour)).
Proof. destruct contour; exact I. Qed.

Lemma infill_out_E (height e : float) (line : list Vector3) :
  E_values (fst (infill_out height e line)) = running e (line_increments line) /\
  snd (infill_out height e line) = final e (line_increments line).
Proof. destruct line as [|l0 [|l1 rest]]; split; reflexivity. Qed.

Lemma infill_out_lead (height e : float) (line : list Vector3) :
  no_lead_dbl (fst (infill_out height e line)).
Proof. destruct line as [|l0 [|l1 rest]]; exact I. Qed.

Lemma layer_out_E (st : float * nat) (layer : Layer) :
  E_values (fst (layer_out st layer)) = running (fst st) (layer_increments layer) /\
  fst (snd (layer_out st layer)) = final (fst st) (layer_increments layer).
Proof.
  destruct st as [e i]. unfold layer_out, layer_increments. cbn [fst snd].
  destruct (run_E (contour_out (height layer)) (fun e => e) contour_increments)
    with (xs := contours layer) (st := e) as [CE CA];
    try (intros; apply contour_out_E); try (intros; apply contour_out_lead).
  destruct (run_E (infill_out (height layer)) (fun e => e) line_increments)
    with (xs := infill layer)
         (st := snd (run (contour_out (height layer)) e (contours layer)))
    as [IE IA];
    try (intros; apply infill_out_E); try (intros; apply infill_out_lead).
  rewrite running_app, final_app, <- CA, <- IE, <- IA, <- CE.
  split; [|reflexivity].
  change (layer_items i (height layer) ++ ?a ++ ?b)
    with (layer_items i (height layer) ++ (a ++ b)).
  rewrite E_values_app.
  - rewrite E_values_app; [reflexivity|].
    apply run_lead. intros; apply infill_out_lead.
  - apply no_lead_dbl_app; apply run_lead; intros;
      [apply contour_out_lead | apply infill_out_lead].
Qed.

Lemma layer_out_lead (st : float * nat) (layer : Layer) :
  no_lead_dbl (fst (layer_out st layer)).
Proof. destruct st as [e i]. exact I. Qed.

(** The E words of a whole run are the running sums of its increments,
    starting from [0.0]. *)
Lemma E_values_stream (fuel : nat) (s : SimpleSlicer) (gcode : ostream) :
  generateGCode_stream fuel s = Returns gcode ->
  exists layers, slice fuel s = Returns layers /\
                 E_values gcode = running 0 (increments layers).
Proof.
  intros H. apply Serializer.generateGCode_stream_out in H.
  destruct H as (layers & lastLayer & Hs & _ & ->).
  exists layers. split; [exact Hs|].
  destruct (run_E layer_out fst layer_increments)
    with (xs := layers) (st := (0, 0%nat)) as [HE _];
    try (intros; apply layer_out_E); try (intros; apply layer_out_lead).
  rewrite E_values_app.
  - rewrite E_values_app by exact I. rewrite HE.
    change (E_values (gcode_header s)) with (@nil float).
    change (E_values (trailer_items lastLayer)) with (@nil float).
    now rewrite app_nil_r.
  - apply no_lead_dbl_app; [|exact I]. apply run_lead. intros; apply layer_out_lead.
Qed.

End Extrusion.

(** ** The accumulator keeps growing *)

Module Growth.
Import FloatAdd.

Lemma SFltb_trans (a b c : spec_float) :
  SFltb a b = true -> SFltb b c = true -> SFltb a c = true.
Proof.
  unfold SFltb.
  destruct a as [sa|sa| |sa ma ea], b as [sb|sb| |sb mb eb], c as [sc|sc| |sc mc ec];
    simpl; try discriminate; try reflexivity; sign_cases;
    try discriminate; try reflexivity; intros H1 H2; cmp_cases.
Qed.

Lemma float_lt_trans (a b c : float) : float_lt a b -> float_lt b c -> float_lt a c.
Proof. unfold float_lt. rewrite !ltb_spec. apply SFltb_trans. Qed.

Lemma small_positive_increment (d : float) : is_increment d -> small_positive d.
Proof.
  intros [-> | ->].
  - exists 7205759403792794%positive, (-56)%Z. split; [reflexivity | lia].
  - exists 7205759403792794%positive, (-57)%Z. split; [reflexivity | lia].
Qed.

(** In units of [2^-1074]: 0.1 is twice 0.05. *)
Lemma Vf_increment (d : float) :
  is_increment d -> (Vf 0.05 <= Vf d <= Vf 0.1 /\ Vf 0.1 = 2 * Vf 0.05 /\ 0 < Vf 0.05)%Z.
Proof.
  assert (E1 : Vf 0.1 = V 7205759403792794 (-56)) by reflexivity.
  assert (E2 : Vf 0.05 = V 7205759403792794 (-57)) by reflexivity.
  assert (H : (V 7205759403792794 (-56) = 2 * V 7205759403792794 (-57))%Z).
  { unfold V. change (-56 + 1074)%Z with (Z.succ 1017). change (-57 + 1074)%Z with 1017%Z.
    rewrite Z.pow_succ_r by lia. lia. }
  assert (P : (0 < V 7205759403792794 (-57))%Z).
  { unfold V. change (-57 + 1074)%Z with 1017%Z.
    pose proof (pow2_pos 1017 ltac:(lia)). lia. }
  intros [-> | ->]; rewrite ?E1, ?E2; lia.
Qed.

Lemma accumulated_zero : accumulated 0 /\ Vf 0 = 0%Z.
Proof. split; [left|]; reflexivity. Qed.

(** After [k] increments the accumulator is at most [2 * k * 0.1]; while
    [k] stays below [2^49] the next increment makes it strictly larger. *)
Lemma running_sorted (incs : list float) : forall (e : float) (k : Z),
  Forall is_increment incs -> accumulated e ->
  (0 <= k)%Z -> (Vf e <= 2 * k * Vf 0.1)%Z ->
  (k + Z.of_nat (List.length incs) <= 2 ^ 49)%Z ->
  Sorted float_lt (e :: running e incs).
Proof.
  induction incs as [|d rest IH]; intros e k Hall He Hk Hv Hlen; simpl.
  - repeat constructor.
  - inversion Hall as [|? ? Hd Hrest]; subst.
    destruct (Vf_increment d Hd) as (Hdv & H01 & Hpos).
    cbn [List.length] in Hlen. rewrite Nat2Z.inj_succ in Hlen.
    assert (Hpre : (Vf e <= 2 ^ 51 * Vf d)%Z).
    { change (2 ^ 51)%Z with 2251799813685248%Z.
      change (2 ^ 49)%Z with 562949953421312%Z in Hlen. nia. }
    destruct (add_small_positive e d He (small_positive_increment d Hd) Hpre)
      as (Hacc & Hbound & Hlt).
    constructor.
    + apply (IH (e + d) (k + 1)%Z); try assumption; nia.
    + constructor. exact Hlt.
Qed.

Lemma increments_are_increments (layers : list Layer) :
  Forall is_increment (increments layers).
Proof.
  apply Forall_forall. intros d Hd. unfold increments in Hd.
  apply in_flat_map in Hd. destruct Hd as (layer & _ & Hd).
  unfold layer_increments in Hd. apply in_app_or in Hd. destruct Hd as [Hd | Hd];
    apply in_flat_map in Hd; destruct Hd as (pts & _ & Hd).
  - left. unfold contour_increments in Hd. now apply repeat_spec in Hd.
  - right. destruct pts as [|l0 [|l1 rest]]; simpl in Hd; try contradiction.
    destruct Hd as [<- | []]. reflexivity.
Qed.

Lemma positive_finite_increment (d : float) : is_increment d -> positive_finite d.
Proof.
  intros Hd. destruct (small_positive_increment d Hd) as (m & e & H & _).
  now exists m, e.
Qed.

Lemma running_le (incs : list float) : forall e : float,
  Forall is_increment incs -> nonnegative e ->
  Sorted float_le (e :: running e incs).
Proof.
  induction incs as [|d rest IH]; intros e Hall He; simpl.
  - repeat constructor.
  - inversion Hall as [|? ? Hd Hrest]; subst.
    destruct (add_nonnegative e d He (positive_finite_increment d Hd)) as (Hacc & Hle).
    constructor.
    + apply IH; assumption.
    + constructor. exact Hle.
Qed.

(** However long the toolpath, an E word is never below an earlier one. *)
Lemma running_nondecreasing (incs : list float) :
  Forall is_increment incs -> StronglySorted float_le (running 0 incs).
Proof.
  intros Hall.
  apply Sorted_StronglySorted; [exact FloatOrder.leb_trans|].
  assert (Hs : Sorted float_le (0 :: running 0 incs)).
  { apply running_le; [exact Hall | left; reflexivity]. }
  now inversion Hs.
Qed.

Lemma running_strictly_increasing (incs : list float) :
  Forall is_increment incs ->
  (Z.of_nat (List.length incs) <= 2 ^ 49)%Z ->
  StronglySorted float_lt (running 0 incs).
Proof.
  intros Hall Hlen.
  apply Sorted_StronglySorted; [exact float_lt_trans|].
  destruct accumulated_zero as [H0 V0].
  assert (Hs : Sorted float_lt (0 :: running 0 incs)).
  { apply (running_sorted incs 0 0%Z); try assumption; try lia. }
  now inversion Hs.
Qed.

End Growth.

(** C4, as the code has it.  Within one [generateGCode] call the
    accumulator [e] starts at 0, grows by [e += 0.1] for each contour
    segment after the first point of a contour and by [e += 0.05] for each
    emitted infill line, and is never reset between layers or contours: the
    E values handed to the stream are the running sums, from 0, of the
    increments of the whole toolpath.  An E value is never below an earlier
    one, and the E values are strictly increasing as long as there are at
    most [2^49] of them.  A fresh call starts again from 0.  (The text shows
    six significant digits of each.) *)
Theorem extrusion_accumulator (fuel : nat) (s : SimpleSlicer) (gcode : ostream) :
  generateGCode_stream fuel s = Returns gcode ->
  exists layers,
    slice fuel s = Returns layers /\
    E_values gcode = running 0 (increments layers) /\
    Forall is_increment (increments layers) /\
    StronglySorted float_le (E_values gcode) /\
    ((Z.of_nat (List.length (E_values gcode)) <= 2 ^ 49)%Z ->
     StronglySorted float_lt (E_values gcode)).
Proof.
  intros H. destruct (Extrusion.E_values_stream fuel s gcode H) as (layers & Hs & HE).
  pose proof (Growth.increments_are_increments layers) as Hincs.
  exists layers. split; [exact Hs|]. split; [exact HE|]. split; [exact Hincs|].
  rewrite HE, Extrusion.running_length. split.
  - apply Growth.running_nondecreasing. exact Hincs.
  - intros Hlen. apply Growth.running_strictly_increasing; assumption.
Qed.

(** The theorem on the cube sliced with [layerHeight = 2]: 58 extrusion
    moves, with strictly increasing E words. *)
Lemma extrusion_accumulator_cube :
  exists gcode,
    generateGCode_stream 20 cube_slicer_2 = Returns gcode /\
    List.length (E_values gcode) = 58%nat /\
    StronglySorted float_lt (E_values gcode).
Proof.
  destruct (slice_cube_2_six 20 ltac:(lia)) as (l & rest & Hslice & _).
  destruct (generateGCode_stream_returns _ _ _ _ Hslice) as (gcode & Hg).
  exists gcode. split; [exact Hg|].
  destruct (extrusion_accumulator 20 cube_slicer_2 gcode Hg)
    as (layers & Hs & HE & _ & _ & Hsorted).
  assert (Hlen : List.length (E_values gcode) = 58%nat).
  { rewrite HE, Extrusion.running_length.
    vm_compute in Hs. injection Hs as <-. vm_compute. reflexivity. }
  split; [exact Hlen|].
  apply Hsorted. rewrite Hlen. vm_compute. discriminate.
Defined.

(** ** The E words as they are printed *)

Lemma leaves_at_stops (n : nat) : forall start step bound : float,
  leaves_at n start step bound = true -> stops start step bound n.
Proof.
  induction n as [|n IH]; intros start step bound H; cbn [leaves_at] in H.
  - apply stops_O. now destruct (start <=? bound).
  - destruct (start <=? bound) eqn:E; [|discriminate].
    apply stops_S; [exact E | now apply IH].
Qed.

Lemma dense_infill_stops : infill_stops dense_slicer dense_lines.
Proof. apply leaves_at_stops. vm_compute. reflexivity. Qed.

Lemma line_increments_infill_lines (bbox : list float) (density z : float) (m : nat) :
  flat_map line_increments (infill_lines bbox density z m) = repeat 0.05 m.
Proof.
  unfold infill_lines.
  assert (H : forall l : list nat,
            flat_map line_increments
              (map (fun i => infill_line (at_ bbox 1) (at_ bbox 4) z
                                         (plane (at_ bbox 0) (infill_step density) i)) l) =
            repeat 0.05 (List.length l)).
  { induction l as [|i rest IH]; [reflexivity|].
    cbn [map flat_map List.length repeat infill_line line_increments app]. now rewrite IH. }
  now rewrite H, length_seq.
Qed.

Lemma nth_error_running_repeat (d : float) (n : nat) : forall (e : float) (i : nat),
  (i < n)%nat -> nth_error (running e (repeat d n)) i = Some (plane e d (S i)).
Proof.
  induction n as [|n IH]; intros e i Hi; [lia|].
  cbn [repeat running]. destruct i as [|i]; [reflexivity|].
  cbn [nth_error]. rewrite IH by lia. now rewrite (plane_shift e d (S i)).
Qed.

(** The toolpath of [dense_slicer]: one layer, at -5, whose contour has
    ten points and whose infill has 200001 lines. *)
Lemma dense_slice (fuel : nat) :
  (dense_lines + 2 < fuel)%nat ->
  exists l, slice fuel dense_slicer = Returns [l] /\
            increments [l] = repeat 0.1 9 ++ repeat 0.05 dense_lines.
Proof.
  intros Hfuel.
  assert (Hstop : heights_stop dense_slicer 1) by (apply leaves_at_stops; reflexivity).
  assert (Hcalled : infill_stops_if_called dense_slicer 1 dense_lines)
    by (intros i _ _; exact dense_infill_stops).
  pose proof (slice_stops dense_slicer 1 dense_lines fuel Hstop Hcalled ltac:(lia)) as Hs.
  cbn [seq map] in Hs. eexists. split; [exact Hs|].
  unfold increments. cbn [flat_map]. rewrite app_nil_r. unfold layer_increments.
  rewrite layer_at_contours, layer_at_infill.
  assert (Hscan : exists p ps, scan (triangles dense_slicer) (layer_height dense_slicer 0) = p :: ps /\
                               List.length ps = 9%nat)
    by (vm_compute; eexists; eexists; split; reflexivity).
  destruct Hscan as (p & ps & -> & Hlen).
  cbn [flat_map]. rewrite app_nil_r, line_increments_infill_lines.
  unfold contour_increments. cbn [List.length]. now rewrite Nat.sub_succ, Nat.sub_0_r, Hlen.
Qed.

(** C4 fails as stated.  After [setLayerHeight(11)] and
    [setInfillDensity(4e6)] the cube is cut once, with 200001 infill lines.
    The accumulator passes 10000, where two values 0.05 apart have the
    same six significant digits: the E values with index 199992 and
    199993 differ, and both appear in the output as [E10000.1]. *)
Lemma printed_E_words_repeat :
  reachable dense_slicer /\
  exists gcode,
    generateGCode_stream (N.to_nat 200010) dense_slicer = Returns gcode /\
    nth_error (E_values gcode) (N.to_nat 199992) = Some 10000.099999994725 /\
    nth_error (E_values gcode) (N.to_nat 199993) = Some 10000.149999994725 /\
    (10000.099999994725 <? 10000.149999994725) = true /\
    nth_error (E_words gcode) (N.to_nat 199992) = Some (Some "10000.1"%string) /\
    nth_error (E_words gcode) (N.to_nat 199993) = Some (Some "10000.1"%string).
Proof.
  split; [repeat constructor|].
  assert (Hfuel : (dense_lines + 2 < N.to_nat 200010)%nat) by (apply Nat.ltb_lt; vm_compute; reflexivity).
  destruct (dense_slice _ Hfuel) as (l & Hs & Hincs).
  destruct (generateGCode_stream_returns _ _ _ _ Hs) as (gcode & Hg).
  destruct (Extrusion.E_values_stream _ _ _ Hg) as (layers & Hs' & HE).
  rewrite Hs in Hs'. injection Hs' as <-. rewrite Hincs in HE.
  assert (H1 : nth_error (E_values gcode) (N.to_nat 199992) = Some 10000.099999994725).
  { rewrite HE, Extrusion.running_app.
    rewrite nth_error_app2 by (rewrite Extrusion.running_length; apply Nat.leb_le; vm_compute; reflexivity).
    rewrite Extrusion.running_length, nth_error_running_repeat by (apply Nat.ltb_lt; vm_compute; reflexivity).
    vm_compute. reflexivity. }
  assert (H2 : nth_error (E_values gcode) (N.to_nat 199993) = Some 10000.149999994725).
  { rewrite HE, Extrusion.running_app.
    rewrite nth_error_app2 by (rewrite Extrusion.running_length; apply Nat.leb_le; vm_compute; reflexivity).
    rewrite Extrusion.running_length, nth_error_running_repeat by (apply Nat.ltb_lt; vm_compute; reflexivity).
    vm_compute. reflexivity. }
  exists gcode. split; [exact Hg|]. split; [exact H1|]. split; [exact H2|].
  split; [reflexivity|].
  unfold E_words. rewrite !nth_error_map, H1, H2. split; vm_compute; reflexivity.
Qed.

(** * More of the slicer

    The interpolation of [calculateIntersection], the shape of what [slice]
    returns, degenerate configurations, and what the two serializers
    write. *)

(** ** Non-finite values through the arithmetic

    Division by a zero never gives a finite number, and an infinity or NaN
    stays one through [+], [*] and [/]. *)

Module NonFinite.

Lemma is_finite_false (x : float) : is_finite x = false <-> SFnonfinite (Prim2SF x).
Proof.
  unfold is_finite, is_nan, is_infinity.
  rewrite !FloatAxioms.eqb_spec, abs_spec.
  change (Prim2SF infinity) with (S754_infinity false).
  destruct (Prim2SF x) as [s|s| |s m e]; simpl; try (destruct s); simpl; try tauto;
    try (split; [discriminate | contradiction]).
  - unfold SFeqb, SFcompare. cmp_cases; simpl; split; try discriminate; try contradiction.
  - unfold SFeqb, SFcompare. cmp_cases; simpl; split; try discriminate; try contradiction.
Qed.

Lemma is_nan_true (x : float) : is_nan x = true <-> Prim2SF x = S754_nan.
Proof.
  pose proof (FloatOrder.is_nan_spec x) as H.
  destruct (is_nan x); split; intros E; try reflexivity; try discriminate.
  - destruct (Prim2SF x) eqn:Ex; try reflexivity; exfalso;
      assert (F : true = false) by (apply H; discriminate); discriminate.
  - exfalso. destruct H as [H _]. apply H; [reflexivity | exact E].
Qed.

Lemma SFadd_nonfinite_l (a b : spec_float) :
  SFnonfinite a -> SFnonfinite (SFadd prec emax a b).
Proof. destruct a as [s|s| |s m e], b as [t|t| |t n f]; simpl; try tauto; destruct s, t; simpl; tauto. Qed.

Lemma SFadd_nonfinite_r (a b : spec_float) :
  SFnonfinite b -> SFnonfinite (SFadd prec emax a b).
Proof. destruct a as [s|s| |s m e], b as [t|t| |t n f]; simpl; try tauto; destruct s, t; simpl; tauto. Qed.

Lemma SFmul_nonfinite_l (a b : spec_float) :
  SFnonfinite a -> SFnonfinite (SFmul prec emax a b).
Proof. destruct a as [s|s| |s m e], b as [t|t| |t n f]; simpl; tauto. Qed.

Lemma SFdiv_nonfinite_l (a b : spec_float) :
  SFnonfinite a -> SFnonfinite (SFdiv prec emax a b).
Proof. destruct a as [s|s| |s m e], b as [t|t| |t n f]; simpl; tauto. Qed.

Lemma SFdiv_by_zero (a b : spec_float) :
  SFzero_or_nan b -> SFnonfinite (SFdiv prec emax a b).
Proof. destruct a as [s|s| |s m e], b as [t|t| |t n f]; simpl; tauto. Qed.

Lemma SFdiv_zero_by_zero (a b : spec_float) :
  SFzero_or_nan a -> SFzero_or_nan b -> SFdiv prec emax a b = S754_nan.
Proof. destruct a as [s|s| |s m e], b as [t|t| |t n f]; simpl; tauto. Qed.

(** [a - a] is a zero, or NaN when [a] is an infinity or NaN. *)
Lemma SFsub_diag (a : spec_float) : SFzero_or_nan (SFsub prec emax a a).
Proof.
  destruct a as [s|s| |s m e]; simpl; try (destruct s; exact I); try exact I.
  rewrite Z.sub_diag. exact I.
Qed.

Lemma sub_diag (a : float) : SFzero_or_nan (Prim2SF (a - a)).
Proof. rewrite sub_spec. apply SFsub_diag. Qed.

(** The interpolation [(a + t * d + q) / 2] of [calculateIntersection]
    when the parameter [t] is not finite. *)
Lemma interpolation_nonfinite_l (a t d q : float) :
  SFnonfinite (Prim2SF t) -> is_finite ((a + t * d + q) / 2) = false.
Proof.
  intros H. apply is_finite_false. rewrite div_spec. apply SFdiv_nonfinite_l.
  rewrite add_spec. apply SFadd_nonfinite_l.
  rewrite add_spec. apply SFadd_nonfinite_r.
  rewrite mul_spec. now apply SFmul_nonfinite_l.
Qed.

Lemma interpolation_nonfinite_r (a t d q : float) :
  SFnonfinite (Prim2SF t) -> is_finite ((q + (a + t * d)) / 2) = false.
Proof.
  intros H. apply is_finite_false. rewrite div_spec. apply SFdiv_nonfinite_l.
  rewrite add_spec. apply SFadd_nonfinite_r.
  rewrite add_spec. apply SFadd_nonfinite_r.
  rewrite mul_spec. now apply SFmul_nonfinite_l.
Qed.

Lemma interpolation_nan_l (a t d q : float) :
  Prim2SF t = S754_nan -> is_nan ((a + t * d + q) / 2) = true.
Proof.
  intros H. apply is_nan_true.
  rewrite div_spec, add_spec, add_spec, mul_spec, H. unfold SF64mul, SF64add, SF64div.
  cbn [SFmul]. destruct (Prim2SF a); reflexivity.
Qed.

Lemma interpolation_nan_r (a t d q : float) :
  Prim2SF t = S754_nan -> is_nan ((q + (a + t * d)) / 2) = true.
Proof.
  intros H. apply is_nan_true.
  rewrite div_spec, add_spec, add_spec, mul_spec, H. unfold SF64mul, SF64add, SF64div.
  cbn [SFmul]. destruct (Prim2SF a), (Prim2SF q); reflexivity.
Qed.

(** With a horizontal first or second edge the parameter [t1] or [t2] is
    a quotient by zero. *)
Lemma horizontal_edge_non_finite (tri : Triangle) (z : float) :
  horizontal_edge tri -> non_finite_xy (calculateIntersection tri z).
Proof.
  intros Hh. unfold calculateIntersection, non_finite_xy. cbn [Vector3.x Vector3.y].
  destruct Hh as [E | E].
  - assert (Ht : SFnonfinite (Prim2SF ((z - Vector3.z (v1 tri)) /
                                        (Vector3.z (v2 tri) - Vector3.z (v1 tri))))).
    { rewrite div_spec. apply SFdiv_by_zero. rewrite <- E. apply sub_diag. }
    split; now apply interpolation_nonfinite_l.
  - assert (Ht : SFnonfinite (Prim2SF ((z - Vector3.z (v2 tri)) /
                                        (Vector3.z (v3 tri) - Vector3.z (v2 tri))))).
    { rewrite div_spec. apply SFdiv_by_zero. rewrite <- E. apply sub_diag. }
    split; now apply interpolation_nonfinite_r.
Qed.

End NonFinite.

(** X1.  [calculateIntersection] divides by the height differences of the
    edges v1-v2 and v2-v3.  When one of these two edges is horizontal the
    division is by zero: both X and Y of the returned point are an infinity
    or NaN, whatever the plane height; and when the plane is at the height
    of that edge they are NaN. *)
Theorem calculateIntersection_horizontal_edge (tri : Triangle) (z : float) :
  horizontal_edge tri ->
  non_finite_xy (calculateIntersection tri z) /\
  (on_horizontal_edge tri z ->
   is_nan (calculateIntersection tri z).(Vector3.x) = true /\
   is_nan (calculateIntersection tri z).(Vector3.y) = true).
Proof.
  intros Hh. split; [now apply NonFinite.horizontal_edge_non_finite|].
  unfold calculateIntersection. cbn [Vector3.x Vector3.y].
  intros [[E Ez] | [E Ez]].
  - assert (Ht : Prim2SF ((z - Vector3.z (v1 tri)) /
                          (Vector3.z (v2 tri) - Vector3.z (v1 tri))) = S754_nan).
    { rewrite div_spec. apply NonFinite.SFdiv_zero_by_zero.
      - rewrite Ez. apply NonFinite.sub_diag.
      - rewrite <- E. apply NonFinite.sub_diag. }
    split; now apply NonFinite.interpolation_nan_l.
  - assert (Ht : Prim2SF ((z - Vector3.z (v2 tri)) /
                          (Vector3.z (v3 tri) - Vector3.z (v2 tri))) = S754_nan).
    { rewrite div_spec. apply NonFinite.SFdiv_zero_by_zero.
      - rewrite Ez. apply NonFinite.sub_diag.
      - rewrite <- E. apply NonFinite.sub_diag. }
    split; now apply NonFinite.interpolation_nan_r.
Qed.

(** The theorem at a side triangle of the cube, whose first edge lies in
    the bottom face, cut at [z = 1] and at [z = -5]. *)
Lemma calculateIntersection_horizontal_edge_cube :
  let tri := nth 4 cube_triangles (mkTriangle (Vector3.mk 0 0 0) (Vector3.mk 0 0 0) (Vector3.mk 0 0 0)) in
  candidate tri 1 = true /\
  non_finite_xy (calculateIntersection tri 1) /\
  is_nan (calculateIntersection tri (-5)).(Vector3.x) = true.
Proof.
  intros tri. split; [reflexivity|].
  assert (Hh : horizontal_edge tri) by (left; reflexivity).
  split.
  - exact (proj1 (calculateIntersection_horizontal_edge tri 1 Hh)).
  - apply (proj2 (calculateIntersection_horizontal_edge tri (-5) Hh)).
    left. split; reflexivity.
Defined.

(** ** The contours of the built-in cube *)

(** Every triangle of the cube has its first or its second edge in a
    horizontal face or along a horizontal side. *)
Lemma cube_horizontal_edges : Forall horizontal_edge cube_triangles.
Proof.
  unfold cube_triangles, horizontal_edge.
  repeat first [apply Forall_nil | apply Forall_cons];
    cbn [v1 v2 v3 Vector3.z]; first [left; reflexivity | right; reflexivity].
Qed.

Lemma scan_non_finite (tris : list Triangle) (z : float) :
  Forall horizontal_edge tris -> Forall non_finite_xy (scan tris z).
Proof.
  intros H. rewrite scan_filter. apply Forall_forall. intros p Hp.
  apply in_map_iff in Hp. destruct Hp as (tri & <- & Hin).
  apply filter_In in Hin. destruct Hin as [Hin _].
  rewrite Forall_forall in H.
  apply NonFinite.horizontal_edge_non_finite. now apply H.
Qed.

(** X2.  The only mesh [parseSTL] ever installs is the cube, and each of
    its twelve triangles has a horizontal first or second edge.  So in
    whatever state the object is, with whatever layer height and density,
    every contour point of every layer [slice] returns has an X and a Y
    that are an infinity or NaN: no contour point of the program is a
    finite point. *)
Theorem reachable_contours_non_finite (fuel : nat) (s : SimpleSlicer) (layers : list Layer) :
  reachable s -> slice fuel s = Returns layers ->
  Forall (fun l => Forall (Forall non_finite_xy) (contours l)) layers.
Proof.
  intros Hr Hs.
  assert (Hh : Forall horizontal_edge (triangles s)).
  { destruct (reachable_triangles s Hr) as [-> | ->];
      [constructor | exact cube_horizontal_edges]. }
  apply slice_returns in Hs. destruct Hs as [_ Hl].
  apply Forall_forall. intros l Hin.
  apply In_nth_error in Hin. destruct Hin as (i & Hi).
  destruct (Hl i l Hi) as (m & -> & _).
  rewrite layer_at_contours.
  pose proof (scan_non_finite (triangles s) (layer_height s i) Hh) as Hsc.
  destruct (scan (triangles s) (layer_height s i)) as [|p ps]; constructor;
    [exact Hsc | constructor].
Qed.

(** The theorem on the cube sliced with [layerHeight = 2]: six layers, each
    with a contour. *)
Lemma reachable_contours_non_finite_cube :
  exists layers,
    reachable cube_slicer_2 /\
    slice 20 cube_slicer_2 = Returns layers /\
    map (fun l => List.length (concat (contours l))) layers = [10; 8; 8; 8; 8; 10]%nat /\
    Forall (fun l => Forall (Forall non_finite_xy) (contours l)) layers.
Proof.
  assert (Hr : reachable cube_slicer_2) by (repeat constructor).
  destruct slice_cube_2_returns as (layers & Hs).
  exists layers. split; [exact Hr|]. split; [exact Hs|]. split.
  - vm_compute in Hs. injection Hs as <-. vm_compute. reflexivity.
  - exact (reachable_contours_non_finite 20 cube_slicer_2 layers Hr Hs).
Defined.

(** ** The bounding box is tight *)

Module Attained.
Section Axis.
Variable g : Vector3 -> float.

Lemma tri_min_in (m : float) (tri : Triangle) :
  In (tri_min g m tri) [m; g tri.(v1); g tri.(v2); g tri.(v3)].
Proof.
  unfold tri_min.
  destruct (FloatOrder.std_min_cases m (std_min (g (v1 tri)) (std_min (g (v2 tri)) (g (v3 tri)))))
    as [-> | ->]; [now left|].
  destruct (FloatOrder.std_min_cases (g (v1 tri)) (std_min (g (v2 tri)) (g (v3 tri))))
    as [-> | ->]; [right; now left|].
  destruct (FloatOrder.std_min_cases (g (v2 tri)) (g (v3 tri))) as [-> | ->]; simpl; auto.
Qed.

Lemma tri_max_in (m : float) (tri : Triangle) :
  In (tri_max g m tri) [m; g tri.(v1); g tri.(v2); g tri.(v3)].
Proof.
  unfold tri_max.
  destruct (FloatOrder.std_max_cases m (std_max (g (v1 tri)) (std_max (g (v2 tri)) (g (v3 tri)))))
    as [-> | ->]; [now left|].
  destruct (FloatOrder.std_max_cases (g (v1 tri)) (std_max (g (v2 tri)) (g (v3 tri))))
    as [-> | ->]; [right; now left|].
  destruct (FloatOrder.std_max_cases (g (v2 tri)) (g (v3 tri))) as [-> | ->]; simpl; auto.
Qed.

(** A running extremum is its start or a coordinate that was seen. *)
Lemma fold_in (f : float -> Triangle -> float) :
  (forall m tri, In (f m tri) [m; g tri.(v1); g tri.(v2); g tri.(v3)]) ->
  forall (tris : list Triangle) (m : float),
    In (fold_left f tris m) (m :: map g (vertices tris)).
Proof.
  intros Hf tris. induction tris as [|tri rest IH]; intros m; [now left|].
  cbn [fold_left]. destruct (IH (f m tri)) as [E | Hin].
  - rewrite <- E. destruct (Hf m tri) as [H | [H | [H | [H | []]]]]; rewrite <- H.
    + now left.
    + right. simpl. auto.
    + right. simpl. auto.
    + right. simpl. auto.
  - right. unfold vertices. cbn [flat_map]. rewrite map_app. apply in_or_app. now right.
Qed.

Lemma fold_from_first (f : float -> Triangle -> float) (t0 : Triangle) (rest : list Triangle) :
  (forall m tri, In (f m tri) [m; g tri.(v1); g tri.(v2); g tri.(v3)]) ->
  In (fold_left f (t0 :: rest) (g t0.(v1))) (map g (vertices (t0 :: rest))).
Proof.
  intros Hf. destruct (fold_in f Hf (t0 :: rest) (g t0.(v1))) as [E | Hin]; [|exact Hin].
  rewrite <- E. simpl. now left.
Qed.

End Axis.
End Attained.

(** X3.  For a mesh with at least one triangle, each of the six scalars
    [getBoundingBox] returns is the coordinate, along its axis, of some
    vertex of the mesh: the box is never larger than the mesh, whatever the
    coordinates are (NaN included). *)
Theorem getBoundingBox_attained (s : SimpleSlicer) :
  triangles s <> [] ->
  let bbox := getBoundingBox s in
  let vs := vertices (triangles s) in
  In (at_ bbox 0) (map Vector3.x vs) /\ In (at_ bbox 3) (map Vector3.x vs) /\
  In (at_ bbox 1) (map Vector3.y vs) /\ In (at_ bbox 4) (map Vector3.y vs) /\
  In (at_ bbox 2) (map Vector3.z vs) /\ In (at_ bbox 5) (map Vector3.z vs).
Proof.
  intros Hne bbox vs. subst bbox vs.
  destruct (triangles s) as [|t0 rest] eqn:E; [contradiction|].
  rewrite (BoundingBox.getBoundingBox_cons s t0 rest E). unfold at_. cbn [nth].
  repeat split;
    first [ apply Attained.fold_from_first, Attained.tri_min_in
          | apply Attained.fold_from_first, Attained.tri_max_in ].
Qed.

(** The theorem on the cube: its bounds -5 and 5 are vertex coordinates. *)
Lemma getBoundingBox_attained_cube :
  triangles cube_slicer <> [] /\
  In (at_ (getBoundingBox cube_slicer) 2) (map Vector3.z (vertices (triangles cube_slicer))) /\
  at_ (getBoundingBox cube_slicer) 2 = -5.
Proof.
  assert (Hne : triangles cube_slicer <> []) by discriminate.
  split; [exact Hne|]. split; [|reflexivity].
  exact (proj1 (proj2 (proj2 (proj2 (proj2 (getBoundingBox_attained cube_slicer Hne)))))).
Defined.

(** X4.  Whatever sequence of [setLayerHeight], [setInfillDensity] and
    [parseSTL] calls the object has received, its mesh is empty or the
    cube, and [getBoundingBox] returns six zeros or [-5, -5, -5, 5, 5, 5]:
    the setters do not touch the mesh, and [parseSTL] installs the cube
    whatever it is given. *)
Theorem reachable_bounding_box (s : SimpleSlicer) :
  reachable s ->
  (triangles s = [] /\ getBoundingBox s = [0; 0; 0; 0; 0; 0]) \/
  (triangles s = cube_triangles /\ getBoundingBox s = [-5; -5; -5; 5; 5; 5]).
Proof.
  intros Hr. induction Hr as [|h s Hr IH|d s Hr IH|stlData s Hr IH].
  - left. split; reflexivity.
  - destruct IH as [[Ht Hb] | [Ht Hb]]; [left | right]; (split; [exact Ht|]);
      unfold getBoundingBox in *; cbn [triangles setLayerHeight]; exact Hb.
  - destruct IH as [[Ht Hb] | [Ht Hb]]; [left | right]; (split; [exact Ht|]);
      unfold getBoundingBox in *; cbn [triangles setInfillDensity]; exact Hb.
  - right. split; reflexivity.
Qed.

(** The theorem after [parseSTL] between two changes of configuration. *)
Lemma reachable_bounding_box_cube :
  let s := setInfillDensity 50 (snd (parseSTL "solid"%string (setLayerHeight 0.1 SimpleSlicer_new))) in
  reachable s /\ getBoundingBox s = [-5; -5; -5; 5; 5; 5].
Proof.
  intros s. assert (Hr : reachable s) by (repeat constructor).
  split; [exact Hr|].
  destruct (reachable_bounding_box s Hr) as [[Ht _] | [_ Hb]]; [discriminate Ht | exact Hb].
Defined.

(** ** The shape of the layers *)

Lemma scan_length (tris : list Triangle) (z : float) :
  (List.length (scan tris z) <= List.length tris)%nat.
Proof.
  rewrite scan_filter, length_map.
  induction tris as [|tri rest IH]; simpl; [lia|].
  destruct (candidate tri z); simpl; lia.
Qed.

Lemma layer_at_shape (s : SimpleSlicer) (m : nat) (z : float) :
  empty_layer (layer_at s m z) \/ one_contour_layer s (layer_at s m z).
Proof.
  unfold empty_layer, one_contour_layer, layer_at.
  pose proof (scan_length (triangles s) z) as Hlen.
  destruct (scan (triangles s) z) as [|p ps]; [left; split; reflexivity|].
  right. exists p, ps. split; [reflexivity | exact Hlen].
Qed.

(** X5.  Every layer [slice] returns is either empty (no contour, no
    infill) or has exactly one contour, which is not empty and has at most
    one point per triangle of the mesh.  In [generateGCode] the test
    [contour.empty()] therefore never skips a contour. *)
Theorem slice_layer_shape (fuel : nat) (s : SimpleSlicer) (layers : list Layer) :
  slice fuel s = Returns layers ->
  Forall (fun l => empty_layer l \/ one_contour_layer s l) layers.
Proof.
  intros Hs. apply slice_returns in Hs. destruct Hs as [_ Hl].
  apply Forall_forall. intros l Hin.
  apply In_nth_error in Hin. destruct Hin as (i & Hi).
  destruct (Hl i l Hi) as (m & -> & _). apply layer_at_shape.
Qed.

(** The theorem on the cube sliced with [layerHeight = 2]. *)
Lemma slice_layer_shape_cube :
  exists layers,
    slice 20 cube_slicer_2 = Returns layers /\
    Forall (fun l => empty_layer l \/ one_contour_layer cube_slicer_2 l) layers.
Proof.
  destruct slice_cube_2_returns as (layers & Hs).
  exists layers. split; [exact Hs|].
  exact (slice_layer_shape 20 cube_slicer_2 layers Hs).
Defined.

(** ** The heights of the layers *)

Lemma last_cons {A : Type} (v : list A) : forall a d : A, last (a :: v) d = last v a.
Proof.
  induction v as [|b w IH]; intros a d; [reflexivity|].
  change (last (a :: b :: w) d) with (last (b :: w) d).
  now rewrite !IH.
Qed.

Lemma back_nth_error {A : Type} (v : list A) (a : A) :
  back v = Returns a -> nth_error v (List.length v - 1) = Some a.
Proof.
  destruct v as [|a0 v']; [discriminate|].
  cbn [back]. intros H. injection H as <-.
  cbn [List.length]. rewrite Nat.sub_succ, Nat.sub_0_r.
  revert a0. induction v' as [|a1 v'' IH]; intros a0; [reflexivity|].
  cbn [List.length nth_error]. rewrite last_cons. exact (IH a1).
Qed.

Lemma nth_error_height (s : SimpleSlicer) (fuel : nat) (layers : list Layer) (i : nat) (l : Layer) :
  slice fuel s = Returns layers -> nth_error layers i = Some l ->
  height l = layer_height s i /\ (i < List.length layers)%nat.
Proof.
  intros Hs Hi. apply slice_returns in Hs. destruct Hs as [_ Hl].
  destruct (Hl i l Hi) as (m & -> & _). split; [apply layer_at_height|].
  apply nth_error_Some. rewrite Hi. discriminate.
Qed.

(** X6.  The loop guard [z <= maxZ] holds of every layer [slice] returns:
    no layer is above the top of the bounding box (and no height is NaN),
    while one more [layerHeight] added to the last layer's height is not
    [<= maxZ]. *)
Theorem slice_heights_within (fuel : nat) (s : SimpleSlicer) (layers : list Layer) :
  slice fuel s = Returns layers ->
  Forall (fun l => (height l <=? at_ (getBoundingBox s) 5) = true /\
                   is_nan (height l) = false) layers /\
  (forall lastLayer, back layers = Returns lastLayer ->
     (height lastLayer + layerHeight s <=? at_ (getBoundingBox s) 5) = false).
Proof.
  intros Hs. pose proof (slice_returns s fuel layers Hs) as [[Hin Hout] _].
  split.
  - apply Forall_forall. intros l Hl.
    apply In_nth_error in Hl. destruct Hl as (i & Hi).
    destruct (nth_error_height s fuel layers i l Hs Hi) as [-> Hlt].
    pose proof (Hin i Hlt) as Hle. split; [exact Hle|].
    exact (proj1 (FloatOrder.leb_not_nan _ _ Hle)).
  - intros lastLayer Hb. apply back_nth_error in Hb.
    destruct (nth_error_height s fuel layers _ lastLayer Hs Hb) as [-> Hlt].
    assert (E : layer_height s (List.length layers - 1) + layerHeight s =
                plane (at_ (getBoundingBox s) 2) (layerHeight s) (List.length layers))
      by (replace (List.length layers) with (S (List.length layers - 1)) at 2 by lia;
          reflexivity).
    rewrite E. exact Hout.
Qed.

(** The theorem on the cube sliced with [layerHeight = 2]: the last layer
    is at 5, the top of the cube. *)
Lemma slice_heights_within_cube :
  exists layers lastLayer,
    slice 20 cube_slicer_2 = Returns layers /\
    back layers = Returns lastLayer /\ height lastLayer = 5 /\
    Forall (fun l => (height l <=? 5) = true /\ is_nan (height l) = false) layers /\
    (height lastLayer + 2 <=? 5) = false.
Proof.
  destruct slice_cube_2_returns as (layers & Hs).
  destruct (slice_heights_within 20 cube_slicer_2 layers Hs) as [Hall Hlast].
  assert (Hb : exists lastLayer, back layers = Returns lastLayer /\ height lastLayer = 5).
  { vm_compute in Hs. injection Hs as <-. eexists. split; reflexivity. }
  destruct Hb as (lastLayer & Hb & Hh).
  exists layers, lastLayer. split; [exact Hs|]. split; [exact Hb|]. split; [exact Hh|].
  split; [exact Hall | exact (Hlast lastLayer Hb)].
Defined.

(** ** One raster for all layers *)

Lemma infill_lines_length (bbox : list float) (density z : float) (m : nat) :
  List.length (infill_lines bbox density z m) = m.
Proof. unfold infill_lines. now rewrite length_map, length_seq. Qed.

(** X7.  The infill does not look at the contour, so every layer that has
    a contour carries the same raster: the same number [m] of lines, at
    the same X positions, over the same Y extent; only Z changes. *)
Theorem slice_infill_same_raster (fuel : nat) (s : SimpleSlicer) (layers : list Layer) :
  slice fuel s = Returns layers ->
  exists m,
    Forall (fun l => contours l <> [] ->
                     List.length (infill l) = m /\
                     infill l = infill_lines (getBoundingBox s) (infillDensity s) (height l) m)
           layers.
Proof.
  intros Hs. apply slice_returns in Hs. destruct Hs as [_ Hl].
  assert (Hall : Forall (fun l => contours l <> [] ->
                   exists m, infill_stops s m /\
                             infill l = infill_lines (getBoundingBox s) (infillDensity s) (height l) m)
                   layers).
  { apply Forall_forall. intros l Hin Hc.
    apply In_nth_error in Hin. destruct Hin as (i & Hi).
    destruct (Hl i l Hi) as (m & -> & Hm).
    rewrite layer_at_contours in Hc. rewrite layer_at_infill, layer_at_height.
    destruct (scan (triangles s) (layer_height s i)) as [|p ps]; [contradiction|].
    exists m. split; [apply Hm; discriminate | reflexivity]. }
  clear Hl. induction layers as [|l rest IH]; [exists 0%nat; constructor|].
  inversion Hall as [|? ? Hhd Htl]; subst.
  destruct (contours l) as [|c cs] eqn:Ec.
  - destruct (IH Htl) as (m & Hm). exists m. constructor; [|exact Hm].
    intros H. now contradiction H.
  - destruct Hhd as (m & Hstop & Hinf); [discriminate|].
    exists m. constructor.
    + intros _. rewrite Hinf. split; [apply infill_lines_length | reflexivity].
    + apply Forall_forall. intros l' Hin' Hc'.
      rewrite Forall_forall in Htl. destruct (Htl l' Hin' Hc') as (m' & Hstop' & Hinf').
      assert (m' = m) by (eapply stops_unique; eassumption). subst m'.
      rewrite Hinf'. split; [apply infill_lines_length | reflexivity].
Qed.

(** The theorem on the cube sliced with [layerHeight = 2]: two lines in
    each of the six layers. *)
Lemma slice_infill_same_raster_cube :
  exists layers m,
    slice 20 cube_slicer_2 = Returns layers /\
    map (fun l => List.length (infill l)) layers = [2; 2; 2; 2; 2; 2]%nat /\
    Forall (fun l => contours l <> [] ->
                     List.length (infill l) = m /\
                     infill l = infill_lines (getBoundingBox cube_slicer_2)
                                             (infillDensity cube_slicer_2) (height l) m)
           layers.
Proof.
  destruct slice_cube_2_returns as (layers & Hs).
  destruct (slice_infill_same_raster 20 cube_slicer_2 layers Hs) as (m & Hm).
  exists layers, m. split; [exact Hs|]. split; [|exact Hm].
  vm_compute in Hs. injection Hs as <-. reflexivity.
Defined.

(** ** Equal numbers run through a loop alike *)

Module SameNumber.

Lemma eqb_same (a b : float) : (a =? b) = true -> same_number a b.
Proof.
  rewrite FloatAxioms.eqb_spec. unfold same_number, SFeqb.
  destruct (Prim2SF a) as [sa|sa| |sa ma ea] eqn:Ea,
           (Prim2SF b) as [sb|sb| |sb mb eb] eqn:Eb;
    simpl; try discriminate; try (intros _; right; split; exact I);
    try (destruct sa; discriminate); try (destruct sb; discriminate).
  - destruct sa, sb; try discriminate; intros _; left;
      apply Prim2SF_inj; now rewrite Ea, Eb.
  - intros H. left. apply Prim2SF_inj. rewrite Ea, Eb.
    destruct sa, sb; try discriminate; cmp_cases.
Qed.

Lemma SFadd_zero_l (sa sb : bool) (h : spec_float) :
  SFadd prec emax (S754_zero sa) h = SFadd prec emax (S754_zero sb) h \/
  (SFzero (SFadd prec emax (S754_zero sa) h) /\ SFzero (SFadd prec emax (S754_zero sb) h)).
Proof.
  destruct h as [sh|sh| |sh mh eh]; simpl; try (now left).
  right. destruct sa, sb, sh; split; exact I.
Qed.

(** Adding the same step to equal numbers gives equal numbers. *)
Lemma same_add (a b h : float) : same_number a b -> same_number (a + h) (b + h).
Proof.
  intros [-> | [Ha Hb]]; [now left|].
  unfold same_number.
  destruct (Prim2SF a) as [sa|sa| |sa ma ea] eqn:Ea; try contradiction.
  destruct (Prim2SF b) as [sb|sb| |sb mb eb] eqn:Eb; try contradiction.
  destruct (SFadd_zero_l sa sb (Prim2SF h)) as [E | E].
  - left. apply Prim2SF_inj. rewrite !add_spec, Ea, Eb. exact E.
  - right. rewrite !add_spec, Ea, Eb. exact E.
Qed.

(** Equal numbers compare alike. *)
Lemma same_leb (a b c : float) : same_number a b -> (a <=? c) = (b <=? c).
Proof.
  intros [-> | [Ha Hb]]; [reflexivity|].
  rewrite !leb_spec.
  destruct (Prim2SF a) as [sa|sa| |sa ma ea]; try contradiction.
  destruct (Prim2SF b) as [sb|sb| |sb mb eb]; try contradiction.
  destruct (Prim2SF c); reflexivity.
Qed.

Lemma same_plane (a b h : float) (k : nat) :
  same_number a b -> same_number (plane a h k) (plane b h k).
Proof.
  intros H. induction k as [|k IH]; [exact H|].
  change (plane a h (S k)) with (plane a h k + h).
  change (plane b h (S k)) with (plane b h k + h).
  now apply same_add.
Qed.

Lemma plane_add (start step : float) (i k : nat) :
  plane start step (k + i) = plane (plane start step i) step k.
Proof. unfold plane. apply Nat.iter_add. Qed.

(** A loop that passes twice through the same number never leaves. *)
Lemma repeat_never_leaves (start step bound : float) (i d : nat) :
  (0 < d)%nat ->
  same_number (plane start step i) (plane start step (i + d)) ->
  (forall k, (k < i + d)%nat -> (plane start step k <=? bound) = true) ->
  forall k, (plane start step k <=? bound) = true.
Proof.
  intros Hd Hsame Hlow k. induction k as [k IH] using (well_founded_induction lt_wf).
  destruct (Nat.lt_ge_cases k (i + d)) as [Hlt | Hge]; [now apply Hlow|].
  replace k with ((k - (i + d)) + (i + d))%nat by lia.
  rewrite plane_add.
  rewrite <- (same_leb _ _ bound (same_plane _ _ step (k - (i + d)) Hsame)).
  rewrite <- plane_add. apply IH. lia.
Qed.

(** Adding a zero does not change the number. *)
Lemma add_zero_same (a h : float) : SFzero (Prim2SF h) -> same_number (a + h) a.
Proof.
  intros Hh. unfold same_number.
  destruct (Prim2SF h) as [sh|sh| |sh mh eh] eqn:Eh; try contradiction.
  destruct (Prim2SF a) as [sa|sa| |sa ma ea] eqn:Ea.
  - right. rewrite add_spec, Ea, Eh. destruct sa, sh; split; exact I.
  - left. apply Prim2SF_inj. now rewrite add_spec, Ea, Eh.
  - left. apply Prim2SF_inj. now rewrite add_spec, Ea, Eh.
  - left. apply Prim2SF_inj. now rewrite add_spec, Ea, Eh.
Qed.

End SameNumber.

(** X8.  Whenever [slice] returns, no two of its layers are at the same
    height: if the accumulated height came back to a number it had before,
    the Z loop would go round for ever. *)
Theorem slice_heights_distinct (fuel : nat) (s : SimpleSlicer) (layers : list Layer)
    (i j : nat) (li lj : Layer) :
  slice fuel s = Returns layers ->
  (i < j)%nat -> nth_error layers i = Some li -> nth_error layers j = Some lj ->
  (height li =? height lj) = false.
Proof.
  intros Hs Hij Hi Hj.
  destruct (nth_error_height s fuel layers i li Hs Hi) as [-> _].
  destruct (nth_error_height s fuel layers j lj Hs Hj) as [-> Hjn].
  pose proof (slice_returns s fuel layers Hs) as [[Hin Hout] _].
  destruct (layer_height s i =? layer_height s j) eqn:E; [|reflexivity].
  exfalso. apply SameNumber.eqb_same in E. unfold layer_height in E.
  replace j with (i + (j - i))%nat in E by lia.
  rewrite (SameNumber.repeat_never_leaves _ _ (at_ (getBoundingBox s) 5) i (j - i)
             ltac:(lia) E) in Hout; [discriminate|].
  intros k Hk. apply Hin. lia.
Qed.

(** The theorem on the cube sliced with [layerHeight = 2]: the first and
    the last of the six layers. *)
Lemma slice_heights_distinct_cube :
  exists layers l0 l5,
    slice 20 cube_slicer_2 = Returns layers /\
    nth_error layers 0 = Some l0 /\ nth_error layers 5 = Some l5 /\
    (height l0 =? height l5) = false.
Proof.
  destruct slice_cube_2_returns as (layers & Hs).
  assert (H : exists l0 l5, nth_error layers 0 = Some l0 /\ nth_error layers 5 = Some l5).
  { pose proof Hs as Hs'. vm_compute in Hs'. injection Hs' as <-.
    eexists. eexists. split; reflexivity. }
  destruct H as (l0 & l5 & H0 & H5).
  exists layers, l0, l5. split; [exact Hs|]. split; [exact H0|]. split; [exact H5|].
  apply (slice_heights_distinct 20 cube_slicer_2 layers 0 5 l0 l5 Hs); [lia | exact H0 | exact H5].
Defined.

(** ** Degenerate layer heights *)

Lemma plane_zero_step (start step : float) (k : nat) :
  SFzero (Prim2SF step) -> same_number (plane start step k) start.
Proof.
  intros Hz. induction k as [|k IH]; [now left|].
  rewrite plane_shift.
  destruct (SameNumber.same_plane _ _ step k (SameNumber.add_zero_same start step Hz))
    as [E | [Z1 Z2]].
  - now rewrite E.
  - destruct IH as [E | [Z3 Z4]].
    + right. split; [exact Z1 | now rewrite <- E].
    + right. split; [exact Z1 | exact Z4].
Qed.

Lemma eqb_zero (h : float) : (h =? 0) = true -> SFzero (Prim2SF h).
Proof.
  intros H. destruct (SameNumber.eqb_same h 0 H) as [-> | [Hz _]]; [exact I | exact Hz].
Qed.

(** X9.  With [layerHeight] zero (of either sign) the Z loop never moves:
    on every mesh of numbers [slice] never returns, and neither do
    [generateGCode] and [getLayerInfo], which start by calling it. *)
Theorem slice_zero_layerHeight_never_returns (s : SimpleSlicer) (fuel : nat) :
  num_mesh (triangles s) -> (layerHeight s =? 0) = true ->
  (forall layers, slice fuel s <> Returns layers) /\
  (forall gcode, generateGCode_stream fuel s <> Returns gcode) /\
  (forall json, getLayerInfo_stream fuel s <> Returns json).
Proof.
  intros Hnum Hz.
  assert (Hslice : forall layers, slice fuel s <> Returns layers).
  { intros layers Hs. apply slice_returns in Hs. destruct Hs as [[_ Hout] _].
    rewrite (SameNumber.same_leb _ _ _ (plane_zero_step _ _ (List.length layers) (eqb_zero _ Hz)))
      in Hout.
    rewrite (bbox_minZ_le_maxZ s Hnum) in Hout. discriminate. }
  split; [exact Hslice|]. split.
  - intros gcode Hg. unfold generateGCode_stream in Hg.
    destruct (slice fuel s) as [layers| |] eqn:E; try discriminate.
    now apply (Hslice layers).
  - intros json Hj. unfold getLayerInfo_stream in Hj.
    destruct (slice fuel s) as [layers| |] eqn:E; try discriminate.
    now apply (Hslice layers).
Qed.

(** The theorem on the cube after [setLayerHeight(0)], and after
    [setLayerHeight(-0.0)]. *)
Lemma slice_zero_layerHeight_never_returns_cube :
  (forall fuel layers, slice fuel (setLayerHeight 0 cube_slicer) <> Returns layers) /\
  (forall fuel gcode, generateGCode_stream fuel (setLayerHeight (-0) cube_slicer) <> Returns gcode).
Proof.
  split.
  - intros fuel.
    exact (proj1 (slice_zero_layerHeight_never_returns (setLayerHeight 0 cube_slicer) fuel
                    num_mesh_cube eq_refl)).
  - intros fuel.
    exact (proj1 (proj2 (slice_zero_layerHeight_never_returns (setLayerHeight (-0) cube_slicer) fuel
                    num_mesh_cube eq_refl))).
Defined.

Lemma ltb_not_leb (a b : float) : (a <? b) = true -> (b <=? a) = false.
Proof.
  intros H. destruct (FloatOrder.leb_not_nan _ _ (FloatOrder.ltb_leb _ _ H)) as [Na Nb].
  rewrite (FloatOrder.ltb_negb_leb a b Na Nb) in H.
  now destruct (b <=? a).
Qed.

Lemma add_nan_r (a h : float) : is_nan h = true -> is_nan (a + h) = true.
Proof.
  rewrite !NonFinite.is_nan_true, add_spec. intros ->.
  destruct (Prim2SF a); reflexivity.
Qed.

(** X10.  When [layerHeight] is NaN, or so large that [minZ + layerHeight]
    is above [maxZ], the Z loop runs once: on a mesh of numbers [slice]
    returns exactly one layer, at [minZ] (provided the infill loop, if that
    plane meets a triangle, leaves). *)
Theorem slice_single_layer (s : SimpleSlicer) (m fuel : nat) :
  num_mesh (triangles s) ->
  is_nan (layerHeight s) = true \/
  (at_ (getBoundingBox s) 5 <? at_ (getBoundingBox s) 2 + layerHeight s) = true ->
  (scan (triangles s) (at_ (getBoundingBox s) 2) <> [] -> infill_stops s m) ->
  (m + 2 < fuel)%nat ->
  exists l, slice fuel s = Returns [l] /\ height l = at_ (getBoundingBox s) 2 /\
            l = layer_at s m (at_ (getBoundingBox s) 2).
Proof.
  intros Hnum Hh Hinf Hfuel.
  assert (Hnext : (at_ (getBoundingBox s) 2 + layerHeight s <=? at_ (getBoundingBox s) 5) = false).
  { destruct Hh as [Hnan | Hlt]; [|now apply ltb_not_leb].
    exact (proj2 (leb_nan_r _ _ (add_nan_r (at_ (getBoundingBox s) 2) _ Hnan))). }
  assert (Hstop : heights_stop s 1).
  { apply stops_S; [now apply bbox_minZ_le_maxZ | now apply stops_O]. }
  assert (Hcalled : infill_stops_if_called s 1 m).
  { intros i Hi. replace i with 0%nat by lia. exact Hinf. }
  exists (layer_at s m (at_ (getBoundingBox s) 2)).
  split; [|split; [apply layer_at_height | reflexivity]].
  exact (slice_stops s 1 m fuel Hstop Hcalled ltac:(lia)).
Qed.

(** The theorem on the cube after [setLayerHeight(NaN)] and after
    [setLayerHeight(11)]: one layer, at -5. *)
Lemma slice_single_layer_cube :
  (exists l, slice 5 (setLayerHeight nan cube_slicer) = Returns [l] /\ height l = -5) /\
  (exists l, slice 5 (setLayerHeight 11 cube_slicer) = Returns [l] /\ height l = -5).
Proof.
  split.
  - destruct (slice_single_layer (setLayerHeight nan cube_slicer) 2 5 num_mesh_cube
                (or_introl eq_refl) (fun _ => infill_stops_cube nan) ltac:(lia))
      as (l & Hs & Hh & _).
    exists l. split; [exact Hs | exact Hh].
  - destruct (slice_single_layer (setLayerHeight 11 cube_slicer) 2 5 num_mesh_cube
                (or_intror eq_refl) (fun _ => infill_stops_cube 11) ltac:(lia))
      as (l & Hs & Hh & _).
    exists l. split; [exact Hs | exact Hh].
Defined.

(** ** Degenerate infill densities *)

Lemma is_nan_eq (d : float) : is_nan d = true -> d = nan.
Proof.
  intros H. apply NonFinite.is_nan_true in H. apply Prim2SF_inj. now rewrite H.
Qed.

Lemma is_finite_true (x : float) : is_finite x = true -> ~ SFnonfinite (Prim2SF x).
Proof.
  intros H Hn. apply NonFinite.is_finite_false in Hn. rewrite Hn in H. discriminate.
Qed.

(** A finite number plus [+infinity] is [+infinity], which is above every
    finite number. *)
Lemma add_infinity_above (a b : float) :
  is_finite a = true -> is_finite b = true -> (a + infinity <=? b) = false.
Proof.
  intros Ha Hb. apply is_finite_true in Ha, Hb.
  rewrite leb_spec, add_spec. change (Prim2SF infinity) with (S754_infinity false).
  destruct (Prim2SF a) as [sa|sa| |sa ma ea]; simpl in Ha; try tauto;
    destruct (Prim2SF b) as [sb|sb| |sb mb eb]; simpl in Hb; try tauto; reflexivity.
Qed.

(** A finite number plus [-infinity] is [-infinity], which stays there and
    is below every finite number. *)
Lemma add_neg_infinity_below (a b : float) :
  is_finite a = true -> is_finite b = true ->
  a + neg_infinity = neg_infinity /\ (neg_infinity <=? b) = true.
Proof.
  intros Ha Hb. apply is_finite_true in Ha, Hb. split.
  - apply Prim2SF_inj. rewrite add_spec.
    change (Prim2SF neg_infinity) with (S754_infinity true).
    destruct (Prim2SF a) as [sa|sa| |sa ma ea]; simpl in Ha; try tauto; reflexivity.
  - rewrite leb_spec. change (Prim2SF neg_infinity) with (S754_infinity true).
    destruct (Prim2SF b) as [sb|sb| |sb mb eb]; simpl in Hb; try tauto; reflexivity.
Qed.

(** X11.  On a finite box with [minX <= maxX]: [infillDensity = +0.0]
    does not switch the infill off, for the step [2.0 / (0 / 100)] is
    [+infinity], the X loop runs once and [generateInfill] returns exactly
    one line, at [minX]; the same happens when [infillDensity] is NaN.
    With [infillDensity = -0.0] the step is [-infinity]: [x] drops to
    [-infinity], stays [<= maxX], and [generateInfill] never returns. *)
Theorem generateInfill_zero_density (s : SimpleSlicer) (contour : list Vector3) (z : float) :
  (at_ (getBoundingBox s) 0 <=? at_ (getBoundingBox s) 3) = true ->
  is_finite (at_ (getBoundingBox s) 0) = true ->
  is_finite (at_ (getBoundingBox s) 3) = true ->
  (infillDensity s = 0 \/ is_nan (infillDensity s) = true ->
   forall fuel, (1 < fuel)%nat ->
     generateInfill fuel s contour z =
     Returns [ [ Vector3.mk (at_ (getBoundingBox s) 0) (at_ (getBoundingBox s) 1) z;
                 Vector3.mk (at_ (getBoundingBox s) 0) (at_ (getBoundingBox s) 4) z ] ]) /\
  (infillDensity s = -0 ->
   forall fuel, generateInfill fuel s contour z = OutOfFuel).
Proof.
  intros Hle Hf0 Hf3. split.
  - intros Hd fuel Hfuel.
    assert (Hstop : infill_stops s 1).
    { apply stops_S; [exact Hle|]. apply stops_O.
      destruct Hd as [-> | Hnan].
      - change (infill_step 0) with infinity. now apply add_infinity_above.
      - rewrite (is_nan_eq _ Hnan). change (infill_step nan) with nan.
        exact (proj2 (leb_nan_r _ _ (add_nan_r (at_ (getBoundingBox s) 0) nan eq_refl))). }
    rewrite (generateInfill_stops s 1 fuel contour z Hstop Hfuel). reflexivity.
  - intros Hd fuel.
    destruct (add_neg_infinity_below _ _ Hf0 Hf3) as [Hadd Hbelow].
    destruct (generateInfill fuel s contour z) as [lines| |] eqn:E; [exfalso | reflexivity | exfalso].
    + apply generateInfill_returns in E. destruct E as (m & _ & [Hin Hout] & _).
      rewrite Hd in Hout. change (infill_step (-0)) with neg_infinity in Hout.
      destruct m as [|m]; [cbn in Hout; congruence|].
      rewrite plane_shift, Hadd, plane_fixed in Hout by reflexivity. congruence.
    + exact (generateInfill_not_undefined s fuel contour z E).
Qed.

(** The theorem on the cube: one line from [(-5, -5)] to [(-5, 5)] after
    [setInfillDensity(0)], no return after [setInfillDensity(-0.0)]. *)
Lemma generateInfill_zero_density_cube :
  generateInfill 2 (setInfillDensity 0 cube_slicer) [] 1 =
    Returns [ [Vector3.mk (-5) (-5) 1; Vector3.mk (-5) 5 1] ] /\
  generateInfill 1000 (setInfillDensity (-0) cube_slicer) [] 1 = OutOfFuel.
Proof.
  split.
  - exact (proj1 (generateInfill_zero_density (setInfillDensity 0 cube_slicer) [] 1
                    eq_refl eq_refl eq_refl) (or_introl eq_refl) 2%nat (Nat.lt_succ_diag_r 1)).
  - exact (proj2 (generateInfill_zero_density (setInfillDensity (-0) cube_slicer) [] 1
                    eq_refl eq_refl eq_refl) eq_refl 1000%nat).
Defined.

(** ** The numbers in the summary of [getLayerInfo] *)

Module Summary.

Lemma doubles_app (a b : ostream) : doubles (a ++ b) = doubles a ++ doubles b.
Proof. apply flat_map_app. Qed.

Lemma sizes_app (a b : ostream) : sizes (a ++ b) = sizes a ++ sizes b.
Proof. apply flat_map_app. Qed.

Lemma fold_emit_bbox_entry_numbers (bbox : list float) : forall (json : ostream) (i : nat),
  doubles (fst (fold_left emit_bbox_entry bbox (json, i))) = doubles json ++ bbox /\
  sizes (fst (fold_left emit_bbox_entry bbox (json, i))) = sizes json.
Proof.
  induction bbox as [|b rest IH]; intros json i; cbn [fold_left].
  - now rewrite app_nil_r.
  - assert (E : emit_bbox_entry (json, i) b =
                ((if (0 <? i)%nat then json ++ [Str ", "] else json) ++ [Dbl b], S i))
      by reflexivity.
    rewrite E. destruct (IH ((if (0 <? i)%nat then json ++ [Str ", "] else json) ++ [Dbl b]) (S i))
      as [Hd Hs].
    split; [etransitivity; [exact Hd|] | etransitivity; [exact Hs|]];
      destruct (0 <? i)%nat; rewrite ?doubles_app, ?sizes_app; cbn [doubles sizes flat_map app];
      rewrite ?app_nil_r, <- ?app_assoc; reflexivity.
Qed.

Lemma emit_layer_info_numbers (json : ostream) (i : nat) (l : Layer) :
  doubles (fst (emit_layer_info (json, i) l)) = doubles json ++ [height l] /\
  sizes (fst (emit_layer_info (json, i) l)) = sizes json ++ layer_counts l /\
  snd (emit_layer_info (json, i) l) = S i.
Proof.
  unfold emit_layer_info, put. cbn [fst snd].
  destruct (0 <? i)%nat; rewrite ?doubles_app, ?sizes_app;
    cbn [doubles sizes flat_map app layer_counts];
    rewrite ?app_nil_r, <- ?app_assoc; repeat split; reflexivity.
Qed.

Lemma fold_emit_layer_info_numbers (layers : list Layer) : forall (json : ostream) (i : nat),
  doubles (fst (fold_left emit_layer_info layers (json, i))) = doubles json ++ map height layers /\
  sizes (fst (fold_left emit_layer_info layers (json, i))) =
    sizes json ++ flat_map layer_counts layers.
Proof.
  induction layers as [|l rest IH]; intros json i; cbn [fold_left].
  - cbn [map flat_map]. now rewrite !app_nil_r.
  - destruct (emit_layer_info_numbers json i l) as (Hd1 & Hs1 & _).
    destruct (emit_layer_info (json, i) l) as [json' i']. cbn [fst] in Hd1, Hs1.
    destruct (IH json' i') as [Hd Hs]. rewrite Hd, Hs, Hd1, Hs1.
    cbn [map flat_map]. rewrite <- !app_assoc. split; reflexivity.
Qed.

End Summary.

(** X12.  The numbers [getLayerInfo] writes are, in order: the [double]s
    [layerHeight], [infillDensity], the six entries of [getBoundingBox] and
    then the height of each layer; and the [size_t]s [layers.size()] and
    then, for each layer, its number of contours and its number of infill
    lines -- all of the same [slice] run. *)
Theorem getLayerInfo_numbers (fuel : nat) (s : SimpleSlicer) (json : ostream) :
  getLayerInfo_stream fuel s = Returns json ->
  exists layers,
    slice fuel s = Returns layers /\
    doubles json = [layerHeight s; infillDensity s] ++ getBoundingBox s ++ map height layers /\
    sizes json = List.length layers :: flat_map layer_counts layers.
Proof.
  unfold getLayerInfo_stream.
  destruct (slice fuel s) as [layers| |]; cbn [bind]; try discriminate.
  cbv zeta.
  match goal with |- context [fold_left emit_bbox_entry _ (?j, ?k)] =>
    pose proof (Summary.fold_emit_bbox_entry_numbers (getBoundingBox s) j k) as [Hd1 Hs1];
    destruct (fold_left emit_bbox_entry (getBoundingBox s) (j, k)) as [json1 i1] end.
  cbv beta iota.
  match goal with |- context [fold_left emit_layer_info _ (?j, ?k)] =>
    pose proof (Summary.fold_emit_layer_info_numbers layers j k) as [Hd2 Hs2];
    destruct (fold_left emit_layer_info layers (j, k)) as [json2 i2] end.
  cbv beta iota. cbn [fst] in *. intros H. injection H as <-. exists layers.
  split; [reflexivity|]. unfold put in *.
  rewrite !Summary.doubles_app, !Summary.sizes_app, Hd2, Hs2.
  rewrite !Summary.doubles_app, !Summary.sizes_app, Hd1, Hs1.
  rewrite !Summary.doubles_app, !Summary.sizes_app.
  cbn [doubles sizes flat_map app]. rewrite ?app_nil_r, <- ?app_assoc.
  split; reflexivity.
Qed.

(** The theorem on the cube sliced with [layerHeight = 2]. *)
Lemma getLayerInfo_numbers_cube :
  exists json,
    getLayerInfo_stream 20 cube_slicer_2 = Returns json /\
    doubles json = [2; 20; -5; -5; -5; 5; 5; 5; -5; -3; -1; 1; 3; 5] /\
    sizes json = [6; 1; 2; 1; 2; 1; 2; 1; 2; 1; 2; 1; 2]%nat.
Proof.
  destruct slice_cube_2_returns as (layers0 & Hs0).
  destruct (getLayerInfo_stream_returns cube_slicer_2 20 layers0 Hs0) as (json & Hj).
  destruct (getLayerInfo_numbers 20 cube_slicer_2 json Hj) as (layers & Hs & Hd & Hz).
  exists json. split; [exact Hj|].
  vm_compute in Hs. injection Hs as <-. split; [exact Hd | exact Hz].
Defined.

(** ** Counting the moves of the G-code *)

Module Moves.

Lemma count_str_run_sum {X St : Type} (step : St -> X -> ostream * St) (key : string)
    (c : X -> nat) (xs : list X) :
  (forall st x, In x xs -> count_str key (fst (step st x)) = c x) ->
  forall st, count_str key (fst (run step st xs)) = list_sum (map c xs).
Proof.
  induction xs as [|x rest IH]; intros Hstep st; [reflexivity|].
  cbn [run fst map]. simpl list_sum. rewrite count_str_app, Hstep by now left.
  rewrite IH; [reflexivity|]. intros st' x' Hin. apply Hstep. now right.
Qed.

Lemma list_sum_ones {X : Type} (xs : list X) : list_sum (map (fun _ => 1%nat) xs) = List.length xs.
Proof. induction xs as [|x rest IH]; simpl; [reflexivity | now rewrite IH]. Qed.

(** A contour with a first point: one travel, one extrusion per further
    point. *)
Lemma contour_out_moves (height e : float) (c0 : Vector3) (rest : list Vector3) :
  travel_moves (fst (contour_out height e (c0 :: rest))) = 1%nat /\
  extrusion_moves (fst (contour_out height e (c0 :: rest))) = List.length rest.
Proof.
  unfold travel_moves, extrusion_moves. cbn [contour_out fst]. rewrite !count_str_app.
  rewrite (count_str_run _ "G0 X" 0) by reflexivity.
  rewrite (count_str_run _ "G1 X" 1) by reflexivity.
  split; [rewrite Nat.mul_0_r; reflexivity | rewrite Nat.mul_1_r; reflexivity].
Qed.

(** A line of two points: one travel, one extrusion. *)
Lemma infill_out_moves (height e : float) (l0 l1 : Vector3) :
  travel_moves (fst (infill_out height e [l0; l1])) = 1%nat /\
  extrusion_moves (fst (infill_out height e [l0; l1])) = 1%nat.
Proof. split; reflexivity. Qed.

Lemma infill_lines_two_points (bbox : list float) (density z : float) (m : nat) (line : list Vector3) :
  In line (infill_lines bbox density z m) -> exists l0 l1, line = [l0; l1].
Proof.
  unfold infill_lines. intros H. apply in_map_iff in H. destruct H as (i & <- & _).
  unfold infill_line. eauto.
Qed.

Lemma layer_at_moves (s : SimpleSlicer) (m : nat) (z : float) (st : float * nat) :
  travel_moves (fst (layer_out st (layer_at s m z))) = toolpaths (layer_at s m z) /\
  extrusion_moves (fst (layer_out st (layer_at s m z))) = segments (layer_at s m z).
Proof.
  destruct st as [e i]. unfold travel_moves, extrusion_moves, toolpaths, segments, layer_out.
  cbn [fst]. rewrite !count_str_app.
  change (count_str "G0 X" (layer_items i (height (layer_at s m z)))) with 0%nat.
  change (count_str "G1 X" (layer_items i (height (layer_at s m z)))) with 0%nat.
  assert (Hinf : forall key c,
            (forall h e0 l0 l1, count_str key (fst (infill_out h e0 [l0; l1])) = c) ->
            forall e0, count_str key (fst (run (infill_out (height (layer_at s m z))) e0
                                               (infill (layer_at s m z)))) =
                       (List.length (infill (layer_at s m z)) * c)%nat).
  { intros key c Hc e0.
    rewrite (count_str_run_sum _ key (fun _ => c)).
    - clear. induction (infill (layer_at s m z)) as [|x r IH]; simpl; [reflexivity | now rewrite IH].
    - intros e1 line Hin. rewrite layer_at_infill in Hin.
      destruct (scan (triangles s) z); [contradiction|].
      apply infill_lines_two_points in Hin. destruct Hin as (l0 & l1 & ->). apply Hc. }
  rewrite (Hinf "G0 X"%string 1%nat) by reflexivity.
  rewrite (Hinf "G1 X"%string 1%nat) by reflexivity.
  rewrite !Nat.mul_1_r, layer_at_contours.
  destruct (scan (triangles s) z) as [|p ps].
  - split; reflexivity.
  - cbn [run fst snd List.length map list_sum].
    destruct (contour_out_moves (height (layer_at s m z)) e p ps) as [Ht He].
    unfold travel_moves, extrusion_moves in Ht, He.
    rewrite !count_str_app, Ht, He. cbn [count_str]. simpl list_sum. split; lia.
Qed.

End Moves.

(** X13.  In the G-code of a run that returns, every contour and every
    infill line of every layer is reached by exactly one travel move
    [G0 X.. Y..], and there is one extrusion move [G1 X.. Y.. E..] per
    contour point after the first and one per infill line; each extrusion
    move carries its own E word. *)
Theorem generateGCode_moves (fuel : nat) (s : SimpleSlicer) (gcode : ostream) :
  generateGCode_stream fuel s = Returns gcode ->
  exists layers,
    slice fuel s = Returns layers /\
    travel_moves gcode = list_sum (map toolpaths layers) /\
    extrusion_moves gcode = list_sum (map segments layers) /\
    extrusion_moves gcode = List.length (E_values gcode).
Proof.
  intros H.
  destruct (Extrusion.E_values_stream fuel s gcode H) as (layers & Hs & HE).
  apply Serializer.generateGCode_stream_out in H.
  destruct H as (layers' & lastLayer & Hs' & _ & Hg).
  rewrite Hs in Hs'. injection Hs' as <-.
  pose proof (slice_returns s fuel layers Hs) as [_ Hl].
  assert (Hin : forall l, In l layers -> exists m z, l = layer_at s m z).
  { intros l Hin. apply In_nth_error in Hin. destruct Hin as (i & Hi).
    destruct (Hl i l Hi) as (m & -> & _). eauto. }
  assert (Ht : travel_moves gcode = list_sum (map toolpaths layers)).
  { rewrite Hg. unfold travel_moves. rewrite !count_str_app.
    rewrite (Moves.count_str_run_sum _ _ toolpaths).
    - change (count_str "G0 X" (gcode_header s)) with 0%nat.
      change (count_str "G0 X" (trailer_items lastLayer)) with 0%nat. lia.
    - intros st l Hl'. destruct (Hin l Hl') as (m & z & ->). apply Moves.layer_at_moves. }
  assert (He : extrusion_moves gcode = list_sum (map segments layers)).
  { rewrite Hg. unfold extrusion_moves. rewrite !count_str_app.
    rewrite (Moves.count_str_run_sum _ _ segments).
    - change (count_str "G1 X" (gcode_header s)) with 0%nat.
      change (count_str "G1 X" (trailer_items lastLayer)) with 0%nat. lia.
    - intros st l Hl'. destruct (Hin l Hl') as (m & z & ->). apply Moves.layer_at_moves. }
  exists layers. split; [exact Hs|]. split; [exact Ht|]. split; [exact He|].
  rewrite He, HE, Extrusion.running_length. unfold increments.
  clear - Hin. induction layers as [|l rest IH]; [reflexivity|].
  cbn [map flat_map]. simpl list_sum. rewrite length_app, <- IH by (intros; apply Hin; now right).
  f_equal. destruct (Hin l (or_introl eq_refl)) as (m & z & ->).
  unfold segments, layer_increments. rewrite length_app. f_equal.
  - induction (contours (layer_at s m z)) as [|c cs IHc]; [reflexivity|].
    cbn [map flat_map]. simpl list_sum. rewrite length_app, <- IHc.
    unfold contour_increments. now rewrite repeat_length.
  - rewrite layer_at_infill. destruct (scan (triangles s) z); [reflexivity|].
    unfold infill_lines. rewrite length_map.
    induction (seq 0 m) as [|i r IHr]; [reflexivity|].
    cbn [map flat_map List.length app line_increments infill_line]. now rewrite <- IHr.
Qed.

(** The theorem on the cube sliced with [layerHeight = 2]: six layers,
    each with one contour and two infill lines; 18 travels, 58 extrusion
    moves. *)
Lemma generateGCode_moves_cube :
  exists gcode,
    generateGCode_stream 20 cube_slicer_2 = Returns gcode /\
    travel_moves gcode = 18%nat /\ extrusion_moves gcode = 58%nat /\
    List.length (E_values gcode) = 58%nat.
Proof.
  destruct (slice_cube_2_six 20 ltac:(lia)) as (l & rest & Hslice & _).
  destruct (generateGCode_stream_returns _ _ _ _ Hslice) as (gcode & Hg).
  exists gcode. split; [exact Hg|].
  destruct (generateGCode_moves 20 cube_slicer_2 gcode Hg) as (layers & Hs & Ht & He & HE).
  rewrite <- HE, Ht, He. vm_compute in Hs. injection Hs as <-.
  repeat split; reflexivity.
Defined.

(** ** The frame of the G-code *)



(** ** The empty mesh *)



(** ** The infill density changes the infill only *)

(** X16.  [setInfillDensity] changes neither the planes nor the contours:
    two runs of [slice] that differ only in the density return the same
    number of layers, at the same heights, with the same contours. *)
Theorem slice_contours_ignore_density (s : SimpleSlicer) (density : float) (f1 f2 : nat)
    (l1 l2 : list Layer) :
  slice f1 s = Returns l1 -> slice f2 (setInfillDensity density s) = Returns l2 ->
  List.length l1 = List.length l2 /\
  map height l1 = map height l2 /\
  map contours l1 = map contours l2.
Proof.
  intros H1 H2.
  pose proof (slice_returns _ _ _ H1) as [Hn1 Hl1].
  pose proof (slice_returns _ _ _ H2) as [Hn2 Hl2].
  assert (Hlen : List.length l1 = List.length l2) by (eapply stops_unique; eassumption).
  split; [exact Hlen|].
  assert (Hnth : forall i a b, nth_error l1 i = Some a -> nth_error l2 i = Some b ->
                               height a = height b /\ contours a = contours b).
  { intros i a b Ha Hb.
    destruct (Hl1 i a Ha) as (m1 & -> & _). destruct (Hl2 i b Hb) as (m2 & -> & _).
    rewrite !layer_at_height, !layer_at_contours. split; reflexivity. }
  clear - Hlen Hnth. revert l2 Hlen Hnth.
  induction l1 as [|a r1 IH]; intros [|b r2] Hlen Hnth; try discriminate.
  - split; reflexivity.
  - destruct (Hnth 0%nat a b eq_refl eq_refl) as [Hh Hc].
    destruct (IH r2) as [Eh Ec].
    + now injection Hlen.
    + intros i a' b' Ha Hb. exact (Hnth (S i) a' b' Ha Hb).
    + cbn [map]. now rewrite Hh, Hc, Eh, Ec.
Qed.

(** The theorem on the cube sliced with [layerHeight = 2], with the default
    density and with density 0. *)
Lemma slice_contours_ignore_density_cube :
  exists l1 l2,
    slice 20 cube_slicer_2 = Returns l1 /\
    slice 20 (setInfillDensity 0 cube_slicer_2) = Returns l2 /\
    map contours l1 = map contours l2 /\
    map (fun l => List.length (infill l)) l1 = [2; 2; 2; 2; 2; 2]%nat /\
    map (fun l => List.length (infill l)) l2 = [1; 1; 1; 1; 1; 1]%nat.
Proof.
  destruct slice_cube_2_returns as (l1 & H1).
  assert (H2 : exists l2, slice 20 (setInfillDensity 0 cube_slicer_2) = Returns l2)
    by (vm_compute; eexists; reflexivity).
  destruct H2 as (l2 & H2).
  exists l1, l2. split; [exact H1|]. split; [exact H2|].
  split; [exact (proj2 (proj2 (slice_contours_ignore_density cube_slicer_2 0 20 20 l1 l2 H1 H2)))|].
  vm_compute in H1, H2. injection H1 as <-. injection H2 as <-. split; reflexivity.
Defined.

(** ** The numbering of the layer comments *)

Module Numbering.

Lemma sizes_run_none {X St : Type} (step : St -> X -> ostream * St) (xs : list X) :
  (forall st x, sizes (fst (step st x)) = []) ->
  forall st, sizes (fst (run step st xs)) = [].
Proof.
  intros Hstep. induction xs as [|x rest IH]; intros st; [reflexivity|].
  cbn [run fst]. now rewrite Summary.sizes_app, Hstep, IH.
Qed.

Lemma contour_out_sizes (height e : float) (contour : list Vector3) :
  sizes (fst (contour_out height e contour)) = [].
Proof.
  destruct contour as [|c0 rest]; [reflexivity|].
  cbn [contour_out fst]. rewrite Summary.sizes_app.
  now rewrite (sizes_run_none move_out rest) by reflexivity.
Qed.

Lemma infill_out_sizes (height e : float) (line : list Vector3) :
  sizes (fst (infill_out height e line)) = [].
Proof. destruct line as [|l0 [|l1 rest]]; reflexivity. Qed.

Lemma layer_out_sizes (e : float) (i : nat) (layer : Layer) :
  sizes (fst (layer_out (e, i) layer)) = [i] /\ snd (snd (layer_out (e, i) layer)) = S i.
Proof.
  unfold layer_out. cbn [fst snd]. split; [|reflexivity].
  rewrite !Summary.sizes_app.
  rewrite (sizes_run_none _ _ (contour_out_sizes (height layer))).
  rewrite (sizes_run_none _ _ (infill_out_sizes (height layer))).
  reflexivity.
Qed.

Lemma run_layer_out_sizes (layers : list Layer) : forall (e : float) (i : nat),
  sizes (fst (run layer_out (e, i) layers)) = seq i (List.length layers).
Proof.
  induction layers as [|l rest IH]; intros e i; [reflexivity|].
  cbn [run fst List.length seq]. rewrite Summary.sizes_app.
  destruct (layer_out_sizes e i l) as [Hs Hi]. rewrite Hs.
  destruct (layer_out (e, i) l) as [o [e' i']]. cbn [snd] in *. subst i'.
  now rewrite IH.
Qed.

End Numbering.

(** X17.  The only [size_t]s [generateGCode] writes are the indices in
    the [; Layer i at Z=...] comments, and they count the layers from 0:
    0, 1, ..., [layers.size() - 1], in this order. *)
Theorem generateGCode_layer_numbers (fuel : nat) (s : SimpleSlicer) (gcode : ostream) :
  generateGCode_stream fuel s = Returns gcode ->
  exists layers,
    slice fuel s = Returns layers /\
    sizes gcode = seq 0 (List.length layers).
Proof.
  intros H. apply Serializer.generateGCode_stream_out in H.
  destruct H as (layers & lastLayer & Hs & _ & ->).
  exists layers. split; [exact Hs|].
  rewrite !Summary.sizes_app, Numbering.run_layer_out_sizes.
  change (sizes (gcode_header s)) with (@nil nat).
  change (sizes (trailer_items lastLayer)) with (@nil nat).
  now rewrite app_nil_r.
Qed.

(** The theorem on the cube sliced with [layerHeight = 2]. *)
Lemma generateGCode_layer_numbers_cube :
  exists gcode,
    generateGCode_stream 20 cube_slicer_2 = Returns gcode /\
    sizes gcode = [0; 1; 2; 3; 4; 5]%nat.
Proof.
  destruct (slice_cube_2_six 20 ltac:(lia)) as (l & rest & Hslice & Hlen).
  destruct (generateGCode_stream_returns _ _ _ _ Hslice) as (gcode & Hg).
  exists gcode. split; [exact Hg|].
  destruct (generateGCode_layer_numbers 20 cube_slicer_2 gcode Hg) as (layers & Hs & Hz).
  rewrite Hslice in Hs. injection Hs as <-. rewrite Hz, Hlen. reflexivity.
Defined.
